(** * river-dl: annual temperature signal and groundwater loss

    A shallow embedding of [river_dl/gw_utils.py] (harmonic signal
    estimator, signal table builder) and [river_dl/loss_functions.py]
    (masked statistics, rmse, batched regression, composite loss).

    Numbers.  Python floats, numpy float64 values and the entries of
    TensorFlow float32 tensors are modelled by one type [float]: the IEEE special values
    NaN, +inf and -inf next to the finite values, which are real numbers.
    Arithmetic on finite values is exact (no rounding, no overflow, no
    underflow), and zero carries no sign (a division by zero under IEEE
    rules takes the sign of its numerator).  "Missing" is NaN, as in the
    source.

    Dates.  A numpy [datetime64[ns]] is its 64-bit count of nanoseconds:
    a difference of dates wraps around as in numpy, and the smallest
    64-bit value is NaT ("not a time"), which [dropna] and the division
    by a day treat as missing.

    Exceptions.  Python code that can raise is written in the monad [Exc];
    [try ... except:] is [try_except].

    Libraries.  The regression of statsmodels ([sm.OLS(...).fit()]) and
    [tf.linalg.pinv] are parameters of the model; what a statement needs
    of them is a hypothesis of that statement.  The [print] calls of
    [loss_functions.py] are left out. *)

From Stdlib Require Import Reals Lra Lia List ZArith Bool Arith.
Import ListNotations.

Local Open Scope R_scope.

(* ================================================================== *)
(** * Floating-point values *)
(* ================================================================== *)

Inductive float : Type :=
| NaN : float
| PInf : float
| NInf : float
| Fin (r : R) : float.

Declare Scope float_scope.
Delimit Scope float_scope with float.
Bind Scope float_scope with float.

Definition Rleb (x y : R) : bool := if Rle_dec x y then true else false.
Definition Rltb (x y : R) : bool := if Rlt_dec x y then true else false.
Definition Reqb (x y : R) : bool := if Req_dec_T x y then true else false.

Module F.

(** Comparisons: every comparison with NaN is false. *)
Definition leb (x y : float) : bool :=
  match x, y with
  | NaN, _ | _, NaN => false
  | NInf, _ => true
  | _, PInf => true
  | PInf, _ => false
  | Fin _, NInf => false
  | Fin a, Fin b => Rleb a b
  end.

Definition ltb (x y : float) : bool :=
  match x, y with
  | NaN, _ | _, NaN => false
  | PInf, _ => false
  | _, NInf => false
  | NInf, _ => true
  | Fin _, PInf => true
  | Fin a, Fin b => Rltb a b
  end.

Definition geb (x y : float) : bool := leb y x.
Definition gtb (x y : float) : bool := ltb y x.

Definition eqb (x y : float) : bool :=
  match x, y with
  | PInf, PInf | NInf, NInf => true
  | Fin a, Fin b => Reqb a b
  | _, _ => false
  end.

Definition isnan (x : float) : bool :=
  match x with NaN => true | _ => false end.

Definition isfinite (x : float) : bool :=
  match x with Fin _ => true | _ => false end.

Definition opp (x : float) : float :=
  match x with
  | NaN => NaN
  | PInf => NInf
  | NInf => PInf
  | Fin r => Fin (- r)
  end.

Definition abs (x : float) : float :=
  match x with
  | NaN => NaN
  | PInf | NInf => PInf
  | Fin r => Fin (Rabs r)
  end.

Definition add (x y : float) : float :=
  match x, y with
  | NaN, _ | _, NaN => NaN
  | PInf, NInf | NInf, PInf => NaN
  | PInf, _ | _, PInf => PInf
  | NInf, _ | _, NInf => NInf
  | Fin a, Fin b => Fin (a + b)
  end.

Definition sub (x y : float) : float := add x (opp y).

(** An infinity of sign [pos] times the finite value [r]. *)
Definition inf_times (pos : bool) (r : R) : float :=
  if Rltb 0 r then (if pos then PInf else NInf)
  else if Rltb r 0 then (if pos then NInf else PInf)
  else NaN.

Definition mul (x y : float) : float :=
  match x, y with
  | NaN, _ | _, NaN => NaN
  | PInf, PInf | NInf, NInf => PInf
  | PInf, NInf | NInf, PInf => NInf
  | PInf, Fin r | Fin r, PInf => inf_times true r
  | NInf, Fin r | Fin r, NInf => inf_times false r
  | Fin a, Fin b => Fin (a * b)
  end.

(** IEEE division, as numpy and TensorFlow do it: x/0 is an infinity
    (NaN for 0/0) and nothing is raised. *)
Definition div (x y : float) : float :=
  match x, y with
  | NaN, _ | _, NaN => NaN
  | (PInf | NInf), (PInf | NInf) => NaN
  | PInf, Fin r => if Rltb r 0 then NInf else PInf
  | NInf, Fin r => if Rltb r 0 then PInf else NInf
  | Fin _, (PInf | NInf) => Fin 0
  | Fin a, Fin b =>
      if Reqb b 0
      then (if Rltb 0 a then PInf else if Rltb a 0 then NInf else NaN)
      else Fin (a / b)
  end.

(** [x ** 2] and [tf.square]. *)
Definition square (x : float) : float := mul x x.

(** IEEE square root ([tf.sqrt]): NaN below zero. *)
Definition sqrt (x : float) : float :=
  match x with
  | NaN | NInf => NaN
  | PInf => PInf
  | Fin r => if Rltb r 0 then NaN else Fin (R_sqrt.sqrt r)
  end.

(** [math.atan] and [tf.math.atan]. *)
Definition atan (x : float) : float :=
  match x with
  | NaN => NaN
  | PInf => Fin (PI / 2)
  | NInf => Fin (- (PI / 2))
  | Fin r => Fin (Ratan.atan r)
  end.

(** The smaller and the larger of two values, NaN if either is NaN
    ([np.min], [np.max]). *)
Definition min (x y : float) : float :=
  if isnan x || isnan y then NaN else if leb x y then x else y.

Definition max (x y : float) : float :=
  if isnan x || isnan y then NaN else if leb x y then y else x.

End F.

Infix "+" := F.add : float_scope.
Infix "-" := F.sub : float_scope.
Infix "*" := F.mul : float_scope.
Infix "/" := F.div : float_scope.
Infix "<=?" := F.leb (at level 70) : float_scope.
Infix "<?" := F.ltb (at level 70) : float_scope.
Infix ">=?" := F.geb (at level 70) : float_scope.
Infix ">?" := F.gtb (at level 70) : float_scope.

(** The constant [math.pi]. *)
Definition math_pi : float := Fin PI.

(* ================================================================== *)
(** * Exceptions *)
(* ================================================================== *)

Inductive exn : Type :=
| ZeroDivisionError
| ValueError
| IndexError
| LibraryError.       (* anything raised inside an external library *)

Inductive Exc (A : Type) : Type :=
| Ok (a : A)
| Raise (e : exn).

Arguments Ok {A} a.
Arguments Raise {A} e.

Definition bind {A B : Type} (m : Exc A) (k : A -> Exc B) : Exc B :=
  match m with
  | Ok a => k a
  | Raise e => Raise e
  end.

Notation "x <- m ;; k" := (bind m (fun x => k))
  (at level 61, m at next level, right associativity).

(** [try: body  except: handler] with a bare [except]. *)
Definition try_except {A : Type} (body : Exc A) (handler : A) : A :=
  match body with
  | Ok a => a
  | Raise _ => handler
  end.

(** [xs[i]] on a Python list or a numpy array. *)
Definition index {A : Type} (xs : list A) (i : nat) : Exc A :=
  match nth_error xs i with
  | Some a => Ok a
  | None => Raise IndexError
  end.

(** [[f(x) for x in xs]] where [f] may raise. *)
Fixpoint comp {A B : Type} (f : A -> Exc B) (xs : list A) : Exc (list B) :=
  match xs with
  | [] => Ok []
  | x :: xs' => y <- f x ;; ys <- comp f xs' ;; Ok (y :: ys)
  end.

(** [[f(xs[i], ys[i]) for i in range(len(xs))]]: reading [ys[i]] raises
    when [ys] is the shorter list. *)
Fixpoint comp2 {A B C : Type} (f : A -> B -> Exc C)
         (xs : list A) (ys : list B) : Exc (list C) :=
  match xs with
  | [] => Ok []
  | x :: xs' =>
      match ys with
      | [] => Raise IndexError
      | y :: ys' => z <- f x y ;; zs <- comp2 f xs' ys' ;; Ok (z :: zs)
      end
  end.

(** Python's [/] on two floats raises on a zero divisor. *)
Definition py_div (x y : float) : Exc float :=
  match y with
  | Fin r => if Reqb r 0 then Raise ZeroDivisionError else Ok (x / y)%float
  | _ => Ok (x / y)%float
  end.

(** [math.sqrt]: raises [ValueError] below zero. *)
Definition math_sqrt (x : float) : Exc float :=
  match x with
  | NInf => Raise ValueError
  | Fin r => if Rltb r 0 then Raise ValueError else Ok (F.sqrt x)
  | _ => Ok (F.sqrt x)
  end.

(** [math.sin], [math.cos]: raise [ValueError] at an infinity. *)
Definition math_sin (x : float) : Exc float :=
  match x with
  | NaN => Ok NaN
  | Fin r => Ok (Fin (sin r))
  | _ => Raise ValueError
  end.

Definition math_cos (x : float) : Exc float :=
  match x with
  | NaN => Ok NaN
  | Fin r => Ok (Fin (cos r))
  | _ => Raise ValueError
  end.

(** [np.min], [np.max] of a 1-d array: [ValueError] on an empty one. *)
Definition np_min (xs : list float) : Exc float :=
  match xs with
  | [] => Raise ValueError
  | x :: xs' => Ok (fold_left F.min xs' x)
  end.

Definition np_max (xs : list float) : Exc float :=
  match xs with
  | [] => Raise ValueError
  | x :: xs' => Ok (fold_left F.max xs' x)
  end.

(* ================================================================== *)
(** * gw_utils.py *)
(* ================================================================== *)

(** A date is a numpy [datetime64[ns]]: a 64-bit count of nanoseconds
    since 1970-01-01.  The smallest 64-bit value is "not a time" (NaT). *)
Definition datetime64 : Type := Z.

(** The value of a 64-bit two's complement integer: arithmetic on dates
    and time spans wraps around silently. *)
Definition int64 (z : Z) : Z := ((z + 2 ^ 63) mod 2 ^ 64 - 2 ^ 63)%Z.

Definition NaT : Z := (- 2 ^ 63)%Z.

(** [np.timedelta64(1, 'D')], in nanoseconds. *)
Definition one_day : Z := 86400000000000%Z.

(** [np.datetime64("1980-10-01")]: day 3926 after 1970-01-01. *)
Definition ref_date : datetime64 := (3926 * one_day)%Z.

(** [date - np.datetime64(ref_date)] for one date: NaT stays NaT, and a
    difference outside the 64-bit range wraps around. *)
Definition date_minus_ref (d : datetime64) : Z :=
  if (int64 d =? NaT)%Z then NaT else int64 (d - ref_date).

(** [delta / np.timedelta64(1, 'D')] for one time span: NaN for NaT. *)
Definition in_days (delta : Z) : float :=
  if (delta =? NaT)%Z then NaN
  else (Fin (IZR delta) / Fin (IZR one_day))%float.

(** [make_decimal_date]:
    [[float(x)/365 for x in ((date-np.datetime64(ref_date))/np.timedelta64(1, 'D'))]].
    Both divisors are non-zero constants. *)
Definition make_decimal_date (date : list datetime64) : list float :=
  map (fun d => (in_days (date_minus_ref d) / Fin 365)%float) date.

(** What [sm.OLS(...).fit()] hands back, as far as [amp_phi] reads it:
    [results.params] and the rows [[low, high]] of [results.conf_int()]. *)
Record OLSResults : Type := mkOLSResults
  { params : list float;
    conf_int : list (list float) }.

(** The six values [amp_phi] returns. *)
Record HarmonicFit : Type := mkHarmonicFit
  { amp : float;
    phi : float;
    amp_low : float;
    amp_high : float;
    phi_low : float;
    phi_high : float }.

(** All six fields [np.nan]. *)
Definition all_nan : HarmonicFit := mkHarmonicFit NaN NaN NaN NaN NaN NaN.

(** Column [j] of a 2-d array given by its rows. *)
Definition column (j : nat) (X : list (list float)) : list float :=
  map (fun row => nth j row NaN) X.

(** One entry of [is_nonzero_const] in [sm.add_constant]:
    [np.ptp(col) == 0] and [np.all(col != 0.0)] for a column. *)
Definition is_nonzero_const (col : list float) : Exc bool :=
  hi <- np_max col ;;
  lo <- np_min col ;;
  Ok (F.eqb (hi - lo)%float (Fin 0)
      && forallb (fun v => negb (F.eqb v (Fin 0))) col).

(** [sm.add_constant(x)] on a list of rows, with the default
    [has_constant='skip']: [np.ptp] raises [ValueError] when there is no
    row; when some column is a non-zero constant the array is returned as
    it is; otherwise it gets a leading column of ones. *)
Definition add_constant (x : list (list float)) : Exc (list (list float)) :=
  match x with
  | [] => Raise ValueError
  | row :: _ =>
      flags <- comp (fun j => is_nonzero_const (column j x))
                    (seq 0 (length row)) ;;
      if existsb (fun b => b) flags then Ok x
      else Ok (map (fun r => Fin 1 :: r) x)
  end.

(** [3*math.pi/2]. *)
Definition three_pi_half : float := Fin (3 * PI / 2).

(** [2*math.pi]. *)
Definition two_pi : float := Fin (2 * PI).

(** [3*math.pi/2 - math.atan(b/a)], the quotient being a numpy one. *)
Definition phase_of (a b : float) : float :=
  (three_pi_half - F.atan (b / a))%float.

(** [x if x >=1 and x<=45 else np.nan]. *)
Definition water_band (x : float) : float :=
  if (x >=? Fin 1)%float && (x <=? Fin 45)%float then x else NaN.

Section Estimator.

(** [sm.OLS(temp, X, missing='drop').fit()] of statsmodels: the fitted
    results, or an exception. *)
Variable OLS_fit : list float -> list (list float) -> Exc OLSResults.

(** The body of the [try:] block of [amp_phi]. *)
Definition amp_phi_try (temp : list float) (X : list (list float))
  : Exc HarmonicFit :=
  results <- OLS_fit temp X ;;
  let confInt := conf_int results in
  p1 <- index (params results) 1 ;;
  p2 <- index (params results) 2 ;;
  amp <- math_sqrt (F.square p1 + F.square p2)%float ;;
  ci1 <- index confInt 1 ;;
  ci2 <- index confInt 2 ;;
  lo1 <- np_min (map F.abs ci1) ;;
  lo2 <- np_min (map F.abs ci2) ;;
  amp_low <- math_sqrt (F.square lo1 + F.square lo2)%float ;;
  hi1 <- np_max (map F.abs ci1) ;;
  hi2 <- np_max (map F.abs ci2) ;;
  amp_high <- math_sqrt (F.square hi1 + F.square hi2)%float ;;
  let phi := phase_of p1 p2 in
  phiRange <- comp (fun x =>
                comp (fun y =>
                  c2 <- index ci2 x ;;
                  c1 <- index ci1 y ;;
                  Ok (phase_of c1 c2)) [0%nat; 1%nat]) [0%nat; 1%nat] ;;
  phi_low <- np_min (concat phiRange) ;;
  phi_high <- np_max (concat phiRange) ;;
  Ok (mkHarmonicFit amp phi amp_low amp_high phi_low phi_high).

(** [amp_phi(Date, temp, isWater)]. *)
Definition amp_phi (Date : list datetime64) (temp : list float)
           (isWater : bool) : Exc HarmonicFit :=
  let date_decimal := make_decimal_date Date in
  let temp := if isWater then map water_band temp else temp in
  x <- comp (fun j =>
         s <- math_sin (two_pi * j)%float ;;
         c <- math_cos (two_pi * j)%float ;;
         Ok [s; c]) date_decimal ;;
  X <- add_constant x ;;
  Ok (try_except (amp_phi_try temp X) all_nan).

(** [np.sum(np.isfinite(...))]. *)
Definition count_finite (xs : list float) : nat :=
  length (filter F.isfinite xs).

(** [waterDF] after the 1-60 degree filter and [dropna]: the rows that
    are kept.  [dropna] also drops a row whose date is NaT. *)
Definition waterDF_rows (date : list datetime64) (tave_water : list float)
  : list (datetime64 * float) :=
  filter (fun row =>
            negb ((snd row <? Fin 1)%float || (snd row >? Fin 60)%float)
            && negb (F.isnan (snd row))
            && negb (int64 (fst row) =? NaT)%Z)
         (combine date tave_water).

(** The observed-water part of the loop body of [annual_temp_stats] (the
    "ensure sufficient data" block).  [pd.DataFrame({'date': ...,
    'tave_water': ...})] wants columns of one length. *)
Definition water_obs_fit (date : list datetime64) (tave_water : list float)
  : Exc HarmonicFit :=
  if (365 <? count_finite tave_water)%nat then
    if negb (length date =? length tave_water)%nat then Raise ValueError
    else
      let waterDF := waterDF_rows date tave_water in
      if (length waterDF <? 365)%nat then Ok all_nan
      else
        if (365 <=? length waterDF)%nat
        then amp_phi (map fst waterDF) (map snd waterDF) true
        else Ok all_nan
  else Ok all_nan.

End Estimator.

(** The [xr] dataset [thisData]: segment ids, dates, and per variable one
    series per segment ([thisData[col][:, i].values] is [index col i]). *)
Record Dataset : Type := mkDataset
  { seg_id_nat : list Z;
    date : list datetime64;
    seg_tave_air : list (list float);
    seg_tave_water_pbm : list (list float);
    seg_tave_water : list (list float) }.

(** The data frame [tempDF] that [annual_temp_stats] returns, by column. *)
Record SignalTable : Type := mkSignalTable
  { t_seg_id_nat : list Z;
    t_air_amp : list float;
    t_air_phi : list float;
    t_water_amp_obs : list float;
    t_water_phi_obs : list float;
    t_Ar_obs : list float;
    t_delPhi_obs : list float;
    t_Ar_low_obs : list float;
    t_Ar_high_obs : list float;
    t_delPhi_low_obs : list float;
    t_delPhi_high_obs : list float;
    t_water_amp_pbm : list float;
    t_water_phi_pbm : list float;
    t_Ar_pbm : list float;
    t_delPhi_pbm : list float }.

(** [(w - a)*365/(2*math.pi)]; the divisor is the constant [2*math.pi]. *)
Definition phase_shift_days (w a : float) : float :=
  (((w - a) * Fin 365) / two_pi)%float.

(** "remove Ar > 1.1" *)
Definition keep_if_Ar_le (Ar x : float) : float :=
  if (Ar <=? Fin 1.1)%float then x else NaN.

(** "remove delPhi < -10" *)
Definition keep_if_delPhi_ge (delPhi x : float) : float :=
  if (delPhi >=? Fin (-10))%float then x else NaN.

(** "reset delPhi -10 to 0" *)
Definition reset_delPhi (x : float) : float :=
  if (x >? Fin 0)%float then x
  else if F.isfinite x then Fin 0 else NaN.

Definition remove_Ar_gt (Ar_obs delPhi_obs : list float)
  : Exc (list float * list float) :=
  delPhi_obs' <- comp2 (fun d a => Ok (keep_if_Ar_le a d)) delPhi_obs Ar_obs ;;
  let Ar_obs' := map (fun x => keep_if_Ar_le x x) Ar_obs in
  Ok (Ar_obs', delPhi_obs').

Definition remove_delPhi_lt (Ar_obs delPhi_obs : list float)
  : Exc (list float * list float) :=
  Ar_obs' <- comp2 (fun a d => Ok (keep_if_delPhi_ge d a)) Ar_obs delPhi_obs ;;
  let delPhi_obs' := map (fun x => keep_if_delPhi_ge x x) delPhi_obs in
  Ok (Ar_obs', delPhi_obs').

Definition reset_delPhi_all (Ar_obs delPhi_obs : list float)
  : list float * list float :=
  (Ar_obs, map reset_delPhi delPhi_obs).

(** The threshold block of [annual_temp_stats], from "remove Ar >1.1" to
    "reset delPhi -10 to 0". *)
Definition plausibility_filter (Ar_obs delPhi_obs : list float)
  : Exc (list float * list float) :=
  s1 <- remove_Ar_gt Ar_obs delPhi_obs ;;
  s2 <- remove_delPhi_lt (fst s1) (snd s1) ;;
  Ok (reset_delPhi_all (fst s2) (snd s2)).

Section Builder.

Variable OLS_fit : list float -> list (list float) -> Exc OLSResults.

(** One turn of the loop over the segments: the air fit, the fit of the
    process-based model and the fit of the observations. *)
Definition segment_fits (thisData : Dataset) (i : nat)
  : Exc (HarmonicFit * HarmonicFit * HarmonicFit) :=
  air_i <- index (seg_tave_air thisData) i ;;
  air <- amp_phi OLS_fit (date thisData) air_i false ;;
  pbm_i <- index (seg_tave_water_pbm thisData) i ;;
  pbm <- amp_phi OLS_fit (date thisData) pbm_i true ;;
  obs_i <- index (seg_tave_water thisData) i ;;
  obs <- water_obs_fit OLS_fit (date thisData) obs_i ;;
  Ok (air, pbm, obs).

(** [annual_temp_stats(thisData)]. *)
Definition annual_temp_stats (thisData : Dataset) : Exc SignalTable :=
  fits <- comp (segment_fits thisData)
               (seq 0 (length (seg_id_nat thisData))) ;;
  let air := map (fun f => fst (fst f)) fits in
  let pbm := map (fun f => snd (fst f)) fits in
  let obs := map snd fits in
  let air_amp := map amp air in
  let air_amp_low := map amp_low air in
  let air_amp_high := map amp_high air in
  let air_phi := map phi air in
  let air_phi_low := map phi_low air in
  let air_phi_high := map phi_high air in
  let water_amp_obs := map amp obs in
  let water_amp_low_obs := map amp_low obs in
  let water_amp_high_obs := map amp_high obs in
  let water_phi_obs := map phi obs in
  let water_phi_low_obs := map phi_low obs in
  let water_phi_high_obs := map phi_high obs in
  let water_amp_pbm := map amp pbm in
  let water_phi_pbm := map phi pbm in
  let shift := fun w a => Ok (phase_shift_days w a) in
  Ar_obs <- comp2 py_div water_amp_obs air_amp ;;
  delPhi_obs <- comp2 shift water_phi_obs air_phi ;;
  Ar_low_obs <- comp2 py_div water_amp_low_obs air_amp_high ;;
  Ar_high_obs <- comp2 py_div water_amp_high_obs air_amp_low ;;
  delPhi_low_obs <- comp2 shift water_phi_low_obs air_phi_high ;;
  delPhi_high_obs <- comp2 shift water_phi_high_obs air_phi_low ;;
  filtered <- plausibility_filter Ar_obs delPhi_obs ;;
  Ar_pbm <- comp2 py_div water_amp_pbm air_amp ;;
  delPhi_pbm <- comp2 shift water_phi_pbm air_phi ;;
  Ok (mkSignalTable (seg_id_nat thisData) air_amp air_phi
        water_amp_obs water_phi_obs (fst filtered) (snd filtered)
        Ar_low_obs Ar_high_obs delPhi_low_obs delPhi_high_obs
        water_amp_pbm water_phi_pbm Ar_pbm delPhi_pbm).

End Builder.

(* ================================================================== *)
(** * loss_functions.py *)
(* ================================================================== *)

(** The entries of a tensor, in row-major order.  The reductions below
    ([count_nonzero], [reduce_sum]) run over all entries, whatever the
    shape; element-wise operations pair entries of tensors of one shape. *)
Definition tensor : Type := list float.

Definition tf_is_nan (y : tensor) : list bool := map F.isnan y.

Definition tf_count_nonzero (b : list bool) : nat :=
  length (filter (fun x => x) b).

(** [tf.cast(n, tf.float32)] of a count. *)
Definition tf_cast (n : nat) : float := Fin (INR n).

Definition tf_zeros_like (y : tensor) : tensor := map (fun _ => Fin 0) y.

Fixpoint tf_where (c : list bool) (x y : tensor) : tensor :=
  match c, x, y with
  | b :: c', u :: x', v :: y' => (if b then u else v) :: tf_where c' x' y'
  | _, _, _ => []
  end.

Fixpoint tf_sub (x y : tensor) : tensor :=
  match x, y with
  | u :: x', v :: y' => (u - v)%float :: tf_sub x' y'
  | _, _ => []
  end.

(** [y - mean] with a scalar [mean]. *)
Definition tf_sub_scalar (y : tensor) (m : float) : tensor :=
  map (fun u => (u - m)%float) y.

Definition tf_square (y : tensor) : tensor := map F.square y.

Definition tf_reduce_sum (y : tensor) : float :=
  fold_right F.add (Fin 0) y.

(** [rmse(y_true, y_pred)]. *)
Definition rmse (y_true y_pred : tensor) : float :=
  let num_y_true := tf_cast (tf_count_nonzero (map negb (tf_is_nan y_true))) in
  if (num_y_true >? Fin 0)%float then
    let zero_or_error :=
      tf_where (tf_is_nan y_true) (tf_zeros_like y_true) (tf_sub y_pred y_true) in
    let sum_squared_errors := tf_reduce_sum (tf_square zero_or_error) in
    F.sqrt (sum_squared_errors / num_y_true)
  else Fin 0.

(** [mean_masked(y)]. *)
Definition mean_masked (y : tensor) : float :=
  let num_vals := tf_cast (tf_count_nonzero (map negb (tf_is_nan y))) in
  let zero_or_val := tf_where (tf_is_nan y) (tf_zeros_like y) y in
  (tf_reduce_sum zero_or_val / num_vals)%float.

(** [dev_masked(y)]. *)
Definition dev_masked (y : tensor) : tensor :=
  let mean := mean_masked y in
  tf_where (tf_is_nan y) (tf_zeros_like y) (tf_sub_scalar y mean).

(** [std_masked(y)]. *)
Definition std_masked (y : tensor) : float :=
  let dev := dev_masked y in
  let num_vals := tf_cast (tf_count_nonzero (map negb (tf_is_nan y))) in
  let numerator := tf_reduce_sum (tf_square dev) in
  let denominator := (num_vals - Fin 1)%float in
  F.sqrt (numerator / denominator).

(** A tensor of rank 3, [segments][timesteps][channels]. *)
Definition tensor3 : Type := list (list (list float)).

(** Python slices of the last axis: [[-2:]], [[:2]], [[2:-2]], [[i:i+1]]. *)
Definition last2 {A : Type} (l : list A) : list A := skipn (length l - 2) l.
Definition first2 {A : Type} (l : list A) : list A := firstn 2 l.
Definition from2_to_m2 {A : Type} (l : list A) : list A :=
  skipn 2 (firstn (length l - 2) l).
Definition one_at {A : Type} (i : nat) (l : list A) : list A :=
  firstn 1 (skipn i l).

(** [t[:, :, i]], flattened; an index out of range is an error. *)
Definition channel (t : tensor3) (i : nat) : Exc tensor :=
  rows <- comp (fun seg => comp (fun step => index step i) seg) t ;;
  Ok (concat rows).

(** [y_data_components(data, y_pred, var_idx)]. *)
Definition y_data_components (data y_pred : tensor3) (var_idx : nat)
  : Exc (tensor * tensor * tensor) :=
  let weights := map (map last2) data in
  let y_true := map (map first2) data in
  let y_true :=
    map (fun seg =>
           map (fun step =>
                  tf_where (map (fun w => F.eqb w (Fin 0)) (fst step))
                           (map (fun _ => NaN) (snd step)) (snd step))
               (combine (fst seg) (snd seg)))
        (combine weights y_true) in
  weights <- channel weights var_idx ;;
  y_true <- channel y_true var_idx ;;
  y_pred <- channel y_pred var_idx ;;
  Ok (y_true, y_pred, weights).

(** [rmse_masked_one_var(data, y_pred, var_idx)]. *)
Definition rmse_masked_one_var (data y_pred : tensor3) (var_idx : nat)
  : Exc float :=
  c <- y_data_components data y_pred var_idx ;;
  Ok (rmse (fst (fst c)) (snd (fst c))).

(** A matrix: a shape and its entries. *)
Record matrix : Type := mkMatrix
  { nrows : nat;
    ncols : nat;
    entry : nat -> nat -> float }.

(** The sum of [f 0], ..., [f (n-1)]. *)
Fixpoint fsum (n : nat) (f : nat -> float) : float :=
  match n with
  | O => Fin 0
  | S k => (fsum k f + f k)%float
  end.

(** The matrix whose rows are the given lists, [nc] entries each. *)
Definition of_rows (rows : list (list float)) (nc : nat) : matrix :=
  mkMatrix (length rows) nc (fun i j => nth j (nth i rows []) NaN).

(** [tf.transpose(M, perm=(0,2,1))] on one element of the batch. *)
Definition transpose (M : matrix) : matrix :=
  mkMatrix (ncols M) (nrows M) (fun i j => entry M j i).

(** [tf.einsum('bij,bjk->bik', A, B)] on one element of the batch. *)
Definition einsum_ij_jk (A B : matrix) : matrix :=
  mkMatrix (nrows A) (ncols B)
           (fun i k => fsum (ncols A) (fun j => (entry A i j * entry B j k)%float)).

(** [tf.einsum('bij,bik->bjk', A, B)] on one element of the batch. *)
Definition einsum_ij_ik (A B : matrix) : matrix :=
  mkMatrix (ncols A) (ncols B)
           (fun j k => fsum (nrows A) (fun i => (entry A i j * entry B i k)%float)).

(** [M[i, j]]. *)
Definition mindex (M : matrix) (i j : nat) : Exc float :=
  if (i <? nrows M)%nat && (j <? ncols M)%nat
  then Ok (entry M i j) else Raise IndexError.

(** What [GW_loss_prep] computes for one segment of the batch. *)
Record GWSegment : Type := mkGWSegment
  { g_Ar_obs : float;
    g_Ar_pred : float;
    g_delPhi_obs : float;
    g_delPhi_pred : float;
    g_Aw : float;
    g_Phiw : float }.

(** [X_mat]: [tf.stack] of a tensor of ones of the shape of [sin(wt)],
    of [sin(wt)] and of [cos(wt)], on one element of the batch. *)
Definition design_matrix (sin_wt cos_wt : list float) : matrix :=
  of_rows [repeat (Fin 1) (length sin_wt); sin_wt; cos_wt] (length sin_wt).

Section Loss.

(** [tf.linalg.pinv] on one element of the batch. *)
Variable pinv : matrix -> matrix.

Variable temp_index : nat.
Variables temp_mean temp_sd : float.

(** The coefficients [a_b] of one segment: its features [y_true]
    ([timesteps][features]) and its unscaled predictions [y_pred_temp]
    ([timesteps][1]). *)
Definition regression_coeffs (y_true y_pred_temp : list (list float))
  : Exc matrix :=
  let x_lm := map last2 y_true in
  sin_wt <- comp (fun step => index step 0) x_lm ;;
  cos_wt <- comp (fun step => index step 1) x_lm ;;
  let X_mat := design_matrix sin_wt cos_wt in
  let X_mat_T := transpose X_mat in
  let X_mat_T_dot := einsum_ij_jk X_mat_T X_mat in
  let X_mat_inv := pinv X_mat_T_dot in
  let X_mat_inv_dot := einsum_ij_jk X_mat_inv X_mat_T in
  Ok (einsum_ij_ik X_mat_inv_dot
        (of_rows y_pred_temp (length (hd [] y_pred_temp)))).

(** [GW_loss_prep] on one segment: [seg_data] is [data[b]], [seg_pred]
    is [y_pred[b]]. *)
Definition GW_loss_prep_segment (seg_data seg_pred : list (list float))
  : Exc GWSegment :=
  let y_true := map from2_to_m2 seg_data in
  let y_pred_temp := map (one_at temp_index) seg_pred in
  let y_pred_temp :=
    map (map (fun v => (v * temp_sd + temp_mean)%float)) y_pred_temp in
  a_b <- regression_coeffs y_true y_pred_temp ;;
  a <- mindex a_b 1 0 ;;
  b <- mindex a_b 2 0 ;;
  let Aw := F.sqrt (F.square a + F.square b)%float in
  let Phiw := (three_pi_half - F.atan (b / a))%float in
  first <- index y_true 0 ;;
  air_phi <- index first 2 ;;
  let delPhi_pred := (((Phiw - air_phi) * Fin 365) / two_pi)%float in
  air_amp <- index first 3 ;;
  let Ar_pred := (Aw / air_amp)%float in
  Ar_obs <- index first 0 ;;
  delPhi_obs <- index first 1 ;;
  Ok (mkGWSegment Ar_obs Ar_pred delPhi_obs delPhi_pred Aw Phiw).

(** [GW_loss_prep(temp_index, data, y_pred, temp_mean, temp_sd)]:
    [(Ar_obs, Ar_pred, delPhi_obs, delPhi_pred)], one entry per segment. *)
Definition GW_loss_prep (data y_pred : tensor3)
  : Exc (tensor * tensor * tensor * tensor) :=
  segs <- comp2 GW_loss_prep_segment data y_pred ;;
  Ok (map g_Ar_obs segs, map g_Ar_pred segs,
      map g_delPhi_obs segs, map g_delPhi_pred segs).

Variables lamb lamb2 lamb3 : float.

(** [weighted_masked_rmse_gw(temp_index, temp_mean, temp_sd, lamb, lamb2,
    lamb3)(data, y_pred)], that is [rmse_masked_combined_gw]. *)
Definition rmse_masked_combined_gw (data y_pred : tensor3) : Exc float :=
  rmse_main <- rmse_masked_one_var data y_pred 0 ;;
  rmse_aux <- rmse_masked_one_var data y_pred 1 ;;
  gw <- GW_loss_prep data y_pred ;;
  let '(Ar_obs, Ar_pred, delPhi_obs, delPhi_pred) := gw in
  let rmse_Ar := rmse Ar_obs Ar_pred in
  let rmse_delPhi := rmse delPhi_obs delPhi_pred in
  Ok (rmse_main + lamb * rmse_aux + lamb2 * rmse_Ar + lamb3 * rmse_delPhi)%float.

End Loss.

(* ================================================================== *)
(** * Per-segment reading of the threshold block *)
(* ================================================================== *)

(** What the three steps of the threshold block do to the pair
    [(Ar_obs[i], delPhi_obs[i])] of one segment. *)
Definition rule_i (p : float * float) : float * float :=
  (keep_if_Ar_le (fst p) (fst p), keep_if_Ar_le (fst p) (snd p)).

Definition rule_ii (p : float * float) : float * float :=
  (keep_if_delPhi_ge (snd p) (fst p), keep_if_delPhi_ge (snd p) (snd p)).

Definition rule_iii (p : float * float) : float * float :=
  (fst p, reset_delPhi (snd p)).

Definition filter_segment (p : float * float) : float * float :=
  rule_iii (rule_ii (rule_i p)).

Definition unzip {A B : Type} (l : list (A * B)) : list A * list B :=
  (map fst l, map snd l).



(* ================================================================== *)
(** * Closed forms used in the statements *)
(* ================================================================== *)

(** A date without a decimal date: NaT, or a date whose distance to the
    reference date is NaT in 64 bits. *)
Definition missing_date (d : datetime64) : bool :=
  (int64 d =? NaT)%Z || (int64 (d - ref_date) =? NaT)%Z.

(** The decimal date of [d], as a real number. *)
Definition decimal_year (d : datetime64) : R :=
  IZR (int64 (d - ref_date)) / IZR one_day / 365.

(** The sine and cosine feature of the date [d]. *)
Definition feature_row (d : datetime64) : list float :=
  if missing_date d then [NaN; NaN]
  else [Fin (sin (2 * PI * decimal_year d)); Fin (cos (2 * PI * decimal_year d))].

(** The row of the design matrix [X] for the date [d], when
    [sm.add_constant] adds its column. *)
Definition design_row (d : datetime64) : list float :=
  if missing_date d then [Fin 1; NaN; NaN]
  else [Fin 1; Fin (sin (2 * PI * decimal_year d));
        Fin (cos (2 * PI * decimal_year d))].

(** The matrix [X] that [amp_phi] hands to the regression. *)
Definition design (Date : list datetime64) : Exc (list (list float)) :=
  add_constant (map feature_row Date).

(** A column that is a non-zero constant, and an array with such a
    column (which [sm.add_constant] returns as it is). *)
Definition nonzero_constant (col : list float) : bool :=
  match col with
  | [] => false
  | v :: col' =>
      F.eqb (fold_left F.max col' v - fold_left F.min col' v)%float (Fin 0)
      && forallb (fun u => negb (F.eqb u (Fin 0))) col
  end.

Definition has_constant (x : list (list float)) : bool :=
  existsb (fun j => nonzero_constant (column j x)) (seq 0 (length (hd [] x))).

(** The input of the regression in [amp_phi]. *)
Definition ols_input (temp : list float) (isWater : bool) : list float :=
  if isWater then map water_band temp else temp.







(** The three fits of one segment: air, process-based model, observed. *)
Definition air_fit (f : HarmonicFit * HarmonicFit * HarmonicFit) : HarmonicFit :=
  fst (fst f).
Definition pbm_fit (f : HarmonicFit * HarmonicFit * HarmonicFit) : HarmonicFit :=
  snd (fst f).
Definition obs_fit (f : HarmonicFit * HarmonicFit * HarmonicFit) : HarmonicFit :=
  snd f.

(** The phase shift of the observations of one segment before the
    threshold block. *)
Definition raw_delPhi_obs (f : HarmonicFit * HarmonicFit * HarmonicFit) : float :=
  phase_shift_days (phi (obs_fit f)) (phi (air_fit f)).

(* ================================================================== *)
(** * Sample inputs *)
(* ================================================================== *)

(** [n] daily dates from 1980-10-01 on. *)
Definition daily_dates (n : nat) : list datetime64 :=
  map (fun k => (ref_date + Z.of_nat k * one_day)%Z) (seq 0 n).

(** A regression that fits [10 + 3 sin + 4 cos] exactly, with confidence
    intervals of width zero. *)
Definition exact_fit : OLSResults :=
  mkOLSResults [Fin 10; Fin 3; Fin 4]
               [[Fin 10; Fin 10]; [Fin 3; Fin 3]; [Fin 4; Fin 4]].

Definition ols_exact (temp : list float) (X : list (list float)) : Exc OLSResults :=
  Ok exact_fit.

(** A regression that always fails. *)
Definition ols_fails (temp : list float) (X : list (list float)) : Exc OLSResults :=
  Raise LibraryError.

(** The fit of a series that is zero throughout: every coefficient and
    every confidence bound is zero. *)
Definition zero_fit : OLSResults :=
  mkOLSResults [Fin 0; Fin 0; Fin 0]
               [[Fin 0; Fin 0]; [Fin 0; Fin 0]; [Fin 0; Fin 0]].

(** One segment with [n] days of constant air, modelled and observed
    water temperature. *)
Definition one_segment (n : nat) (air pbm obs : float) : Dataset :=
  mkDataset [1%Z] (daily_dates n) [repeat air n] [repeat pbm n] [repeat obs n].

(** No date of the list is NaT. *)
Definition dates_known (date : list datetime64) : bool :=
  forallb (fun d => negb (int64 d =? NaT)%Z) date.

(** The number of observed values that are neither NaN nor outside
    1-60 degrees. *)
Definition count_plausible (tave_water : list float) : nat :=
  length (filter (fun x => negb ((x <? Fin 1)%float || (x >? Fin 60)%float)
                           && negb (F.isnan x)) tave_water).

(** The fit that [amp_phi] derives from [exact_fit], and the table of
    [one_segment 366 (Fin 12) (Fin 10) (Fin 10)] under [ols_exact]. *)
Definition exact_phase : R := 3 * PI / 2 - atan (4 / 3).

Definition exact_harmonic : HarmonicFit :=
  mkHarmonicFit (Fin 5) (Fin exact_phase) (Fin 5) (Fin 5)
                (Fin exact_phase) (Fin exact_phase).

Definition exact_table : SignalTable :=
  mkSignalTable [1%Z] [Fin 5] [Fin exact_phase] [Fin 5] [Fin exact_phase]
                [Fin 1] [Fin 0] [Fin 1] [Fin 1] [Fin 0] [Fin 0]
                [Fin 5] [Fin exact_phase] [Fin 1] [Fin 0].


(* ================================================================== *)
(** * The table in closed form *)
(* ================================================================== *)

(** The amplitude ratio of the observations of one segment before the
    threshold block (with the IEEE quotient). *)
Definition raw_Ar_obs (f : HarmonicFit * HarmonicFit * HarmonicFit) : float :=
  (amp (obs_fit f) / amp (air_fit f))%float.

(** The table as a function of the fits of the segments, valid when no
    division raises. *)
Definition table_of_fits (ids : list Z)
           (fits : list (HarmonicFit * HarmonicFit * HarmonicFit)) : SignalTable :=
  mkSignalTable ids
    (map (fun f => amp (air_fit f)) fits)
    (map (fun f => phi (air_fit f)) fits)
    (map (fun f => amp (obs_fit f)) fits)
    (map (fun f => phi (obs_fit f)) fits)
    (map (fun f => fst (filter_segment (raw_Ar_obs f, raw_delPhi_obs f))) fits)
    (map (fun f => snd (filter_segment (raw_Ar_obs f, raw_delPhi_obs f))) fits)
    (map (fun f => (amp_low (obs_fit f) / amp_high (air_fit f))%float) fits)
    (map (fun f => (amp_high (obs_fit f) / amp_low (air_fit f))%float) fits)
    (map (fun f => phase_shift_days (phi_low (obs_fit f)) (phi_high (air_fit f))) fits)
    (map (fun f => phase_shift_days (phi_high (obs_fit f)) (phi_low (air_fit f))) fits)
    (map (fun f => amp (pbm_fit f)) fits)
    (map (fun f => phi (pbm_fit f)) fits)
    (map (fun f => (amp (pbm_fit f) / amp (air_fit f))%float) fits)
    (map (fun f => phase_shift_days (phi (pbm_fit f)) (phi (air_fit f))) fits).

(** A dataset with one series per segment and variable, the observed
    series as long as the list of dates. *)
Definition well_formed (D : Dataset) : Prop :=
  length (seg_tave_air D) = length (seg_id_nat D)
  /\ length (seg_tave_water_pbm D) = length (seg_id_nat D)
  /\ length (seg_tave_water D) = length (seg_id_nat D)
  /\ Forall (fun s => length (date D) = length s) (seg_tave_water D).

(** No air fit has a zero amplitude or a zero amplitude bound. *)
Definition nonzero_amplitudes (f : HarmonicFit) : Prop :=
  amp f <> Fin 0 /\ amp_low f <> Fin 0 /\ amp_high f <> Fin 0.

Definition nonzero_air_amplitudes
           (OLS_fit : list float -> list (list float) -> Exc OLSResults)
           (D : Dataset) : Prop :=
  forall air_i f,
    In air_i (seg_tave_air D) ->
    amp_phi OLS_fit (date D) air_i false = Ok f ->
    nonzero_amplitudes f.

(** The fit of a series without a finite value fails; the fit of any
    other series is [zero_fit] (as it is for a series of zeros). *)
Definition ols_zero_or_fail (temp : list float) (X : list (list float))
  : Exc OLSResults :=
  if existsb F.isfinite temp then Ok zero_fit else Raise LibraryError.

(** The fit that [amp_phi] derives from [zero_fit]. *)
Definition zero_harmonic : HarmonicFit :=
  mkHarmonicFit (Fin 0) NaN (Fin 0) (Fin 0) NaN NaN.

(** Every derived field of the observations is NaN at row [i]. *)
Definition obs_fields_nan (T : SignalTable) (i : nat) : Prop :=
  nth_error (t_Ar_obs T) i = Some NaN
  /\ nth_error (t_delPhi_obs T) i = Some NaN
  /\ nth_error (t_Ar_low_obs T) i = Some NaN
  /\ nth_error (t_Ar_high_obs T) i = Some NaN
  /\ nth_error (t_delPhi_low_obs T) i = Some NaN
  /\ nth_error (t_delPhi_high_obs T) i = Some NaN.

(** Every derived field of the process-based model is NaN at row [i]. *)
Definition pbm_fields_nan (T : SignalTable) (i : nat) : Prop :=
  nth_error (t_Ar_pbm T) i = Some NaN
  /\ nth_error (t_delPhi_pbm T) i = Some NaN.

(* ================================================================== *)
(** * Statistics over the non-missing entries *)
(* ================================================================== *)

(** The pairs (true value, prediction) at the positions where the true
    value is not NaN. *)
Definition valid_pairs (y_true y_pred : tensor) : list (float * float) :=
  filter (fun p => negb (F.isnan (fst p))) (combine y_true y_pred).

(** The root of the mean of the squared differences of a list of pairs. *)
Definition rms_error (ps : list (float * float)) : float :=
  F.sqrt (tf_reduce_sum (map (fun p => F.square (snd p - fst p)%float) ps)
          / Fin (INR (length ps)))%float.

(** The entries that are not NaN. *)
Definition non_missing (y : tensor) : tensor :=
  filter (fun x => negb (F.isnan x)) y.

(** The ordinary mean. *)
Definition mean (xs : tensor) : float :=
  (tf_reduce_sum xs / Fin (INR (length xs)))%float.

(** The ordinary sample standard deviation, with [n - 1] below. *)
Definition sample_std (xs : tensor) : float :=
  F.sqrt (tf_reduce_sum (map (fun x => F.square (x - mean xs)%float) xs)
          / (Fin (INR (length xs)) - Fin 1))%float.

(* ================================================================== *)
(** * Least squares *)
(* ================================================================== *)

(** A row of the regression that is kept: the sine and cosine feature and
    the temperature. *)
Definition point : Type := (R * R * R)%type.
Definition p_sin (p : point) : R := fst (fst p).
Definition p_cos (p : point) : R := snd (fst p).
Definition p_temp (p : point) : R := snd p.

(** The rows that enter the regression of [amp_phi]: [missing='drop']
    leaves out the dates without a temperature and the dates without a
    decimal date. *)
Fixpoint kept_points (Date : list datetime64) (temp : list float) : list point :=
  match Date, temp with
  | d :: Date', t :: temp' =>
      match t with
      | Fin v =>
          if missing_date d then kept_points Date' temp'
          else (sin (2 * PI * decimal_year d), cos (2 * PI * decimal_year d), v)
                 :: kept_points Date' temp'
      | _ => kept_points Date' temp'
      end
  | _, _ => []
  end.

Definition sum_over (pts : list point) (g : point -> R) : R :=
  fold_right (fun p acc => g p + acc) 0 pts.

(** The residual of the model [c + a sin + b cos] at a point. *)
Definition residual (c a b : R) (p : point) : R :=
  c + a * p_sin p + b * p_cos p - p_temp p.

(** The normal equations of the least-squares problem: the residuals are
    orthogonal to the three columns of the design matrix. *)
Definition normal_equations (pts : list point) (c a b : R) : Prop :=
  sum_over pts (residual c a b) = 0
  /\ sum_over pts (fun p => p_sin p * residual c a b p) = 0
  /\ sum_over pts (fun p => p_cos p * residual c a b p) = 0.

Definition det3 (g00 g01 g02 g10 g11 g12 g20 g21 g22 : R) : R :=
  g00 * (g11 * g22 - g12 * g21)
  - g01 * (g10 * g22 - g12 * g20)
  + g02 * (g10 * g21 - g11 * g20).

(** The determinant of the Gram matrix of the design: non-zero exactly
    when the columns [1], [sin], [cos] are linearly independent on the
    points. *)
Definition gram_det (pts : list point) : R :=
  let S1 := sum_over pts (fun _ => 1) in
  let Ss := sum_over pts p_sin in
  let Sc := sum_over pts p_cos in
  let Sss := sum_over pts (fun p => p_sin p * p_sin p) in
  let Ssc := sum_over pts (fun p => p_sin p * p_cos p) in
  let Scc := sum_over pts (fun p => p_cos p * p_cos p) in
  det3 S1 Ss Sc Ss Sss Ssc Sc Ssc Scc.

(** What the regression of statsmodels returns when it succeeds: three
    finite coefficients that solve the normal equations of the rows that
    were kept, and a confidence interval for each. *)
Definition three_intervals (res : OLSResults) : Prop :=
  exists l0 h0 l1 h1 l2 h2,
    conf_int res = [[l0; h0]; [l1; h1]; [l2; h2]].

Definition least_squares_fit (Date : list datetime64) (temp : list float)
           (res : OLSResults) : Prop :=
  three_intervals res
  /\ exists c a b,
      params res = [Fin c; Fin a; Fin b]
      /\ normal_equations (kept_points Date temp) c a b.

(** The series [c + a sin(2 pi t) + b cos(2 pi t)] on the given dates. *)
Definition sinusoid (c a b : R) (Date : list datetime64) : list float :=
  map (fun d => Fin (c + a * sin (2 * PI * decimal_year d)
                       + b * cos (2 * PI * decimal_year d))) Date.

(** Three dates a quarter of a (365-day) year apart, from the reference
    date on, and a regression that returns [5 + 3 sin + 4 cos]. *)
Definition quarter_year : Z := 7884000000000000%Z.

Definition quarter_dates : list datetime64 :=
  [ref_date; (ref_date + quarter_year)%Z; (ref_date + 2 * quarter_year)%Z].

Definition fit_5_3_4 : OLSResults :=
  mkOLSResults [Fin 5; Fin 3; Fin 4]
               [[Fin 5; Fin 5]; [Fin 3; Fin 3]; [Fin 4; Fin 4]].

Definition ols_5_3_4 (temp : list float) (X : list (list float)) : Exc OLSResults :=
  Ok fit_5_3_4.


(* ================================================================== *)
(** * The batched regression, in real numbers *)
(* ================================================================== *)

(** The sum of [f 0], ..., [f (n-1)] in the reals. *)
Fixpoint rsum (n : nat) (f : nat -> R) : R :=
  match n with
  | O => 0
  | S k => rsum k f + f k
  end.

(** The finite part of a float. *)
Definition real_part (x : float) : R :=
  match x with
  | Fin r => r
  | _ => 0
  end.

(** [P] is a generalized inverse of the square matrix [K]: it has the
    shape of [K], finite entries, and [K P K = K].  The Moore-Penrose
    pseudo-inverse that [tf.linalg.pinv] computes is one. *)
Definition generalized_inverse (K P : matrix) : Prop :=
  nrows P = nrows K
  /\ ncols P = ncols K
  /\ (forall i j, (i < nrows K)%nat -> (j < ncols K)%nat ->
                  F.isfinite (entry P i j) = true)
  /\ (forall i k, (i < nrows K)%nat -> (k < ncols K)%nat ->
                  entry (einsum_ij_jk (einsum_ij_jk K P) K) i k = entry K i k).

(** The sine and cosine of the decimal years of a list of dates. *)
Definition sin_wt_of (Date : list datetime64) : list float :=
  map (fun d => Fin (sin (2 * PI * decimal_year d))) Date.
Definition cos_wt_of (Date : list datetime64) : list float :=
  map (fun d => Fin (cos (2 * PI * decimal_year d))) Date.

(** [X_mat_T_dot] for the features of the given dates. *)
Definition normal_matrix (Date : list datetime64) : matrix :=
  einsum_ij_jk (transpose (design_matrix (sin_wt_of Date) (cos_wt_of Date)))
               (design_matrix (sin_wt_of Date) (cos_wt_of Date)).

(** A row of [data[b]] for the date [d]: between the two target channels
    and the two weight channels it carries at least four groundwater
    values and, last, sin(wt) and cos(wt) of the date. *)
Definition gw_row (d : datetime64) (row : list float) : Prop :=
  exists g,
    (4 <= length g)%nat
    /\ from2_to_m2 row
       = g ++ [Fin (sin (2 * PI * decimal_year d));
               Fin (cos (2 * PI * decimal_year d))].

(** A row of [y_pred[b]] for the date [d] whose temperature, unscaled, is
    [c + a sin(wt) + b cos(wt)]. *)
Definition predicts (temp_index : nat) (temp_mean temp_sd : float)
           (c a b : R) (d : datetime64) (row : list float) : Prop :=
  exists v,
    one_at temp_index row = [v]
    /\ (v * temp_sd + temp_mean)%float
       = Fin (c + a * sin (2 * PI * decimal_year d)
                + b * cos (2 * PI * decimal_year d)).

(** The batched regression on real numbers: [n] timesteps with features
    [s], [c], and the entries [P] of the pseudo-inverse. *)
Section RealRegression.

Variable n : nat.
Variables s c : nat -> R.
Variable P : nat -> nat -> R.

(** Column [u] of the design: ones, sines, cosines. *)
Definition reg_col (u : nat) (i : nat) : R :=
  match u with
  | O => 1
  | S O => s i
  | _ => c i
  end.

(** The entries of [X_mat_T_dot]. *)
Definition reg_K (i k : nat) : R := rsum 3 (fun u => reg_col u i * reg_col u k).

Definition reg_rowP (u m : nat) : R := rsum n (fun l => reg_col u l * P l m).

Definition reg_N (u v : nat) : R := rsum n (fun m => reg_rowP u m * reg_col v m).

(** Row [j] of [a_b] for the predictions [y]. *)
Definition reg_coeff (y : nat -> R) (j : nat) : R :=
  rsum n (fun i => rsum n (fun l => P i l * reg_col j l) * y i).

End RealRegression.

(** The features of timestep [i] of a segment with the given dates, and
    the finite part of entry [(i, l)] of a matrix. *)
Definition sR (Date : list datetime64) (i : nat) : R :=
  sin (2 * PI * decimal_year (nth i Date 0%Z)).
Definition cR (Date : list datetime64) (i : nat) : R :=
  cos (2 * PI * decimal_year (nth i Date 0%Z)).
Definition Pr (P : matrix) (i l : nat) : R := real_part (entry P i l).

(** For [quarter_dates]: the inverse of [X_mat_T_dot] (which is
    [[2,1,0],[1,2,1],[0,1,2]]), rows of [data] and rows of [y_pred] whose
    temperature, unscaled with mean 10 and deviation 2, is
    [5 + 3 sin + 4 cos]. *)
Definition pinv_quarter (K : matrix) : matrix :=
  of_rows [[Fin (3 / 4); Fin (- (1 / 2)); Fin (1 / 4)];
           [Fin (- (1 / 2)); Fin 1; Fin (- (1 / 2))];
           [Fin (1 / 4); Fin (- (1 / 2)); Fin (3 / 4)]] 3.

Definition quarter_data_row (d : datetime64) : list float :=
  [Fin 9; Fin 0; Fin 0.5; Fin 10; Fin 4; Fin 10;
   Fin (sin (2 * PI * decimal_year d)); Fin (cos (2 * PI * decimal_year d));
   Fin 1; Fin 0].

Definition quarter_pred_row (d : datetime64) : list float :=
  [Fin ((5 + 3 * sin (2 * PI * decimal_year d)
           + 4 * cos (2 * PI * decimal_year d) - 10) / 2);
   Fin 0].


(** [data[b][t][k]] for the segment [seg = data[b]]. *)
Definition index2 (seg : list (list float)) (t k : nat) : Exc float :=
  row <- index seg t ;; index row k.

(** How [GW_loss_prep] gets its four outputs for one segment: the stored
    [Ar_obs] and [delPhi_obs] are channels 2 and 3 of the first timestep,
    and the predictions come from [Aw], [Phiw] and the stored air phase
    and amplitude (channels 4 and 5). *)
Definition gw_terms (seg_data : list (list float)) (g : GWSegment) : Prop :=
  index2 seg_data 0 2 = Ok (g_Ar_obs g)
  /\ index2 seg_data 0 3 = Ok (g_delPhi_obs g)
  /\ exists air_phi air_amp,
      index2 seg_data 0 4 = Ok air_phi
      /\ index2 seg_data 0 5 = Ok air_amp
      /\ g_Ar_pred g = (g_Aw g / air_amp)%float
      /\ g_delPhi_pred g = (((g_Phiw g - air_phi) * Fin 365) / two_pi)%float.

(** The target of variable [i] at one timestep, NaN where its weight is
    zero (the weights are the last two channels, the targets the first
    two); that target over a batch, flattened; and channel [i] of a
    tensor, flattened. *)
Definition masked_target (i : nat) (step : list float) : float :=
  if F.eqb (nth i (last2 step) NaN) (Fin 0) then NaN
  else nth i (first2 step) NaN.

Definition masked_channel (i : nat) (data : tensor3) : tensor :=
  concat (map (map (masked_target i)) data).

Definition plain_channel (i : nat) (t : tensor3) : tensor :=
  concat (map (map (fun step => nth i step NaN)) t).

(** The coefficients of the batched regression in closed form: with [X]
    the matrix of ones, sines and cosines,
    [(pinv(X^T X) X^T) y] for the column [y] of temperatures. *)
Definition batched_coefficients (pinv : matrix -> matrix)
           (sin_wt cos_wt : list float) (y : list (list float)) : matrix :=
  let X := design_matrix sin_wt cos_wt in
  einsum_ij_ik
    (einsum_ij_jk (pinv (einsum_ij_jk (transpose X) X)) (transpose X))
    (of_rows y (length (hd [] y))).

(** How [GW_loss_prep] gets [Aw] and [Phiw] for one segment [(data[b],
    y_pred[b])]: from rows 1 and 2 of the coefficients of the regression of
    the unscaled predicted temperature on the last two groundwater
    channels. *)
Definition gw_fit (pinv : matrix -> matrix) (temp_index : nat)
           (temp_mean temp_sd : float)
           (seg : list (list float) * list (list float)) (g : GWSegment) : Prop :=
  let features := map last2 (map from2_to_m2 (fst seg)) in
  let temps :=
    map (map (fun v => (v * temp_sd + temp_mean)%float))
        (map (one_at temp_index) (snd seg)) in
  let a_b := batched_coefficients pinv (column 0 features) (column 1 features)
                                  temps in
  exists a b,
    mindex a_b 1 0 = Ok a
    /\ mindex a_b 2 0 = Ok b
    /\ g_Aw g = F.sqrt (F.square a + F.square b)%float
    /\ g_Phiw g = (three_pi_half - F.atan (b / a))%float.

(* ================================================================== *)
(** * Further definitions *)
(* ================================================================== *)

From Stdlib Require Import Sorted.

(** The threshold block on one segment, in closed form. *)
Definition thresholds (p : float * float) : float * float :=
  if (fst p <=? Fin 1.1)%float && (snd p >=? Fin (-10))%float
  then (fst p, if (snd p >? Fin 0)%float then snd p else Fin 0)
  else (NaN, NaN).

(** A zero, the divisor on which Python's [/] raises. *)
Definition is_zero (x : float) : bool :=
  match x with
  | Fin r => Reqb r 0
  | _ => false
  end.

(** Some division of [annual_temp_stats] for this segment has a zero
    divisor. *)
Definition zero_divisor (f : HarmonicFit * HarmonicFit * HarmonicFit) : bool :=
  is_zero (amp (air_fit f)) || is_zero (amp_high (air_fit f))
  || is_zero (amp_low (air_fit f)).

(** Row [i] of the table repeats the fits it was derived from: the
    columns of the process-based model are the plain quotient and shift,
    those of the observations are that or what the thresholds left. *)
Definition row_consistent (T : SignalTable) (i : nat) : Prop :=
  exists air_amp air_phi w_amp w_phi p_amp p_phi Ar dPhi,
    nth_error (t_air_amp T) i = Some air_amp
    /\ nth_error (t_air_phi T) i = Some air_phi
    /\ nth_error (t_water_amp_obs T) i = Some w_amp
    /\ nth_error (t_water_phi_obs T) i = Some w_phi
    /\ nth_error (t_water_amp_pbm T) i = Some p_amp
    /\ nth_error (t_water_phi_pbm T) i = Some p_phi
    /\ nth_error (t_Ar_pbm T) i = Some (p_amp / air_amp)%float
    /\ nth_error (t_delPhi_pbm T) i = Some (phase_shift_days p_phi air_phi)
    /\ nth_error (t_Ar_obs T) i = Some Ar
    /\ nth_error (t_delPhi_obs T) i = Some dPhi
    /\ (Ar, dPhi) = thresholds ((w_amp / air_amp)%float,
                                phase_shift_days w_phi air_phi).

(** Every column has [n] entries. *)
Definition table_height (T : SignalTable) (n : nat) : Prop :=
  length (t_seg_id_nat T) = n
  /\ length (t_air_amp T) = n /\ length (t_air_phi T) = n
  /\ length (t_water_amp_obs T) = n /\ length (t_water_phi_obs T) = n
  /\ length (t_Ar_obs T) = n /\ length (t_delPhi_obs T) = n
  /\ length (t_Ar_low_obs T) = n /\ length (t_Ar_high_obs T) = n
  /\ length (t_delPhi_low_obs T) = n /\ length (t_delPhi_high_obs T) = n
  /\ length (t_water_amp_pbm T) = n /\ length (t_water_phi_pbm T) = n
  /\ length (t_Ar_pbm T) = n /\ length (t_delPhi_pbm T) = n.


(** The accumulators of a running minimum and a running maximum of one
    list are in order, unless one of them can no longer become finite. *)
Definition min_max_inv (a b : float) : Prop :=
  a = NaN \/ a = NInf \/ b = NaN \/ b = PInf
  \/ exists a' b', a = Fin a' /\ b = Fin b' /\ a' <= b'.

(** NaN, +inf or a non-negative number. *)
Definition nonneg_or_special (x : float) : Prop :=
  x = NaN \/ x = PInf \/ exists r, x = Fin r /\ 0 <= r.

(* ================================================================== *)
(** * loss_functions.py: the other losses *)
(* ================================================================== *)

(** Element-wise product of two tensors of one shape. *)
Fixpoint tf_mul (x y : tensor) : tensor :=
  match x, y with
  | u :: x', v :: y' => (u * v)%float :: tf_mul x' y'
  | _, _ => []
  end.

(** [nse(y_true, y_pred)]. *)
Definition nse (y_true y_pred : tensor) : float :=
  let zero_or_error :=
    tf_where (tf_is_nan y_true) (tf_zeros_like y_true) (tf_sub y_pred y_true) in
  let deviation := dev_masked y_true in
  let numerator := tf_reduce_sum (tf_square zero_or_error) in
  let denominator := tf_reduce_sum (tf_square deviation) in
  (Fin 1 - numerator / denominator)%float.

(** [nnse(y_true, y_pred)]. *)
Definition nnse (y_true y_pred : tensor) : float :=
  (Fin 1 / (Fin 2 - nse y_true y_pred))%float.

(** [nnse_loss(y_true, y_pred)]. *)
Definition nnse_loss (y_true y_pred : tensor) : float :=
  (Fin 1 - nnse y_true y_pred)%float.

(** [nnse_masked_one_var(data, y_pred, var_idx)]. *)
Definition nnse_masked_one_var (data y_pred : tensor3) (var_idx : nat)
  : Exc float :=
  c <- y_data_components data y_pred var_idx ;;
  Ok (nnse_loss (fst (fst c)) (snd (fst c))).

(** [pearsons_r(y_true, y_pred)]. *)
Definition pearsons_r (y_true y_pred : tensor) : float :=
  let y_true_dev := dev_masked y_true in
  let y_pred_dev := dev_masked y_pred in
  let numerator := tf_reduce_sum (tf_mul y_true_dev y_pred_dev) in
  let ss_dev_true := tf_reduce_sum (tf_square y_true_dev) in
  let ss_pred_true := tf_reduce_sum (tf_square y_pred_dev) in
  let denominator := F.sqrt (ss_dev_true * ss_pred_true)%float in
  (numerator / denominator)%float.

(** [kge(y_true, y_pred)]. *)
Definition kge (y_true y_pred : tensor) : float :=
  let r := pearsons_r y_true y_pred in
  let mean_true := mean_masked y_true in
  let mean_pred := mean_masked y_pred in
  let std_true := std_masked y_true in
  let std_pred := std_masked y_pred in
  let r_component := F.square (r - Fin 1)%float in
  let std_component := F.square ((std_pred / std_true) - Fin 1)%float in
  let bias_component := F.square ((mean_pred / mean_true) - Fin 1)%float in
  (Fin 1 - F.sqrt (r_component + std_component + bias_component))%float.

(** [norm_kge(y_true, y_pred)]. *)
Definition norm_kge (y_true y_pred : tensor) : float :=
  (Fin 1 / (Fin 2 - kge y_true y_pred))%float.

(** [kge_norm_loss(y_true, y_pred)]. *)
Definition kge_norm_loss (y_true y_pred : tensor) : float :=
  (Fin 1 - norm_kge y_true y_pred)%float.

(** [kge_loss(y_true, y_pred)]. *)
Definition kge_loss (y_true y_pred : tensor) : float :=
  (Fin (-1) * kge y_true y_pred)%float.

(** [kge_loss_one_var(data, y_pred, var_idx)]. *)
Definition kge_loss_one_var (data y_pred : tensor3) (var_idx : nat)
  : Exc float :=
  c <- y_data_components data y_pred var_idx ;;
  Ok (kge_loss (fst (fst c)) (snd (fst c))).

(** [weighted_masked_rmse(lamb)(data, y_pred)], that is
    [rmse_masked_combined]. *)
Definition rmse_masked_combined (lamb : float) (data y_pred : tensor3)
  : Exc float :=
  rmse_main <- rmse_masked_one_var data y_pred 0 ;;
  rmse_aux <- rmse_masked_one_var data y_pred 1 ;;
  Ok (rmse_main + lamb * rmse_aux)%float.

(** NaN, -inf or a number that is at most 1. *)
Definition at_most_one_or_special (x : float) : Prop :=
  x = NaN \/ x = NInf \/ exists r, x = Fin r /\ r <= 1.

(** NaN or a number between 0 and 1. *)
Definition unit_or_nan (x : float) : Prop :=
  x = NaN \/ exists r, x = Fin r /\ 0 <= r <= 1.

(** Two predictions that agree wherever the true value is not NaN; the
    three tensors have one shape. *)
Fixpoint same_where_observed (y_true p q : tensor) : Prop :=
  match y_true, p, q with
  | [], [], [] => True
  | t :: y', a :: p', b :: q' =>
      (t = NaN \/ a = b) /\ same_where_observed y' p' q'
  | _, _, _ => False
  end.

(** Where the true value is not NaN, it and the prediction are numbers. *)
Definition numbers_where_observed (y_true y_pred : tensor) : Prop :=
  Forall2 (fun t p => t = NaN \/ exists a b, t = Fin a /\ p = Fin b)
          y_true y_pred.

(** Where the true value is not NaN, the prediction equals it. *)
Definition exact_where_observed (y_true y_pred : tensor) : Prop :=
  Forall2 (fun t p => t = NaN \/ p = t) y_true y_pred.

(** The numbers among the entries of a tensor, and sums and means of
    lists of reals. *)
Definition observed (y : tensor) : list R :=
  flat_map (fun x => match x with Fin r => [r] | _ => [] end) y.

Definition Rsum (l : list R) : R := fold_right Rplus 0 l.

Definition Rmean (l : list R) : R := Rsum l / INR (length l).

(** Every entry is a number or NaN. *)
Definition numbers_or_nan (y : tensor) : Prop :=
  Forall (fun x => x = NaN \/ exists r, x = Fin r) y.

(** The largest number of float32, and the tensors that the cast to
    float32 leaves finite: NaN and numbers of at most this magnitude. *)
Definition float32_max : R := 340282346638528859811704183484516925440.

Definition fits_float32 (y : tensor) : Prop :=
  Forall (fun x => x = NaN \/ exists r, x = Fin r /\ Rabs r <= float32_max) y.

(** Two entries are different numbers. *)
Definition varies (y : tensor) : Prop :=
  exists a b, In (Fin a) y /\ In (Fin b) y /\ a <> b.

(** All numbers among the entries are equal (or there is none). *)
Definition constant (y : tensor) : Prop :=
  forall a b, In (Fin a) y -> In (Fin b) y -> a = b.

(** The deviation of one entry from [m], 0 for NaN. *)
Definition deviation_from (m : R) (x : float) : float :=
  match x with
  | Fin r => Fin (r - m)
  | _ => Fin 0
  end.



(** Two computations end the same way: both return, or both raise the
    same exception. *)
Definition same_outcome {A B : Type} (a : Exc A) (b : Exc B) : Prop :=
  match a, b with
  | Ok _, Ok _ => True
  | Raise e, Raise e' => e = e'
  | _, _ => False
  end.

(** Two timesteps with the same two targets and with weights that are
    zero at the same places. *)
Definition same_targets_and_mask (step step' : list float) : Prop :=
  first2 step = first2 step'
  /\ map (fun w => F.eqb w (Fin 0)) (last2 step)
     = map (fun w => F.eqb w (Fin 0)) (last2 step').

Definition same_mask (data data' : tensor3) : Prop :=
  Forall2 (Forall2 same_targets_and_mask) data data'.

(* ================================================================== *)
(** * gw_utils.py: scaling the observed ratio and shift *)
(* ================================================================== *)

(** [np.nanmean(x)]: the mean of the entries that are not NaN, NaN when
    there is none. *)
Definition np_nanmean (x : list float) : float :=
  let kept := filter (fun v => negb (F.isnan v)) x in
  (tf_reduce_sum kept / Fin (INR (length kept)))%float.

(** [np.nanstd(x)]: the root of the mean squared deviation of the entries
    that are not NaN from their mean (no degrees of freedom taken off). *)
Definition np_nanstd (x : list float) : float :=
  let kept := filter (fun v => negb (F.isnan v)) x in
  let avg := np_nanmean x in
  F.sqrt (tf_reduce_sum (map (fun v => F.square (v - avg)%float) kept)
          / Fin (INR (length kept)))%float.

(** Lines 284-285 of [prep_annual_signal_data], for one column [col] of
    [GW_trn]: [(col - np.nanmean(col)) / np.nanstd(col)]. *)
Definition scale_column (col : list float) : list float :=
  map (fun v => ((v - np_nanmean col) / np_nanstd col)%float) col.

(* ================================================================== *)
(** * gw_utils.py: signal properties of predicted temperatures *)
(* ================================================================== *)

(** A row of the data frame of predicted temperatures. *)
Record PredRow : Type := mkPredRow
  { p_seg_id_nat : Z;
    p_date : datetime64;
    p_seg_tave_water : float }.

(** [np.unique] on segment ids: the distinct values in ascending order. *)
Fixpoint insert_unique (z : Z) (l : list Z) : list Z :=
  match l with
  | [] => [z]
  | x :: l' =>
      if (z <? x)%Z then z :: l
      else if (z =? x)%Z then l
      else x :: insert_unique z l'
  end.

Definition np_unique (l : list Z) : list Z := fold_right insert_unique [] l.

(** [calc_amp_phi(thisData)]: the columns [seg_id_nat], [water_amp_pred]
    and [water_phi_pred] of the data frame it returns. *)
Definition calc_amp_phi
           (OLS_fit : list float -> list (list float) -> Exc OLSResults)
           (thisData : list PredRow)
  : Exc (list Z * list float * list float) :=
  let segList := np_unique (map p_seg_id_nat thisData) in
  fits <- comp (fun thisSeg =>
                  let rows :=
                    filter (fun r => (p_seg_id_nat r =? thisSeg)%Z) thisData in
                  amp_phi OLS_fit (map p_date rows)
                          (map p_seg_tave_water rows) true)
               segList ;;
  Ok (segList, map amp fits, map phi fits).

(** The row with its predicted temperature kept only inside the band of
    1 to 45 degrees. *)
Definition band_row (r : PredRow) : PredRow :=
  mkPredRow (p_seg_id_nat r) (p_date r) (water_band (p_seg_tave_water r)).
(* ================================================================== *)
(** * Facts about floats and exceptions *)
(* ================================================================== *)

Lemma Rleb_true (x y : R) : x <= y -> Rleb x y = true.
Proof. unfold Rleb; destruct (Rle_dec x y); [reflexivity | contradiction]. Qed.

Lemma Rleb_false (x y : R) : y < x -> Rleb x y = false.
Proof. unfold Rleb; destruct (Rle_dec x y); [lra | reflexivity]. Qed.

Lemma Rltb_true (x y : R) : x < y -> Rltb x y = true.
Proof. unfold Rltb; destruct (Rlt_dec x y); [reflexivity | contradiction]. Qed.

Lemma Rltb_false (x y : R) : y <= x -> Rltb x y = false.
Proof. unfold Rltb; destruct (Rlt_dec x y); [lra | reflexivity]. Qed.

Lemma Reqb_true (x y : R) : x = y -> Reqb x y = true.
Proof. unfold Reqb; destruct (Req_dec_T x y); [reflexivity | contradiction]. Qed.

Lemma Reqb_false (x y : R) : x <> y -> Reqb x y = false.
Proof. unfold Reqb; destruct (Req_dec_T x y); [contradiction | reflexivity]. Qed.

Lemma Rleb_spec (x y : R) : Rleb x y = true <-> x <= y.
Proof. unfold Rleb; destruct (Rle_dec x y); split; auto; discriminate. Qed.

Lemma Rltb_spec (x y : R) : Rltb x y = true <-> x < y.
Proof. unfold Rltb; destruct (Rlt_dec x y); split; auto; discriminate. Qed.

Lemma Reqb_spec (x y : R) : Reqb x y = true <-> x = y.
Proof. unfold Reqb; destruct (Req_dec_T x y); split; auto; discriminate. Qed.

(** Decide the comparisons of reals that occur in the goal. *)
Ltac Rcmp :=
  repeat match goal with
    | |- context [Rleb ?x ?y] =>
        first [ rewrite (Rleb_true x y) by lra | rewrite (Rleb_false x y) by lra ]
    | |- context [Rltb ?x ?y] =>
        first [ rewrite (Rltb_true x y) by lra | rewrite (Rltb_false x y) by lra ]
    | |- context [Reqb ?x ?y] =>
        first [ rewrite (Reqb_true x y) by lra | rewrite (Reqb_false x y) by lra ]
    end.

(** Split on the comparisons of reals that occur in the goal. *)
Ltac Rcases :=
  repeat match goal with
    | |- context [Rle_dec ?x ?y] => destruct (Rle_dec x y)
    | |- context [Rlt_dec ?x ?y] => destruct (Rlt_dec x y)
    | |- context [Req_dec_T ?x ?y] => destruct (Req_dec_T x y)
    | H : context [Rle_dec ?x ?y] |- _ => destruct (Rle_dec x y)
    | H : context [Rlt_dec ?x ?y] |- _ => destruct (Rlt_dec x y)
    | H : context [Req_dec_T ?x ?y] |- _ => destruct (Req_dec_T x y)
    end.

Ltac fnorm :=
  unfold F.geb, F.gtb, F.leb, F.ltb, F.isnan, F.isfinite in *.

Ltac funfold := fnorm; unfold Rleb, Rltb, Reqb in *.

Lemma comp_pure {A B : Type} (f : A -> B) (xs : list A) :
  comp (fun x => Ok (f x)) xs = Ok (map f xs).
Proof.
  induction xs as [|x xs IH]; simpl; [reflexivity|].
  rewrite IH; reflexivity.
Qed.

Lemma comp2_pure {A B C : Type} (f : A -> B -> C) (xs : list A) :
  forall ys, length xs = length ys ->
  comp2 (fun x y => Ok (f x y)) xs ys
  = Ok (map (fun p => f (fst p) (snd p)) (combine xs ys)).
Proof.
  induction xs as [|x xs IH]; intros [|y ys] Hlen; simpl in *;
    try discriminate; [reflexivity|].
  rewrite IH by lia; reflexivity.
Qed.

Lemma comp2_length {A B C : Type} (f : A -> B -> Exc C) (xs : list A) :
  forall ys zs, comp2 f xs ys = Ok zs ->
  length zs = length xs /\ (length xs <= length ys)%nat.
Proof.
  induction xs as [|x xs IH]; intros ys zs H; simpl in H.
  - inversion H; subst; simpl; split; lia.
  - destruct ys as [|y ys]; [discriminate|].
    destruct (f x y) as [z|e]; simpl in H; [|discriminate].
    destruct (comp2 f xs ys) as [zs'|e] eqn:E; simpl in H; [|discriminate].
    inversion H; subst; simpl.
    destruct (IH _ _ E); split; lia.
Qed.

Lemma map_fst_combine_map {A B C : Type} (f : A -> B) (g : A -> C) (l : list A) :
  combine (map f l) (map g l) = map (fun x => (f x, g x)) l.
Proof. induction l; simpl; congruence. Qed.

Section Filter.

Local Open Scope float_scope.

Lemma remove_Ar_gt_pointwise (Ar dPhi : list float) :
  length Ar = length dPhi ->
  remove_Ar_gt Ar dPhi = Ok (unzip (map rule_i (combine Ar dPhi))).
Proof.
  intros Hlen. unfold remove_Ar_gt, unzip.
  rewrite comp2_pure by lia. simpl. f_equal. f_equal.
  - revert dPhi Hlen. induction Ar as [|a Ar IH]; intros [|d dPhi] Hlen;
      simpl in *; try discriminate; [reflexivity|].
    f_equal. apply IH; lia.
  - revert dPhi Hlen. induction Ar as [|a Ar IH]; intros [|d dPhi] Hlen;
      simpl in *; try discriminate; [reflexivity|].
    f_equal. apply IH; lia.
Qed.

Lemma remove_delPhi_lt_pointwise (Ar dPhi : list float) :
  length Ar = length dPhi ->
  remove_delPhi_lt Ar dPhi = Ok (unzip (map rule_ii (combine Ar dPhi))).
Proof.
  intros Hlen. unfold remove_delPhi_lt, unzip.
  rewrite comp2_pure by lia. simpl. f_equal. f_equal.
  - rewrite map_map. reflexivity.
  - revert dPhi Hlen. induction Ar as [|a Ar IH]; intros [|d dPhi] Hlen;
      simpl in *; try discriminate; [reflexivity|].
    f_equal. apply IH; lia.
Qed.

Lemma reset_delPhi_all_pointwise (l : list (float * float)) :
  reset_delPhi_all (map fst l) (map snd l) = unzip (map rule_iii l).
Proof.
  unfold reset_delPhi_all, unzip. rewrite !map_map. reflexivity.
Qed.

Lemma unzip_combine {A B : Type} (l : list (A * B)) :
  combine (fst (unzip l)) (snd (unzip l)) = l.
Proof.
  unfold unzip; simpl. induction l as [|[a b] l IH]; simpl; congruence.
Qed.

(** The threshold block is the per-segment composition of its three
    steps, in the order of the source. *)
Lemma plausibility_filter_pointwise (Ar dPhi : list float) :
  length Ar = length dPhi ->
  plausibility_filter Ar dPhi
  = Ok (unzip (map filter_segment (combine Ar dPhi))).
Proof.
  intros Hlen. unfold plausibility_filter.
  rewrite remove_Ar_gt_pointwise by assumption. cbn [bind].
  rewrite remove_delPhi_lt_pointwise
    by (unfold unzip; simpl; rewrite !length_map; reflexivity).
  cbn [bind]. rewrite unzip_combine.
  f_equal. unfold unzip at 1 2. cbn [fst snd].
  rewrite reset_delPhi_all_pointwise. rewrite !map_map. reflexivity.
Qed.

Lemma plausibility_filter_lengths (Ar dPhi Ar' dPhi' : list float) :
  plausibility_filter Ar dPhi = Ok (Ar', dPhi') ->
  length Ar = length dPhi.
Proof.
  unfold plausibility_filter, remove_Ar_gt, remove_delPhi_lt. intros H.
  destruct (comp2 _ dPhi Ar) as [d1|] eqn:E1; simpl in H; [|discriminate].
  destruct (comp2 _ (map _ Ar) d1) as [a2|] eqn:E2; simpl in H; [|discriminate].
  apply comp2_length in E1, E2. rewrite length_map in E2. lia.
Qed.

Lemma rule_i_fires a d : (a >? Fin 1.1) = true -> rule_i (a, d) = (NaN, NaN).
Proof.
  unfold rule_i, keep_if_Ar_le; simpl. destruct a; funfold; simpl;
    try discriminate; try reflexivity.
  Rcases; intros; try discriminate; try reflexivity; lra.
Qed.

Lemma rule_ii_fires a d : (d <? Fin (-10)) = true -> rule_ii (a, d) = (NaN, NaN).
Proof.
  unfold rule_ii, keep_if_delPhi_ge; simpl. destruct d; funfold; simpl;
    try discriminate; try reflexivity.
  Rcases; intros; try discriminate; try reflexivity; lra.
Qed.

Lemma rule_iii_clamps a d :
  (Fin (-10) <=? d) = true -> (d <=? Fin 0) = true ->
  rule_iii (a, d) = (a, Fin 0).
Proof.
  unfold rule_iii, reset_delPhi; simpl. destruct d; funfold; simpl;
    try discriminate.
  Rcases; intros; try discriminate; try reflexivity; lra.
Qed.

End Filter.


(* ================================================================== *)
(** * The threshold block of the signal table builder *)
(* ================================================================== *)

Section FilterClaims.

Local Open Scope float_scope.

(** C1.  On the columns [Ar_obs] and [delPhi_obs] (one entry per segment)
    the threshold block acts segment by segment as rule (i), then rule (ii),
    then rule (iii), where: (i) [Ar_obs > 1.1] sets both fields to NaN;
    (ii) [delPhi_obs < -10] sets both fields to NaN; (iii)
    [-10 <= delPhi_obs <= 0] sets [delPhi_obs] to 0 and keeps [Ar_obs].
    A segment with [Ar_obs = 1.2], [delPhi_obs = 5] ends with both fields
    NaN; one with [Ar_obs <= 1.1] and [delPhi_obs = -3] ends with
    [delPhi_obs = 0] and its [Ar_obs]. *)
Theorem C1_rules_applied_in_order (Ar_obs delPhi_obs : list float) :
  length Ar_obs = length delPhi_obs ->
  plausibility_filter Ar_obs delPhi_obs
  = Ok (unzip (map (fun p => rule_iii (rule_ii (rule_i p)))
                   (combine Ar_obs delPhi_obs)))
  /\ (forall a d, (a >? Fin 1.1) = true -> rule_i (a, d) = (NaN, NaN))
  /\ (forall a d, (d <? Fin (-10)) = true -> rule_ii (a, d) = (NaN, NaN))
  /\ (forall a d, (Fin (-10) <=? d) = true -> (d <=? Fin 0) = true ->
                  rule_iii (a, d) = (a, Fin 0))
  /\ plausibility_filter [Fin 1.2] [Fin 5] = Ok ([NaN], [NaN])
  /\ (forall a, (a <=? Fin 1.1) = true ->
                plausibility_filter [a] [Fin (-3)] = Ok ([a], [Fin 0])).
Proof.
  intros Hlen. repeat split.
  - apply plausibility_filter_pointwise; assumption.
  - apply rule_i_fires.
  - apply rule_ii_fires.
  - apply rule_iii_clamps.
  - rewrite plausibility_filter_pointwise by reflexivity.
    cbn [combine map]. unfold filter_segment. rewrite rule_i_fires.
    + reflexivity.
    + funfold; simpl. Rcases; try reflexivity; lra.
  - intros a Ha. rewrite plausibility_filter_pointwise by reflexivity.
    cbn [combine map]. unfold filter_segment.
    assert (H1 : rule_i (a, Fin (-3)) = (a, Fin (-3))).
    { unfold rule_i, keep_if_Ar_le; simpl. rewrite Ha. reflexivity. }
    assert (H2 : rule_ii (a, Fin (-3)) = (a, Fin (-3))).
    { unfold rule_ii, keep_if_delPhi_ge; simpl. Rcmp. reflexivity. }
    rewrite H1, H2, rule_iii_clamps; [reflexivity| |];
      funfold; simpl; Rcases; try reflexivity; lra.
Qed.

Lemma C1_rules_applied_in_order_witness :
  length [Fin 1.2; Fin 0.5] = length [Fin 5; Fin (-3)]
  /\ plausibility_filter [Fin 1.2; Fin 0.5] [Fin 5; Fin (-3)]
     = Ok (unzip (map (fun p => rule_iii (rule_ii (rule_i p)))
                      (combine [Fin 1.2; Fin 0.5] [Fin 5; Fin (-3)]))).
Proof.
  split; [reflexivity|].
  apply (C1_rules_applied_in_order [Fin 1.2; Fin 0.5] [Fin 5; Fin (-3)]).
  reflexivity.
Defined.

End FilterClaims.

(* ================================================================== *)
(** * The harmonic signal estimator *)
(* ================================================================== *)

Lemma PI2_neq0 : 2 * PI <> 0.
Proof. pose proof PI_RGT_0; lra. Qed.

Lemma one_day_neq0 : IZR one_day <> 0.
Proof. unfold one_day; lra. Qed.

Lemma div_fin (a b : R) : b <> 0 -> (Fin a / Fin b)%float = Fin (a / b).
Proof. intros Hb. unfold F.div. rewrite Reqb_false by assumption. reflexivity. Qed.

Lemma py_div_fin (x : float) (b : R) :
  b <> 0 -> py_div x (Fin b) = Ok (x / Fin b)%float.
Proof. intros Hb. unfold py_div. rewrite Reqb_false by assumption. reflexivity. Qed.

Lemma make_decimal_date_fin (Date : list datetime64) :
  make_decimal_date Date
  = map (fun d => if missing_date d then NaN else Fin (decimal_year d)) Date.
Proof.
  unfold make_decimal_date. apply map_ext. intros d.
  unfold date_minus_ref, in_days, missing_date, decimal_year.
  destruct (int64 d =? NaT)%Z; cbn [orb].
  - rewrite Z.eqb_refl. reflexivity.
  - destruct (int64 (d - ref_date) =? NaT)%Z; [reflexivity|].
    rewrite div_fin by apply one_day_neq0. rewrite div_fin by lra. reflexivity.
Qed.

(** The feature rows that [amp_phi] computes from the decimal dates. *)
Lemma features_of_dates (Date : list datetime64) :
  comp (fun j => s <- math_sin (two_pi * j)%float ;;
                 c <- math_cos (two_pi * j)%float ;; Ok [s; c])
       (make_decimal_date Date)
  = Ok (map feature_row Date).
Proof.
  rewrite make_decimal_date_fin.
  induction Date as [|d Date IH]; [reflexivity|].
  cbn [map comp]. rewrite IH. unfold feature_row.
  destruct (missing_date d); reflexivity.
Qed.

(** [sm.add_constant] on an array with at least one row. *)
Lemma is_nonzero_const_cons (v : float) (col : list float) :
  is_nonzero_const (v :: col) = Ok (nonzero_constant (v :: col)).
Proof. reflexivity. Qed.

Lemma existsb_of_map {A B : Type} (f : B -> bool) (g : A -> B) (l : list A) :
  existsb f (map g l) = existsb (fun a => f (g a)) l.
Proof.
  induction l as [|a l IH]; [reflexivity|]. cbn [map existsb]. rewrite IH.
  reflexivity.
Qed.

Lemma add_constant_cons (row : list float) (x : list (list float)) :
  add_constant (row :: x)
  = Ok (if has_constant (row :: x) then row :: x
        else map (fun r => Fin 1 :: r) (row :: x)).
Proof.
  unfold add_constant, has_constant. cbn [hd].
  assert (H : forall js,
             comp (fun j => is_nonzero_const (column j (row :: x))) js
             = Ok (map (fun j => nonzero_constant (column j (row :: x))) js)).
  { induction js as [|j js IH]; [reflexivity|].
    cbn [comp map]. rewrite IH. reflexivity. }
  rewrite H. cbn [bind]. rewrite existsb_of_map.
  destruct (existsb _ _); reflexivity.
Qed.

Lemma design_total (Date : list datetime64) :
  Date <> [] -> exists X, design Date = Ok X.
Proof.
  destruct Date as [|d Date]; [contradiction|]. intros _.
  unfold design. cbn [map]. rewrite add_constant_cons. eexists; reflexivity.
Qed.

Lemma design_empty : design [] = Raise ValueError.
Proof. reflexivity. Qed.

Lemma design_nonempty (Date : list datetime64) (X : list (list float)) :
  design Date = Ok X -> Date <> [].
Proof. intros H ->. discriminate. Qed.

Lemma design_row_cons (d : datetime64) : design_row d = Fin 1 :: feature_row d.
Proof. unfold design_row, feature_row. destruct (missing_date d); reflexivity. Qed.

(** The matrix is made of the feature rows, with or without the column
    of ones. *)
Lemma design_cases (Date : list datetime64) (X : list (list float)) :
  design Date = Ok X ->
  (has_constant (map feature_row Date) = true /\ X = map feature_row Date)
  \/ (has_constant (map feature_row Date) = false /\ X = map design_row Date).
Proof.
  destruct Date as [|d Date]; [discriminate|].
  unfold design. cbn [map]. rewrite add_constant_cons. intros H. injection H as <-.
  destruct (has_constant _); [left; split; reflexivity|].
  right. split; [reflexivity|]. cbn [map]. rewrite design_row_cons. f_equal.
  rewrite map_map. apply map_ext. intros d'. symmetry. apply design_row_cons.
Qed.

Lemma design_with_ones (Date : list datetime64) :
  Date <> [] -> has_constant (map feature_row Date) = false ->
  design Date = Ok (map design_row Date).
Proof.
  intros Hne Hc. destruct (design_total Date Hne) as [X HX].
  destruct (design_cases Date X HX) as [[H _]|[_ ->]]; [congruence | exact HX].
Qed.

Section EstimatorFacts.

Variable OLS_fit : list float -> list (list float) -> Exc OLSResults.

(** [amp_phi] builds the design matrix from the dates (which raises when
    there is no date), runs the [try] block and falls back on six NaN. *)
Lemma amp_phi_unfold (Date : list datetime64) (temp : list float) (isWater : bool) :
  amp_phi OLS_fit Date temp isWater
  = X <- design Date ;;
    Ok (try_except (amp_phi_try OLS_fit (ols_input temp isWater) X) all_nan).
Proof.
  unfold amp_phi, design. cbv zeta. rewrite features_of_dates. reflexivity.
Qed.

Lemma amp_phi_design (Date : list datetime64) (temp : list float) (isWater : bool)
      (X : list (list float)) :
  design Date = Ok X ->
  amp_phi OLS_fit Date temp isWater
  = Ok (try_except (amp_phi_try OLS_fit (ols_input temp isWater) X) all_nan).
Proof. intros H. rewrite amp_phi_unfold, H. reflexivity. Qed.

Lemma amp_phi_inv (Date : list datetime64) (temp : list float) (isWater : bool)
      (f : HarmonicFit) :
  amp_phi OLS_fit Date temp isWater = Ok f ->
  exists X,
    design Date = Ok X
    /\ f = try_except (amp_phi_try OLS_fit (ols_input temp isWater) X) all_nan.
Proof.
  rewrite amp_phi_unfold. destruct (design Date) as [X|e]; cbn [bind];
    [|discriminate].
  intros H. injection H as <-. exists X. split; reflexivity.
Qed.

Lemma amp_phi_empty (temp : list float) (isWater : bool) :
  amp_phi OLS_fit [] temp isWater = Raise ValueError.
Proof. rewrite amp_phi_unfold. reflexivity. Qed.

Lemma square_shape (x : float) :
  F.square x = NaN \/ F.square x = PInf
  \/ exists r, x = Fin r /\ F.square x = Fin (r * r).
Proof.
  destruct x; simpl; auto.
  right; right; eauto.
Qed.

Lemma sum_squares_shape (p q : float) :
  (F.square p + F.square q)%float = NaN
  \/ (F.square p + F.square q)%float = PInf
  \/ exists a b, p = Fin a /\ q = Fin b
                 /\ (F.square p + F.square q)%float = Fin (a * a + b * b).
Proof.
  destruct (square_shape p) as [Hp|[Hp|[a [-> Hp]]]];
    destruct (square_shape q) as [Hq|[Hq|[b [-> Hq]]]];
    rewrite Hp, Hq; simpl; auto.
  right; right; eauto.
Qed.

(** [math.sqrt] of a sum of two squares never raises. *)
Lemma math_sqrt_sum_squares (p q : float) :
  math_sqrt (F.square p + F.square q)%float
  = Ok (F.sqrt (F.square p + F.square q)%float).
Proof.
  destruct (sum_squares_shape p q) as [H|[H|[a [b [-> [-> H]]]]]];
    rewrite H; try reflexivity.
  unfold math_sqrt. rewrite Rltb_false by nra. reflexivity.
Qed.



Lemma phase_of_zero : phase_of (Fin 0) (Fin 0) = NaN.
Proof.
  unfold phase_of, F.div. rewrite Reqb_true by reflexivity.
  rewrite Rltb_false by lra. reflexivity.
Qed.







End EstimatorFacts.

(* ================================================================== *)
(** * The signal table builder *)
(* ================================================================== *)

Lemma comp_length {A B : Type} (f : A -> Exc B) (xs : list A) :
  forall ys, comp f xs = Ok ys -> length ys = length xs.
Proof.
  induction xs as [|x xs IH]; intros ys H; simpl in H.
  - injection H as <-. reflexivity.
  - destruct (f x); simpl in H; [|discriminate].
    destruct (comp f xs) eqn:E; simpl in H; [|discriminate].
    injection H as <-. simpl. f_equal. apply IH. reflexivity.
Qed.

Lemma comp_Forall {A B : Type} (f : A -> Exc B) (P : B -> Prop) (xs : list A) :
  (forall x y, f x = Ok y -> P y) ->
  forall ys, comp f xs = Ok ys -> Forall P ys.
Proof.
  intros Hf. induction xs as [|x xs IH]; intros ys H; simpl in H.
  - injection H as <-. constructor.
  - destruct (f x) eqn:Ex; simpl in H; [|discriminate].
    destruct (comp f xs) eqn:E; simpl in H; [|discriminate].
    injection H as <-. constructor; [eapply Hf; eassumption | apply IH; reflexivity].
Qed.

Lemma nth_error_unzip {A B : Type} (l : list (A * B)) (i : nat) (a : A) (b : B) :
  nth_error (map fst l) i = Some a ->
  nth_error (map snd l) i = Some b ->
  nth_error l i = Some (a, b).
Proof.
  revert i. induction l as [|[x y] l IH]; intros [|i] Ha Hb; simpl in *;
    try discriminate.
  - congruence.
  - apply IH; assumption.
Qed.

Section FilterFacts.

Local Open Scope float_scope.

(** After the three rules the two fields are NaN together. *)
Lemma filter_segment_nan_together (p : float * float) :
  fst (filter_segment p) = NaN <-> snd (filter_segment p) = NaN.
Proof.
  destruct p as [a d].
  unfold filter_segment, rule_iii, rule_ii, rule_i, keep_if_Ar_le,
    keep_if_delPhi_ge, reset_delPhi; cbn [fst snd].
  destruct a as [| | |a]; destruct d as [| | |d]; funfold; cbn;
    Rcases; cbn; Rcases; cbn; split; intros; try reflexivity;
    try discriminate; try lra.
Qed.


End FilterFacts.

Section BuilderFacts.

Variable OLS_fit : list float -> list (list float) -> Exc OLSResults.

(** The columns [Ar_obs] and [delPhi_obs] of the table are the ratios and
    phase shifts of the fits, passed through the three rules. *)
Lemma annual_temp_stats_obs (thisData : Dataset) (T : SignalTable) :
  annual_temp_stats OLS_fit thisData = Ok T ->
  exists fits Ar0,
    comp (segment_fits OLS_fit thisData) (seq 0 (length (seg_id_nat thisData)))
    = Ok fits
    /\ comp2 py_div (map amp (map obs_fit fits)) (map amp (map air_fit fits))
       = Ok Ar0
    /\ (t_Ar_obs T, t_delPhi_obs T)
       = unzip (map filter_segment (combine Ar0 (map raw_delPhi_obs fits))).
Proof.
  unfold annual_temp_stats. intros H.
  destruct (comp _ (seq 0 _)) as [fits|] eqn:Ef; cbn [bind] in H; [|discriminate].
  exists fits.
  fold air_fit in H. 
  change (map snd fits) with (map obs_fit fits) in H.
  change (map (fun f => snd (fst f)) fits) with (map pbm_fit fits) in H.
  change (map (fun f => fst (fst f)) fits) with (map air_fit fits) in H.
  destruct (comp2 py_div (map amp (map obs_fit fits)) (map amp (map air_fit fits)))
    as [Ar0|] eqn:EA; cbn [bind] in H; [|discriminate].
  exists Ar0. split; [reflexivity|]. split; [reflexivity|].
  rewrite (comp2_pure phase_shift_days) in H by (rewrite !length_map; reflexivity).
  cbn [bind] in H.
  destruct (comp2 py_div (map amp_low _) _); cbn [bind] in H; [|discriminate].
  destruct (comp2 py_div (map amp_high _) _); cbn [bind] in H; [|discriminate].
  rewrite !(comp2_pure phase_shift_days) in H by (rewrite !length_map; reflexivity).
  cbn [bind] in H.
  assert (HL : length Ar0 = length fits).
  { apply comp2_length in EA. rewrite !length_map in EA. tauto. }
  rewrite plausibility_filter_pointwise in H
    by (rewrite length_map, length_combine, !length_map; lia).
  cbn [bind] in H.
  destruct (comp2 py_div (map amp (map pbm_fit fits)) _); cbn [bind] in H;
    [|discriminate].
  injection H as <-. cbn [t_Ar_obs t_delPhi_obs].
  assert (Hd : map (fun p : float * float => phase_shift_days (fst p) (snd p))
                   (combine (map phi (map obs_fit fits)) (map phi (map air_fit fits)))
               = map raw_delPhi_obs fits).
  { clear. induction fits as [|f fits IH]; [reflexivity|].
    cbn [map combine]. rewrite IH. reflexivity. }
  rewrite Hd. reflexivity.
Qed.





Lemma Forall_map_filter_segment (P : float * float -> Prop) (l : list (float * float)) :
  (forall p, In p l -> P (filter_segment p)) ->
  forall i a d,
    nth_error (fst (unzip (map filter_segment l))) i = Some a ->
    nth_error (snd (unzip (map filter_segment l))) i = Some d ->
    P (a, d).
Proof.
  intros HP i a d Ha Hd. unfold unzip in *; cbn [fst snd] in *.
  pose proof (nth_error_unzip _ _ _ _ Ha Hd) as H.
  apply nth_error_In in H. apply in_map_iff in H.
  destruct H as [p [<- Hin]]. apply HP, Hin.
Qed.

Lemma annual_temp_stats_lengths (thisData : Dataset) (T : SignalTable) :
  annual_temp_stats OLS_fit thisData = Ok T ->
  length (t_Ar_obs T) = length (seg_id_nat thisData)
  /\ length (t_delPhi_obs T) = length (seg_id_nat thisData).
Proof.
  intros H. destruct (annual_temp_stats_obs _ _ H) as [fits [Ar0 [Hf [HA HT]]]].
  apply comp_length in Hf. rewrite length_seq in Hf.
  apply comp2_length in HA. rewrite !length_map in HA.
  unfold unzip in HT. injection HT as -> ->.
  rewrite !length_map, length_combine, length_map. lia.
Qed.

End BuilderFacts.

(** C10.  In the table that [annual_temp_stats] returns, whatever the
    regression did on each series, the columns [Ar_obs] and [delPhi_obs]
    have one entry per segment and, for every segment, [Ar_obs] is NaN
    exactly when [delPhi_obs] is NaN. *)
Theorem C10_Ar_missing_iff_delPhi_missing
        (OLS_fit : list float -> list (list float) -> Exc OLSResults)
        (thisData : Dataset) (T : SignalTable) :
  annual_temp_stats OLS_fit thisData = Ok T ->
  length (t_Ar_obs T) = length (seg_id_nat thisData)
  /\ length (t_delPhi_obs T) = length (seg_id_nat thisData)
  /\ forall i a d,
       nth_error (t_Ar_obs T) i = Some a ->
       nth_error (t_delPhi_obs T) i = Some d ->
       (a = NaN <-> d = NaN).
Proof.
  intros H.
  destruct (annual_temp_stats_lengths _ _ _ H) as [L1 L2].
  split; [exact L1|]. split; [exact L2|].
  destruct (annual_temp_stats_obs _ _ _ H) as [fits [Ar0 [_ [_ HT]]]].
  intros i a d Ha Hd.
  assert (E1 : t_Ar_obs T = fst (t_Ar_obs T, t_delPhi_obs T)) by reflexivity.
  assert (E2 : t_delPhi_obs T = snd (t_Ar_obs T, t_delPhi_obs T)) by reflexivity.
  rewrite E1, HT in Ha. rewrite E2, HT in Hd.
  apply (Forall_map_filter_segment
           (fun p => fst p = NaN <-> snd p = NaN) _
           (fun p _ => filter_segment_nan_together p) i a d Ha Hd).
Qed.


(* ================================================================== *)
(** * The data requirement of the observed-water fit *)
(* ================================================================== *)

Lemma daily_dates_length (n : nat) : length (daily_dates n) = n.
Proof. unfold daily_dates. rewrite length_map, length_seq. reflexivity. Qed.

Lemma count_finite_repeat (r : R) (n : nat) :
  count_finite (repeat (Fin r) n) = n.
Proof.
  unfold count_finite. induction n as [|n IH]; simpl; [reflexivity|].
  rewrite IH. reflexivity.
Qed.

Lemma count_plausible_repeat (r : R) (n : nat) :
  1 <= r <= 60 -> count_plausible (repeat (Fin r) n) = n.
Proof.
  intros Hr. unfold count_plausible. induction n as [|n IH]; simpl; [reflexivity|].
  fnorm. rewrite (Rltb_false r 1), (Rltb_false 60 r) by lra. simpl.
  f_equal. exact IH.
Qed.

(** With no NaT among the dates, [dropna] keeps one row per plausible
    value. *)
Lemma waterDF_rows_length (date : list datetime64) (tw : list float) :
  dates_known date = true ->
  length date = length tw ->
  length (waterDF_rows date tw) = count_plausible tw.
Proof.
  unfold waterDF_rows, count_plausible, dates_known. revert tw.
  induction date as [|d date IH]; intros [|x tw] Hk Hlen; simpl in *;
    try discriminate; [reflexivity|].
  apply andb_prop in Hk. destruct Hk as [Hd Hk]. rewrite Hd, andb_true_r.
  destruct (negb _ && negb _); simpl; rewrite IH by (assumption || lia);
    reflexivity.
Qed.

Lemma daily_dates_known (n : nat) :
  (n <= 4000)%nat -> dates_known (daily_dates n) = true.
Proof.
  intros Hn. unfold dates_known, daily_dates. apply forallb_forall.
  intros d Hd. apply in_map_iff in Hd. destruct Hd as [k [<- Hk]].
  apply in_seq in Hk. apply negb_true_iff, Z.eqb_neq.
  unfold int64, NaT, ref_date, one_day.
  change (2 ^ 63)%Z with 9223372036854775808%Z.
  change (2 ^ 64)%Z with 18446744073709551616%Z.
  rewrite Z.mod_small by lia. lia.
Qed.

(** When the fit of the observations is attempted and when it is forced
    to six NaN. *)
Lemma water_obs_fit_rows
      (OLS_fit : list float -> list (list float) -> Exc OLSResults)
      (date : list datetime64) (tw : list float) :
  length date = length tw ->
  water_obs_fit OLS_fit date tw
  = if ((365 <? count_finite tw)
        && (365 <=? length (waterDF_rows date tw)))%nat
    then amp_phi OLS_fit (map fst (waterDF_rows date tw))
                 (map snd (waterDF_rows date tw)) true
    else Ok all_nan.
Proof.
  intros Hlen. unfold water_obs_fit.
  rewrite Hlen, Nat.eqb_refl. cbn [negb].
  destruct (365 <? count_finite tw)%nat; cbn [andb]; [|reflexivity].
  destruct (365 <=? length (waterDF_rows date tw))%nat eqn:E.
  - apply Nat.leb_le in E.
    replace (length (waterDF_rows date tw) <? 365)%nat with false
      by (symmetry; apply Nat.ltb_ge; lia).
    reflexivity.
  - apply Nat.leb_gt in E.
    replace (length (waterDF_rows date tw) <? 365)%nat with true
      by (symmetry; apply Nat.ltb_lt; lia).
    reflexivity.
Qed.

Lemma water_obs_fit_cases
      (OLS_fit : list float -> list (list float) -> Exc OLSResults)
      (date : list datetime64) (tw : list float) :
  dates_known date = true ->
  length date = length tw ->
  water_obs_fit OLS_fit date tw
  = if ((365 <? count_finite tw) && (365 <=? count_plausible tw))%nat
    then amp_phi OLS_fit (map fst (waterDF_rows date tw))
                 (map snd (waterDF_rows date tw)) true
    else Ok all_nan.
Proof.
  intros Hk Hlen. rewrite (water_obs_fit_rows _ _ _ Hlen).
  rewrite (waterDF_rows_length _ _ Hk Hlen). reflexivity.
Qed.

(** C2, at the boundary.  A segment with exactly 365 observed water
    temperatures, all of them 10 degrees (so 365 values that are neither
    missing nor outside 1-60 degrees): the regression is not attempted and
    the fit is six NaN, whatever the regression would have returned. *)
Theorem C2_exactly_365_samples_forced_missing
        (OLS_fit : list float -> list (list float) -> Exc OLSResults) :
  count_plausible (repeat (Fin 10) 365) = 365%nat
  /\ water_obs_fit OLS_fit (daily_dates 365) (repeat (Fin 10) 365) = Ok all_nan.
Proof.
  split.
  - apply count_plausible_repeat; lra.
  - rewrite water_obs_fit_rows
      by (rewrite daily_dates_length, repeat_length; reflexivity).
    rewrite count_finite_repeat. reflexivity.
Qed.

(* ================================================================== *)
(** * A sample run of the builder *)
(* ================================================================== *)

Lemma min_idem (x : float) : F.min x x = x.
Proof. unfold F.min. destruct x; simpl; try reflexivity. destruct (Rleb r r); reflexivity. Qed.

Lemma max_idem (x : float) : F.max x x = x.
Proof. unfold F.max. destruct x; simpl; try reflexivity. destruct (Rleb r r); reflexivity. Qed.

Lemma sqrt_3_4 : F.sqrt (F.square (Fin 3) + F.square (Fin 4))%float = Fin 5.
Proof.
  cbn. rewrite Rltb_false by lra. f_equal.
  replace (3 * 3 + 4 * 4) with (5 * 5) by lra. apply sqrt_square; lra.
Qed.

Lemma phase_of_3_4 : phase_of (Fin 3) (Fin 4) = Fin exact_phase.
Proof.
  unfold phase_of, three_pi_half. rewrite div_fin by lra. reflexivity.
Qed.

Lemma amp_phi_try_exact (temp : list float) (X : list (list float)) :
  amp_phi_try ols_exact temp X = Ok exact_harmonic.
Proof.
  unfold amp_phi_try, ols_exact, exact_fit.
  cbn [bind conf_int params index nth_error].
  rewrite math_sqrt_sum_squares. cbn [bind].
  cbn [np_min np_max map fold_left F.abs bind].
  rewrite !min_idem, !max_idem.
  rewrite !math_sqrt_sum_squares. cbn [bind].
  cbn [comp bind index nth_error concat app].
  unfold np_min, np_max. cbn [fold_left bind].
  rewrite !min_idem, !max_idem.
  rewrite !(Rabs_pos_eq 3), !(Rabs_pos_eq 4) by lra.
  rewrite sqrt_3_4, phase_of_3_4. reflexivity.
Qed.

Lemma daily_dates_nonempty (n : nat) : (0 < n)%nat -> daily_dates n <> [].
Proof.
  intros Hn H. apply (f_equal (@length datetime64)) in H.
  rewrite daily_dates_length in H. cbn in H. lia.
Qed.

Lemma amp_phi_exact (Date : list datetime64) (temp : list float) (w : bool) :
  Date <> [] -> amp_phi ols_exact Date temp w = Ok exact_harmonic.
Proof.
  intros H. destruct (design_total Date H) as [X HX].
  rewrite (amp_phi_design _ _ _ _ _ HX), amp_phi_try_exact. reflexivity.
Qed.

Lemma water_obs_fit_exact (n : nat) (r : R) :
  (365 < n <= 4000)%nat -> 1 <= r <= 60 ->
  water_obs_fit ols_exact (daily_dates n) (repeat (Fin r) n) = Ok exact_harmonic.
Proof.
  intros Hn Hr.
  assert (Hk : dates_known (daily_dates n) = true)
    by (apply daily_dates_known; lia).
  assert (Hlen : length (daily_dates n) = length (repeat (Fin r) n))
    by (rewrite daily_dates_length, repeat_length; reflexivity).
  rewrite (water_obs_fit_cases _ _ _ Hk Hlen).
  rewrite count_finite_repeat, count_plausible_repeat by assumption.
  replace (365 <? n)%nat with true by (symmetry; apply Nat.ltb_lt; lia).
  replace (365 <=? n)%nat with true by (symmetry; apply Nat.leb_le; lia).
  cbn [andb]. apply amp_phi_exact.
  assert (Hl : length (map fst (waterDF_rows (daily_dates n) (repeat (Fin r) n)))
               = n).
  { rewrite length_map, (waterDF_rows_length _ _ Hk Hlen).
    apply count_plausible_repeat; assumption. }
  intros E. rewrite E in Hl. cbn in Hl. lia.
Qed.

Lemma annual_temp_stats_exact :
  annual_temp_stats ols_exact (one_segment 366 (Fin 12) (Fin 10) (Fin 10))
  = Ok exact_table.
Proof.
  unfold annual_temp_stats, one_segment.
  cbn [seg_id_nat length seq comp].
  unfold segment_fits.
  cbn [seg_tave_air seg_tave_water_pbm seg_tave_water date index nth_error bind].
  rewrite !amp_phi_exact by (apply daily_dates_nonempty; lia). cbn [bind].
  rewrite water_obs_fit_exact by (try lia; lra). cbn [bind].
  cbn [map fst snd amp phi amp_low amp_high phi_low phi_high exact_harmonic comp2].
  rewrite !py_div_fin by lra. cbn [bind].
  rewrite !div_fin by lra.
  unfold phase_shift_days, two_pi.
  cbn [F.sub F.add F.opp F.mul].
  rewrite !div_fin by apply PI2_neq0. cbn [bind].
  replace ((exact_phase + - exact_phase) * 365 / (2 * PI)) with 0
    by (field; apply PI_neq0).
  replace (5 / 5) with 1 by lra.
  rewrite plausibility_filter_pointwise by reflexivity.
  cbn [bind combine map unzip fst snd].
  unfold filter_segment, rule_i, rule_ii, rule_iii, keep_if_Ar_le,
    keep_if_delPhi_ge, reset_delPhi. cbn [fst snd]. fnorm.
  rewrite (Rleb_true 1 1.1) by lra. rewrite (Rleb_true (-10) 0) by lra.
  rewrite (Rltb_false 0 0) by lra. reflexivity.
Qed.



Lemma C10_Ar_missing_iff_delPhi_missing_witness :
  Fin 1 = NaN <-> Fin 0 = NaN.
Proof.
  apply (proj2 (proj2 (C10_Ar_missing_iff_delPhi_missing
                         ols_exact (one_segment 366 (Fin 12) (Fin 10) (Fin 10))
                         exact_table annual_temp_stats_exact))
               0%nat (Fin 1) (Fin 0)); reflexivity.
Defined.

(* ================================================================== *)
(** * Failed fits in the builder *)
(* ================================================================== *)

Lemma comp_total {A B : Type} (f : A -> Exc B) (xs : list A) :
  (forall x, In x xs -> exists y, f x = Ok y) ->
  exists ys, comp f xs = Ok ys.
Proof.
  induction xs as [|x xs IH]; intros H; simpl.
  - eexists; reflexivity.
  - destruct (H x (or_introl eq_refl)) as [y Hy]. rewrite Hy. cbn [bind].
    destruct IH as [ys Hys]; [intros; apply H; right; assumption|].
    rewrite Hys. cbn [bind]. eexists; reflexivity.
Qed.

Lemma comp_Forall_In {A B : Type} (f : A -> Exc B) (P : B -> Prop) (xs : list A) :
  (forall x y, In x xs -> f x = Ok y -> P y) ->
  forall ys, comp f xs = Ok ys -> Forall P ys.
Proof.
  induction xs as [|x xs IH]; intros Hf ys H; simpl in H.
  - injection H as <-. constructor.
  - destruct (f x) eqn:Ex; simpl in H; [|discriminate].
    destruct (comp f xs) eqn:E; simpl in H; [|discriminate].
    injection H as <-. constructor.
    + eapply Hf; [left; reflexivity | eassumption].
    + apply IH; [|reflexivity]. intros; eapply Hf; [right|]; eassumption.
Qed.

Lemma comp2_py_div_maps {A : Type} (g h : A -> float) (l : list A) :
  Forall (fun x => h x <> Fin 0) l ->
  comp2 py_div (map g l) (map h l) = Ok (map (fun x => (g x / h x)%float) l).
Proof.
  induction 1 as [|x l Hx _ IH]; [reflexivity|].
  cbn [map comp2]. rewrite IH.
  assert (E : py_div (g x) (h x) = Ok (g x / h x)%float).
  { unfold py_div. destruct (h x) as [| | |r]; try reflexivity.
    rewrite Reqb_false; [reflexivity|]. intros ->. apply Hx; reflexivity. }
  rewrite E. reflexivity.
Qed.

Lemma comp2_pure_maps {A : Type} (k : float -> float -> float)
      (g h : A -> float) (l : list A) :
  comp2 (fun w a => Ok (k w a)) (map g l) (map h l)
  = Ok (map (fun x => k (g x) (h x)) l).
Proof.
  induction l as [|x l IH]; [reflexivity|].
  cbn [map comp2 bind]. rewrite IH. reflexivity.
Qed.

Lemma plausibility_filter_maps {A : Type} (g h : A -> float) (l : list A) :
  plausibility_filter (map g l) (map h l)
  = Ok (map (fun x => fst (filter_segment (g x, h x))) l,
        map (fun x => snd (filter_segment (g x, h x))) l).
Proof.
  rewrite plausibility_filter_pointwise by (rewrite !length_map; reflexivity).
  rewrite map_fst_combine_map. unfold unzip. rewrite !map_map. reflexivity.
Qed.

Section FailedFits.

Variable OLS_fit : list float -> list (list float) -> Exc OLSResults.

(** When no division raises, the table is [table_of_fits]. *)
Lemma annual_temp_stats_closed_form (thisData : Dataset)
      (fits : list (HarmonicFit * HarmonicFit * HarmonicFit)) :
  comp (segment_fits OLS_fit thisData) (seq 0 (length (seg_id_nat thisData)))
  = Ok fits ->
  Forall (fun f => nonzero_amplitudes (air_fit f)) fits ->
  annual_temp_stats OLS_fit thisData
  = Ok (table_of_fits (seg_id_nat thisData) fits).
Proof.
  intros Hf Hnz. unfold annual_temp_stats. rewrite Hf. cbn [bind].
  rewrite !map_map.
  change (fun x : HarmonicFit * HarmonicFit * HarmonicFit => amp (snd x))
    with (fun x => amp (obs_fit x)).
  change (fun x : HarmonicFit * HarmonicFit * HarmonicFit => amp (fst (fst x)))
    with (fun x => amp (air_fit x)).
  rewrite (comp2_py_div_maps (fun x => amp (obs_fit x)) (fun x => amp (air_fit x)))
    by (eapply Forall_impl; [|exact Hnz]; intros f Hf'; apply Hf').
  cbn [bind].
  rewrite (comp2_pure_maps phase_shift_days). cbn [bind].
  rewrite (comp2_py_div_maps (fun x => amp_low (snd x))
                             (fun x => amp_high (fst (fst x))))
    by (eapply Forall_impl; [|exact Hnz]; intros f Hf'; apply Hf').
  cbn [bind].
  rewrite (comp2_py_div_maps (fun x => amp_high (snd x))
                             (fun x => amp_low (fst (fst x))))
    by (eapply Forall_impl; [|exact Hnz]; intros f Hf'; apply Hf').
  cbn [bind].
  rewrite !(comp2_pure_maps phase_shift_days). cbn [bind].
  rewrite plausibility_filter_maps. cbn [bind fst snd].
  rewrite (comp2_py_div_maps (fun x => amp (snd (fst x)))
                             (fun x => amp (air_fit x)))
    by (eapply Forall_impl; [|exact Hnz]; intros f Hf'; apply Hf').
  cbn [bind]. reflexivity.
Qed.

Lemma amp_phi_total (Date : list datetime64) (temp : list float) (w : bool) :
  Date <> [] -> exists f, amp_phi OLS_fit Date temp w = Ok f.
Proof.
  intros H. destruct (design_total Date H) as [X HX].
  rewrite (amp_phi_design _ _ _ _ _ HX). eexists; reflexivity.
Qed.

(** The rows that pass the data requirement are never empty. *)
Lemma waterDF_rows_nonempty (date : list datetime64) (tw : list float) :
  (365 <=? length (waterDF_rows date tw))%nat = true ->
  map fst (waterDF_rows date tw) <> [].
Proof.
  intros Hc E. apply Nat.leb_le in Hc.
  apply (f_equal (@length datetime64)) in E.
  rewrite length_map in E. cbn in E. lia.
Qed.

Lemma water_obs_fit_total (date : list datetime64) (tw : list float) :
  length date = length tw ->
  exists f, water_obs_fit OLS_fit date tw = Ok f.
Proof.
  intros Hlen. rewrite water_obs_fit_rows by assumption.
  destruct (365 <? count_finite tw)%nat; cbn [andb]; [|eexists; reflexivity].
  destruct (365 <=? length (waterDF_rows date tw))%nat eqn:E;
    [|eexists; reflexivity].
  apply amp_phi_total, waterDF_rows_nonempty; assumption.
Qed.

Lemma index_total {A : Type} (l : list A) (i : nat) :
  (i < length l)%nat -> exists a, index l i = Ok a /\ In a l.
Proof.
  intros Hi. unfold index. destruct (nth_error l i) as [a|] eqn:E.
  - exists a. split; [reflexivity | eapply nth_error_In; eassumption].
  - apply nth_error_None in E. lia.
Qed.

Lemma segment_fits_total (thisData : Dataset) (i : nat) :
  well_formed thisData ->
  date thisData <> [] ->
  (i < length (seg_id_nat thisData))%nat ->
  exists f, segment_fits OLS_fit thisData i = Ok f.
Proof.
  intros [Ha [Hp [Ho Hlen]]] Hd Hi. unfold segment_fits.
  destruct (index_total (seg_tave_air thisData) i) as [a [-> _]]; [lia|].
  cbn [bind]. destruct (amp_phi_total (date thisData) a false Hd) as [fa ->].
  cbn [bind].
  destruct (index_total (seg_tave_water_pbm thisData) i) as [p [-> _]]; [lia|].
  cbn [bind]. destruct (amp_phi_total (date thisData) p true Hd) as [fp ->].
  cbn [bind].
  destruct (index_total (seg_tave_water thisData) i) as [o [-> Hin]]; [lia|].
  cbn [bind]. rewrite Forall_forall in Hlen.
  destruct (water_obs_fit_total (date thisData) o (Hlen o Hin)) as [fo ->].
  cbn [bind]. eexists; reflexivity.
Qed.

Lemma segment_fits_air (thisData : Dataset) (i : nat)
      (f : HarmonicFit * HarmonicFit * HarmonicFit) :
  segment_fits OLS_fit thisData i = Ok f ->
  exists air_i, In air_i (seg_tave_air thisData)
                /\ amp_phi OLS_fit (date thisData) air_i false = Ok (air_fit f).
Proof.
  unfold segment_fits, index. intros H.
  destruct (nth_error (seg_tave_air thisData) i) as [a|] eqn:Ea;
    cbn [bind] in H; [|discriminate].
  destruct (amp_phi OLS_fit (date thisData) a false) as [fa|] eqn:Efa;
    cbn [bind] in H; [|discriminate].
  repeat match type of H with
         | bind ?m _ = Ok _ => destruct m; cbn [bind] in H; [|discriminate]
         end.
  injection H as <-. exists a. split; [eapply nth_error_In; eassumption|].
  exact Efa.
Qed.

(** A well-formed dataset whose air fits have no zero amplitude goes
    through the builder without an exception. *)
Lemma annual_temp_stats_total (thisData : Dataset) :
  well_formed thisData ->
  date thisData <> [] ->
  nonzero_air_amplitudes OLS_fit thisData ->
  exists fits,
    comp (segment_fits OLS_fit thisData) (seq 0 (length (seg_id_nat thisData)))
    = Ok fits
    /\ annual_temp_stats OLS_fit thisData
       = Ok (table_of_fits (seg_id_nat thisData) fits).
Proof.
  intros Hwf Hd Hnz.
  destruct (comp_total (segment_fits OLS_fit thisData)
                       (seq 0 (length (seg_id_nat thisData)))) as [fits Hf].
  { intros i Hi. apply in_seq in Hi.
    apply segment_fits_total; [assumption | assumption | lia]. }
  exists fits. split; [exact Hf|].
  apply annual_temp_stats_closed_form; [exact Hf|].
  apply (comp_Forall _ (fun f => nonzero_amplitudes (air_fit f)) _) with (2 := Hf).
  intros i f Hi. destruct (segment_fits_air _ _ _ Hi) as [a [Hin Ha]].
  eapply Hnz; eassumption.
Qed.

End FailedFits.

Lemma div_nan_l (y : float) : (NaN / y)%float = NaN.
Proof. reflexivity. Qed.

Lemma div_nan_r (x : float) : (x / NaN)%float = NaN.
Proof. destruct x; reflexivity. Qed.

Lemma phase_shift_days_nan_l (a : float) : phase_shift_days NaN a = NaN.
Proof. reflexivity. Qed.

Lemma phase_shift_days_nan_r (w : float) : phase_shift_days w NaN = NaN.
Proof. destruct w; reflexivity. Qed.

Lemma filter_segment_nan : filter_segment (NaN, NaN) = (NaN, NaN).
Proof. reflexivity. Qed.

Lemma table_of_fits_obs_nan (ids : list Z)
      (fits : list (HarmonicFit * HarmonicFit * HarmonicFit)) (i : nat)
      (f : HarmonicFit * HarmonicFit * HarmonicFit) :
  nth_error fits i = Some f ->
  obs_fit f = all_nan \/ air_fit f = all_nan ->
  obs_fields_nan (table_of_fits ids fits) i.
Proof.
  intros Hi H. unfold obs_fields_nan, table_of_fits.
  cbn [t_Ar_obs t_delPhi_obs t_Ar_low_obs t_Ar_high_obs t_delPhi_low_obs
       t_delPhi_high_obs].
  rewrite !nth_error_map, Hi. cbn [option_map].
  unfold raw_Ar_obs, raw_delPhi_obs.
  destruct H as [-> | ->]; cbn [amp phi amp_low amp_high phi_low phi_high all_nan];
    rewrite ?div_nan_l, ?div_nan_r, ?phase_shift_days_nan_l,
      ?phase_shift_days_nan_r, ?filter_segment_nan;
    repeat split; reflexivity.
Qed.

Lemma table_of_fits_pbm_nan (ids : list Z)
      (fits : list (HarmonicFit * HarmonicFit * HarmonicFit)) (i : nat)
      (f : HarmonicFit * HarmonicFit * HarmonicFit) :
  nth_error fits i = Some f ->
  pbm_fit f = all_nan \/ air_fit f = all_nan ->
  pbm_fields_nan (table_of_fits ids fits) i.
Proof.
  intros Hi H. unfold pbm_fields_nan, table_of_fits.
  cbn [t_Ar_pbm t_delPhi_pbm].
  rewrite !nth_error_map, Hi. cbn [option_map].
  destruct H as [-> | ->]; cbn [amp phi all_nan];
    rewrite ?div_nan_l, ?div_nan_r, ?phase_shift_days_nan_l,
      ?phase_shift_days_nan_r;
    repeat split; reflexivity.
Qed.

(** C8, as amended.  On at least one date [amp_phi] never raises; when
    anything in its [try] block raises, in particular the regression, it
    returns six NaN; and on a well-formed dataset with at least one date,
    none of whose air fits has a zero amplitude or a zero amplitude bound,
    [annual_temp_stats] returns a table in which a segment whose observed
    (modelled, air) fit is six NaN has NaN in every derived field of the
    observations (of the model, of both).  Without a date [amp_phi] raises
    [ValueError], whatever the regression does. *)
Theorem C8_failed_fit_is_missing_and_propagates :
  (forall OLS_fit Date temp w,
      Date <> [] -> exists f, amp_phi OLS_fit Date temp w = Ok f)
  /\ (forall OLS_fit Date temp w X e,
         design Date = Ok X ->
         amp_phi_try OLS_fit (ols_input temp w) X = Raise e ->
         amp_phi OLS_fit Date temp w = Ok all_nan)
  /\ (forall OLS_fit Date temp w X e,
         design Date = Ok X ->
         OLS_fit (ols_input temp w) X = Raise e ->
         amp_phi OLS_fit Date temp w = Ok all_nan)
  /\ (forall OLS_fit thisData,
         well_formed thisData ->
         date thisData <> [] ->
         nonzero_air_amplitudes OLS_fit thisData ->
         exists fits T,
           comp (segment_fits OLS_fit thisData)
                (seq 0 (length (seg_id_nat thisData))) = Ok fits
           /\ annual_temp_stats OLS_fit thisData = Ok T
           /\ forall i f,
               nth_error fits i = Some f ->
               (obs_fit f = all_nan -> obs_fields_nan T i)
               /\ (pbm_fit f = all_nan -> pbm_fields_nan T i)
               /\ (air_fit f = all_nan ->
                   obs_fields_nan T i /\ pbm_fields_nan T i))
  /\ (forall OLS_fit temp w, amp_phi OLS_fit [] temp w = Raise ValueError).
Proof.
  split; [|split; [|split; [|split]]]; [| | | |intros; apply amp_phi_empty].
  - intros. apply amp_phi_total. assumption.
  - intros OLS_fit Date temp w X e HX H.
    rewrite (amp_phi_design _ _ _ _ _ HX), H. reflexivity.
  - intros OLS_fit Date temp w X e HX H.
    rewrite (amp_phi_design _ _ _ _ _ HX).
    unfold amp_phi_try. rewrite H. reflexivity.
  - intros OLS_fit thisData Hwf Hd Hnz.
    destruct (annual_temp_stats_total OLS_fit thisData Hwf Hd Hnz)
      as [fits [Hf HT]].
    exists fits, (table_of_fits (seg_id_nat thisData) fits).
    split; [exact Hf|]. split; [exact HT|].
    intros i f Hi. split; [|split].
    + intros H. eapply table_of_fits_obs_nan; eauto.
    + intros H. eapply table_of_fits_pbm_nan; eauto.
    + intros H. split;
        [eapply table_of_fits_obs_nan | eapply table_of_fits_pbm_nan]; eauto.
Qed.

Lemma sqrt_0_0 : F.sqrt (F.square (Fin 0) + F.square (Fin 0))%float = Fin 0.
Proof.
  cbn. rewrite Rltb_false by lra. f_equal.
  replace (0 * 0 + 0 * 0) with 0 by lra. apply sqrt_0.
Qed.

Lemma amp_phi_try_zero (temp : list float) (X : list (list float)) :
  existsb F.isfinite temp = true ->
  amp_phi_try ols_zero_or_fail temp X = Ok zero_harmonic.
Proof.
  intros Hfin. unfold amp_phi_try, ols_zero_or_fail, zero_fit. rewrite Hfin.
  cbn [bind conf_int params index nth_error].
  rewrite math_sqrt_sum_squares. cbn [bind].
  cbn [np_min np_max map fold_left F.abs bind].
  rewrite !min_idem, !max_idem.
  rewrite !math_sqrt_sum_squares. cbn [bind].
  cbn [comp bind index nth_error concat app].
  rewrite Rabs_R0, sqrt_0_0, phase_of_zero. reflexivity.
Qed.

Lemma existsb_repeat_fin (r : R) (n : nat) :
  existsb F.isfinite (repeat (Fin r) (S n)) = true.
Proof. reflexivity. Qed.

Lemma existsb_repeat_nan (n : nat) :
  existsb F.isfinite (map water_band (repeat NaN n)) = false.
Proof. induction n as [|n IH]; [reflexivity|]. cbn. exact IH. Qed.

Lemma count_finite_repeat_nan (n : nat) : count_finite (repeat NaN n) = 0%nat.
Proof. unfold count_finite. induction n as [|n IH]; [reflexivity|]. exact IH. Qed.

(** C8, as stated, fails twice.  Without a date [sm.add_constant] raises
    [ValueError] ahead of the [try] block, in [amp_phi] and so in the
    builder.  And with one segment, 366 days, air temperature 0 on every
    day and no water temperature at all, the fit of the observations is
    six NaN, the air fit has amplitude 0, and the builder raises
    [ZeroDivisionError] on [water_amp_obs[0]/air_amp[0]]. *)
Lemma C8_estimator_and_builder_raise :
  amp_phi ols_exact [] [] false = Raise ValueError
  /\ well_formed (one_segment 0 (Fin 12) (Fin 10) (Fin 10))
  /\ annual_temp_stats ols_exact (one_segment 0 (Fin 12) (Fin 10) (Fin 10))
     = Raise ValueError
  /\ water_obs_fit ols_zero_or_fail (daily_dates 366) (repeat NaN 366) = Ok all_nan
  /\ amp_phi ols_zero_or_fail (daily_dates 366) (repeat (Fin 0) 366) false
     = Ok zero_harmonic
  /\ annual_temp_stats ols_zero_or_fail (one_segment 366 (Fin 0) NaN NaN)
     = Raise ZeroDivisionError.
Proof.
  assert (Hd : daily_dates 366 <> []) by (apply daily_dates_nonempty; lia).
  destruct (design_total _ Hd) as [X HX].
  assert (Hobs : water_obs_fit ols_zero_or_fail (daily_dates 366) (repeat NaN 366)
                 = Ok all_nan).
  { unfold water_obs_fit. rewrite count_finite_repeat_nan. reflexivity. }
  assert (Hair : amp_phi ols_zero_or_fail (daily_dates 366) (repeat (Fin 0) 366) false
                 = Ok zero_harmonic).
  { rewrite (amp_phi_design _ _ _ _ _ HX), amp_phi_try_zero; [reflexivity|].
    apply existsb_repeat_fin. }
  assert (Hpbm : amp_phi ols_zero_or_fail (daily_dates 366) (repeat NaN 366) true
                 = Ok all_nan).
  { rewrite (amp_phi_design _ _ _ _ _ HX).
    unfold amp_phi_try, ols_zero_or_fail, ols_input.
    rewrite existsb_repeat_nan. reflexivity. }
  split; [apply amp_phi_empty|].
  split; [unfold well_formed, one_segment; cbn; repeat split; repeat constructor|].
  split.
  { unfold annual_temp_stats, one_segment.
    cbn [seg_id_nat length seq comp]. unfold segment_fits.
    cbn [seg_tave_air seg_tave_water_pbm seg_tave_water date index nth_error bind
         daily_dates seq map].
    rewrite amp_phi_empty. reflexivity. }
  split; [exact Hobs|]. split; [exact Hair|].
  unfold annual_temp_stats, one_segment.
  cbn [seg_id_nat length seq comp].
  unfold segment_fits.
  cbn [seg_tave_air seg_tave_water_pbm seg_tave_water date index nth_error bind].
  rewrite Hair. cbn [bind]. rewrite Hpbm. cbn [bind]. rewrite Hobs. cbn [bind].
  cbn [map fst snd amp all_nan zero_harmonic comp2].
  unfold py_div. rewrite Reqb_true by reflexivity. reflexivity.
Qed.

Lemma ols_exact_nonzero (n : nat) (air pbm obs : float) :
  nonzero_air_amplitudes ols_exact (one_segment n air pbm obs).
Proof.
  intros a f _ H. apply amp_phi_inv in H. destruct H as [X [_ ->]].
  rewrite amp_phi_try_exact. unfold nonzero_amplitudes; cbn.
  repeat split; intros E; injection E as E; lra.
Qed.

Lemma one_segment_well_formed (n : nat) (air pbm obs : float) :
  well_formed (one_segment n air pbm obs).
Proof.
  unfold well_formed, one_segment; cbn.
  repeat split; try reflexivity.
  constructor; [|constructor].
  rewrite daily_dates_length, repeat_length. reflexivity.
Qed.

Lemma C8_failed_fit_is_missing_and_propagates_witness :
  (exists f,
      amp_phi ols_zero_or_fail (daily_dates 366) (repeat NaN 366) true = Ok f)
  /\ amp_phi ols_zero_or_fail (daily_dates 366) (repeat NaN 366) true
     = Ok all_nan
  /\ exists fits T,
      comp (segment_fits ols_exact (one_segment 366 (Fin 12) (Fin 10) NaN))
           (seq 0 1) = Ok fits
      /\ annual_temp_stats ols_exact (one_segment 366 (Fin 12) (Fin 10) NaN)
         = Ok T
      /\ forall i f,
          nth_error fits i = Some f ->
          (obs_fit f = all_nan -> obs_fields_nan T i)
          /\ (pbm_fit f = all_nan -> pbm_fields_nan T i)
          /\ (air_fit f = all_nan ->
              obs_fields_nan T i /\ pbm_fields_nan T i).
Proof.
  assert (Hd : daily_dates 366 <> []) by (apply daily_dates_nonempty; lia).
  split; [|split].
  - apply (proj1 C8_failed_fit_is_missing_and_propagates
                 ols_zero_or_fail (daily_dates 366) (repeat NaN 366) true Hd).
  - destruct (design_total _ Hd) as [X HX].
    apply (proj1 (proj2 (proj2 C8_failed_fit_is_missing_and_propagates))
                 ols_zero_or_fail (daily_dates 366) (repeat NaN 366) true
                 X LibraryError HX).
    unfold ols_zero_or_fail, ols_input. rewrite existsb_repeat_nan. reflexivity.
  - apply (proj1 (proj2 (proj2 (proj2 C8_failed_fit_is_missing_and_propagates)))
                 ols_exact (one_segment 366 (Fin 12) (Fin 10) NaN)).
    + apply one_segment_well_formed.
    + exact Hd.
    + apply ols_exact_nonzero.
Defined.

(* ================================================================== *)
(** * Masked statistics and rmse *)
(* ================================================================== *)

Lemma add_square_zero_l (x : float) : (F.square (Fin 0) + x)%float = x.
Proof. destruct x; cbn; try reflexivity. f_equal. ring. Qed.

Lemma add_zero_l (x : float) : (Fin 0 + x)%float = x.
Proof. destruct x; cbn; try reflexivity. f_equal. ring. Qed.

Lemma count_non_nan (y : tensor) :
  tf_count_nonzero (map negb (tf_is_nan y)) = length (non_missing y).
Proof.
  unfold tf_count_nonzero, tf_is_nan, non_missing.
  induction y as [|x y IH]; [reflexivity|].
  cbn [map filter]. destruct (negb (F.isnan x)); cbn [length]; rewrite IH; reflexivity.
Qed.

Lemma valid_pairs_length (y_true y_pred : tensor) :
  length y_true = length y_pred ->
  length (valid_pairs y_true y_pred) = length (non_missing y_true).
Proof.
  unfold valid_pairs, non_missing. revert y_pred.
  induction y_true as [|t y_true IH]; intros [|p y_pred] Hlen; simpl in *;
    try discriminate; [reflexivity|].
  destruct (negb (F.isnan t)); simpl; rewrite IH by lia; reflexivity.
Qed.

Lemma sum_squared_errors_valid (y_true y_pred : tensor) :
  length y_true = length y_pred ->
  tf_reduce_sum
    (tf_square (tf_where (tf_is_nan y_true) (tf_zeros_like y_true)
                         (tf_sub y_pred y_true)))
  = tf_reduce_sum (map (fun p => F.square (snd p - fst p)%float)
                       (valid_pairs y_true y_pred)).
Proof.
  unfold valid_pairs. revert y_pred.
  induction y_true as [|t y_true IH]; intros [|p y_pred] Hlen; simpl in *;
    try discriminate; [reflexivity|].
  specialize (IH y_pred ltac:(lia)).
  unfold tf_reduce_sum, tf_square, tf_is_nan, tf_zeros_like in *.
  destruct (F.isnan t) eqn:E; cbn [negb map fold_right fst snd].
  - rewrite IH. apply add_square_zero_l.
  - rewrite IH. reflexivity.
Qed.

Lemma all_nan_non_missing (y : tensor) :
  Forall (fun t => t = NaN) y -> non_missing y = [].
Proof.
  induction 1 as [|t y -> _ IH]; [reflexivity|]. cbn. exact IH.
Qed.

Lemma some_non_missing (y : tensor) :
  Exists (fun t => t <> NaN) y -> (0 < length (non_missing y))%nat.
Proof.
  induction 1 as [t y Ht | t y _ IH].
  - unfold non_missing; cbn [filter]. destruct t; cbn; try lia. contradiction.
  - unfold non_missing in *; cbn [filter]. destruct (negb (F.isnan t)); cbn; lia.
Qed.

(** C6.  For tensors of one shape: if every entry of [y_true] is NaN,
    [rmse] is exactly 0 (a number, not NaN); if some entry is not NaN,
    [rmse] is the root-mean-square error over the positions where
    [y_true] is not NaN. *)
Theorem C6_rmse_masked_or_zero (y_true y_pred : tensor) :
  length y_true = length y_pred ->
  (Forall (fun t => t = NaN) y_true -> rmse y_true y_pred = Fin 0)
  /\ (Exists (fun t => t <> NaN) y_true ->
      rmse y_true y_pred = rms_error (valid_pairs y_true y_pred)).
Proof.
  intros Hlen. unfold rmse. rewrite count_non_nan. split.
  - intros Hall. rewrite all_nan_non_missing by assumption.
    unfold tf_cast; cbn [length INR]. fnorm. rewrite Rltb_false by lra.
    reflexivity.
  - intros Hex. apply some_non_missing in Hex.
    unfold tf_cast. fnorm. rewrite Rltb_true by (apply lt_0_INR; exact Hex).
    rewrite sum_squared_errors_valid by assumption.
    unfold rms_error. rewrite valid_pairs_length by assumption. reflexivity.
Qed.

Lemma C6_rmse_masked_or_zero_witness :
  (Forall (fun t => t = NaN) [NaN; NaN] -> rmse [NaN; NaN] [Fin 1; Fin 2] = Fin 0)
  /\ (Exists (fun t => t <> NaN) [NaN; NaN] ->
      rmse [NaN; NaN] [Fin 1; Fin 2] = rms_error (valid_pairs [NaN; NaN] [Fin 1; Fin 2])).
Proof.
  apply (C6_rmse_masked_or_zero [NaN; NaN] [Fin 1; Fin 2]). reflexivity.
Defined.

Lemma where_nan_zero_else (f : float -> float) (y : tensor) :
  tf_reduce_sum (tf_where (tf_is_nan y) (tf_zeros_like y) (map f y))
  = tf_reduce_sum (map f (non_missing y)).
Proof.
  unfold tf_reduce_sum, tf_is_nan, tf_zeros_like, non_missing.
  induction y as [|x y IH]; [reflexivity|].
  cbn [map tf_where filter]. destruct (F.isnan x); cbn [negb fold_right map].
  - rewrite IH. apply add_zero_l.
  - rewrite IH. reflexivity.
Qed.

Lemma where_nan_zero_else_square (f : float -> float) (y : tensor) :
  tf_reduce_sum (tf_square (tf_where (tf_is_nan y) (tf_zeros_like y) (map f y)))
  = tf_reduce_sum (map (fun x => F.square (f x)) (non_missing y)).
Proof.
  unfold tf_reduce_sum, tf_square, tf_is_nan, tf_zeros_like, non_missing.
  induction y as [|x y IH]; [reflexivity|].
  cbn [map tf_where filter]. destruct (F.isnan x); cbn [negb fold_right map].
  - rewrite IH. apply add_square_zero_l.
  - rewrite IH. reflexivity.
Qed.

Lemma mean_masked_is_mean (y : tensor) : mean_masked y = mean (non_missing y).
Proof.
  unfold mean_masked, mean. rewrite count_non_nan.
  rewrite <- (map_id y) at 3. rewrite where_nan_zero_else, map_id. reflexivity.
Qed.

(** C7.  When at least two entries of [y] are not NaN, [mean_masked y] is
    the ordinary mean of the entries that are not NaN and [std_masked y]
    is their ordinary sample standard deviation (denominator n - 1). *)
Theorem C7_masked_mean_std_are_subset_statistics (y : tensor) :
  (2 <= length (non_missing y))%nat ->
  mean_masked y = mean (non_missing y)
  /\ std_masked y = sample_std (non_missing y).
Proof.
  intros _. split; [apply mean_masked_is_mean|].
  unfold std_masked, dev_masked, sample_std, tf_sub_scalar.
  rewrite where_nan_zero_else_square, count_non_nan, mean_masked_is_mean.
  reflexivity.
Qed.

Lemma C7_masked_mean_std_are_subset_statistics_witness :
  mean_masked [Fin 1; NaN; Fin 3] = mean (non_missing [Fin 1; NaN; Fin 3])
  /\ std_masked [Fin 1; NaN; Fin 3] = sample_std (non_missing [Fin 1; NaN; Fin 3]).
Proof.
  apply (C7_masked_mean_std_are_subset_statistics [Fin 1; NaN; Fin 3]).
  cbn. lia.
Defined.

(* ================================================================== *)
(** * Amplitude and phase from the fitted coefficients *)
(* ================================================================== *)

(** A linear system with a non-zero determinant has only the zero
    solution. *)
Lemma lin3_kernel (g00 g01 g02 g10 g11 g12 g20 g21 g22 x0 x1 x2 : R) :
  det3 g00 g01 g02 g10 g11 g12 g20 g21 g22 <> 0 ->
  g00 * x0 + g01 * x1 + g02 * x2 = 0 ->
  g10 * x0 + g11 * x1 + g12 * x2 = 0 ->
  g20 * x0 + g21 * x1 + g22 * x2 = 0 ->
  x0 = 0 /\ x1 = 0 /\ x2 = 0.
Proof.
  intros Hdet E0 E1 E2.
  set (d := det3 g00 g01 g02 g10 g11 g12 g20 g21 g22) in *.
  assert (H0 : d * x0 = 0).
  { replace (d * x0) with
      ((g11 * g22 - g12 * g21) * (g00 * x0 + g01 * x1 + g02 * x2)
       - (g01 * g22 - g02 * g21) * (g10 * x0 + g11 * x1 + g12 * x2)
       + (g01 * g12 - g02 * g11) * (g20 * x0 + g21 * x1 + g22 * x2))
      by (unfold d, det3; ring).
    rewrite E0, E1, E2. ring. }
  assert (H1 : d * x1 = 0).
  { replace (d * x1) with
      (- (g10 * g22 - g12 * g20) * (g00 * x0 + g01 * x1 + g02 * x2)
       + (g00 * g22 - g02 * g20) * (g10 * x0 + g11 * x1 + g12 * x2)
       - (g00 * g12 - g02 * g10) * (g20 * x0 + g21 * x1 + g22 * x2))
      by (unfold d, det3; ring).
    rewrite E0, E1, E2. ring. }
  assert (H2 : d * x2 = 0).
  { replace (d * x2) with
      ((g10 * g21 - g11 * g20) * (g00 * x0 + g01 * x1 + g02 * x2)
       - (g00 * g21 - g01 * g20) * (g10 * x0 + g11 * x1 + g12 * x2)
       + (g00 * g11 - g01 * g10) * (g20 * x0 + g21 * x1 + g22 * x2))
      by (unfold d, det3; ring).
    rewrite E0, E1, E2. ring. }
  repeat split.
  - destruct (Rmult_integral _ _ H0); [contradiction | assumption].
  - destruct (Rmult_integral _ _ H1); [contradiction | assumption].
  - destruct (Rmult_integral _ _ H2); [contradiction | assumption].
Qed.

Lemma sum_over_plus (pts : list point) (g h : point -> R) :
  sum_over pts (fun p => g p + h p) = sum_over pts g + sum_over pts h.
Proof. induction pts as [|p pts IH]; simpl; [lra | rewrite IH; lra]. Qed.

Lemma sum_over_scal (pts : list point) (k : R) (g : point -> R) :
  sum_over pts (fun p => k * g p) = k * sum_over pts g.
Proof. induction pts as [|p pts IH]; simpl; [lra | rewrite IH; lra]. Qed.

Lemma sum_over_ext (pts : list point) (g h : point -> R) :
  (forall p, In p pts -> g p = h p) -> sum_over pts g = sum_over pts h.
Proof.
  induction pts as [|p pts IH]; intros H; simpl; [reflexivity|].
  rewrite (H p (or_introl eq_refl)), IH; [reflexivity|].
  intros q Hq. apply H. right; exact Hq.
Qed.

(** On points that lie on [c0 + a0 sin + b0 cos], with a design of full
    rank, the normal equations have the one solution [(c0, a0, b0)]. *)
Lemma normal_equations_unique (pts : list point) (c0 a0 b0 c a b : R) :
  (forall p, In p pts -> p_temp p = c0 + a0 * p_sin p + b0 * p_cos p) ->
  gram_det pts <> 0 ->
  normal_equations pts c a b ->
  c = c0 /\ a = a0 /\ b = b0.
Proof.
  intros Hon Hdet [E0 [E1 E2]].
  assert (Hres : forall w : point -> R,
             sum_over pts (fun p => w p * residual c a b p)
             = (c - c0) * sum_over pts (fun p => w p * 1)
               + (a - a0) * sum_over pts (fun p => w p * p_sin p)
               + (b - b0) * sum_over pts (fun p => w p * p_cos p)).
  { intros w. rewrite <- !sum_over_scal, <- !sum_over_plus.
    apply sum_over_ext. intros p Hp. unfold residual. rewrite (Hon p Hp). ring. }
  assert (E0' : sum_over pts (fun p => 1 * residual c a b p) = 0).
  { rewrite <- E0. apply sum_over_ext. intros; ring. }
  rewrite Hres in E0', E1, E2.
  unfold gram_det in Hdet. cbv zeta in Hdet.
  destruct (lin3_kernel _ _ _ _ _ _ _ _ _ (c - c0) (a - a0) (b - b0) Hdet)
    as [H0 [H1 H2]].
  - rewrite <- E0'. 
    rewrite (sum_over_ext pts (fun _ => 1) (fun p => 1 * 1)) by (intros; ring).
    rewrite (sum_over_ext pts p_sin (fun p => 1 * p_sin p)) by (intros; ring).
    rewrite (sum_over_ext pts p_cos (fun p => 1 * p_cos p)) by (intros; ring).
    ring.
  - rewrite <- E1.
    rewrite (sum_over_ext pts p_sin (fun p => p_sin p * 1)) by (intros; ring).
    ring.
  - rewrite <- E2.
    rewrite (sum_over_ext pts p_cos (fun p => p_cos p * 1)) by (intros; ring).
    rewrite (sum_over_ext pts (fun p => p_sin p * p_cos p)
                          (fun p => p_cos p * p_sin p)) by (intros; ring).
    ring.
  - lra.
Qed.

Lemma sqrt_squares_fin (a b : R) :
  F.sqrt (F.square (Fin a) + F.square (Fin b))%float = Fin (sqrt (a * a + b * b)).
Proof. cbn. rewrite Rltb_false by nra. reflexivity. Qed.

Lemma phase_of_fin (a b : R) :
  a <> 0 -> phase_of (Fin a) (Fin b) = Fin (3 * PI / 2 - atan (b / a)).
Proof.
  intros Ha. unfold phase_of, three_pi_half. rewrite div_fin by assumption.
  reflexivity.
Qed.

(* ------------------------------------------------------------------ *)
(** ** A design of full rank gets its column of ones *)

Lemma max_NInf (x v : float) : F.max x v = NInf -> x = NInf /\ v = NInf.
Proof.
  unfold F.max. destruct x, v; cbn; try discriminate; auto.
  destruct (Rleb r r0); discriminate.
Qed.

Lemma min_PInf (x v : float) : F.min x v = PInf -> x = PInf /\ v = PInf.
Proof.
  unfold F.min. destruct x, v; cbn; try discriminate; auto.
  destruct (Rleb r r0); discriminate.
Qed.

Lemma max_fin (x v : float) (m : R) :
  F.max x v = Fin m ->
  (x = NInf \/ exists r, x = Fin r /\ r <= m)
  /\ (v = NInf \/ exists r, v = Fin r /\ r <= m).
Proof.
  unfold F.max. destruct x as [| | |a], v as [| | |b]; cbn;
    try discriminate; intros H.
  - injection H as <-. split; [left; reflexivity|].
    right; exists b; split; [reflexivity|lra].
  - injection H as <-. split; [|left; reflexivity].
    right; exists a; split; [reflexivity|lra].
  - destruct (Rleb a b) eqn:E; injection H as <-.
    + apply Rleb_spec in E. split; right; eexists; (split; [reflexivity|lra]).
    + unfold Rleb in E. destruct (Rle_dec a b); [discriminate|].
      split; right; eexists; (split; [reflexivity|lra]).
Qed.

Lemma min_fin (x v : float) (m : R) :
  F.min x v = Fin m ->
  (x = PInf \/ exists r, x = Fin r /\ m <= r)
  /\ (v = PInf \/ exists r, v = Fin r /\ m <= r).
Proof.
  unfold F.min. destruct x as [| | |a], v as [| | |b]; cbn;
    try discriminate; intros H.
  - injection H as <-. split; [left; reflexivity|].
    right; exists b; split; [reflexivity|lra].
  - injection H as <-. split; [|left; reflexivity].
    right; exists a; split; [reflexivity|lra].
  - destruct (Rleb a b) eqn:E; injection H as <-.
    + apply Rleb_spec in E. split; right; eexists; (split; [reflexivity|lra]).
    + unfold Rleb in E. destruct (Rle_dec a b); [discriminate|].
      split; right; eexists; (split; [reflexivity|lra]).
Qed.

(** A finite running maximum is above every entry, a finite running
    minimum below. *)
Lemma fold_max_fin (xs : list float) :
  forall x m,
    fold_left F.max xs x = Fin m ->
    Forall (fun v => v = NInf \/ exists r, v = Fin r /\ r <= m) (x :: xs).
Proof.
  induction xs as [|v xs IH]; intros x m H; cbn [fold_left] in H.
  - subst x. constructor; [|constructor].
    right; exists m; split; [reflexivity|lra].
  - specialize (IH _ _ H). inversion IH as [|? ? Hhd Htl]; subst.
    assert (G : (x = NInf \/ exists r, x = Fin r /\ r <= m)
                /\ (v = NInf \/ exists r, v = Fin r /\ r <= m)).
    { destruct Hhd as [E|[r [E Hr]]].
      - apply max_NInf in E. destruct E as [-> ->]. auto.
      - apply max_fin in E. destruct E as [[->|[a [-> Ha]]] [->|[c [-> Hc]]]];
          split; auto; right; eexists; (split; [reflexivity|lra]). }
    destruct G as [Gx Gv]. constructor; [exact Gx|].
    constructor; [exact Gv | exact Htl].
Qed.

Lemma fold_min_fin (xs : list float) :
  forall x m,
    fold_left F.min xs x = Fin m ->
    Forall (fun v => v = PInf \/ exists r, v = Fin r /\ m <= r) (x :: xs).
Proof.
  induction xs as [|v xs IH]; intros x m H; cbn [fold_left] in H.
  - subst x. constructor; [|constructor].
    right; exists m; split; [reflexivity|lra].
  - specialize (IH _ _ H). inversion IH as [|? ? Hhd Htl]; subst.
    assert (G : (x = PInf \/ exists r, x = Fin r /\ m <= r)
                /\ (v = PInf \/ exists r, v = Fin r /\ m <= r)).
    { destruct Hhd as [E|[r [E Hr]]].
      - apply min_PInf in E. destruct E as [-> ->]. auto.
      - apply min_fin in E. destruct E as [[->|[a [-> Ha]]] [->|[c [-> Hc]]]];
          split; auto; right; eexists; (split; [reflexivity|lra]). }
    destruct G as [Gx Gv]. constructor; [exact Gx|].
    constructor; [exact Gv | exact Htl].
Qed.

(** A column that [sm.add_constant] takes for a constant holds one
    number throughout. *)
Lemma nonzero_constant_all (col : list float) :
  nonzero_constant col = true -> exists r, Forall (fun v => v = Fin r) col.
Proof.
  destruct col as [|v col]; [discriminate|]. unfold nonzero_constant.
  intros H. apply andb_prop in H. destruct H as [H _].
  destruct (fold_left F.max col v) as [| | |hi] eqn:Emax;
    destruct (fold_left F.min col v) as [| | |lo] eqn:Emin;
    cbn in H; try discriminate.
  unfold Reqb in H. destruct (Req_dec_T (hi + - lo) 0) as [E|]; [|discriminate].
  assert (hi = lo) by lra. subst lo.
  pose proof (fold_max_fin col v hi Emax) as Hmax.
  pose proof (fold_min_fin col v hi Emin) as Hmin.
  exists hi. rewrite Forall_forall in *. intros u Hu.
  destruct (Hmax u Hu) as [E1|[r [E1 Hr]]];
    destruct (Hmin u Hu) as [E2|[r' [E2 Hr']]]; rewrite E1 in E2;
    try discriminate.
  injection E2 as <-. rewrite E1. f_equal. lra.
Qed.

(** A kept point belongs to a date that has a decimal date. *)
Lemma kept_points_In (Date : list datetime64) :
  forall temp p,
    In p (kept_points Date temp) ->
    exists d, In d Date /\ missing_date d = false
              /\ p_sin p = sin (2 * PI * decimal_year d)
              /\ p_cos p = cos (2 * PI * decimal_year d).
Proof.
  induction Date as [|d Date IH]; intros [|t temp] p Hp;
    cbn [kept_points] in Hp; try contradiction.
  assert (G : In p (kept_points Date temp) ->
              exists d0, In d0 (d :: Date) /\ missing_date d0 = false
                         /\ p_sin p = sin (2 * PI * decimal_year d0)
                         /\ p_cos p = cos (2 * PI * decimal_year d0)).
  { intros H. destruct (IH _ _ H) as [d0 [Hd0 H0]]. exists d0.
    split; [right; exact Hd0 | exact H0]. }
  destruct t as [| | |v]; try (apply G, Hp).
  destruct (missing_date d) eqn:E; [apply G, Hp|].
  destruct Hp as [<-|Hp]; [|apply G, Hp].
  exists d. split; [left; reflexivity|]. split; [exact E|].
  split; reflexivity.
Qed.

Lemma gram_det_constant_sin (pts : list point) (r : R) :
  (forall p, In p pts -> p_sin p = r) -> gram_det pts = 0.
Proof.
  intros H. unfold gram_det. cbv zeta.
  rewrite (sum_over_ext pts p_sin (fun p => r * 1))
    by (intros p Hp; rewrite (H p Hp); ring).
  rewrite (sum_over_ext pts (fun p => p_sin p * p_sin p) (fun p => (r * r) * 1))
    by (intros p Hp; rewrite (H p Hp); ring).
  rewrite (sum_over_ext pts (fun p => p_sin p * p_cos p) (fun p => r * p_cos p))
    by (intros p Hp; rewrite (H p Hp); ring).
  rewrite !sum_over_scal. unfold det3. ring.
Qed.

Lemma gram_det_constant_cos (pts : list point) (r : R) :
  (forall p, In p pts -> p_cos p = r) -> gram_det pts = 0.
Proof.
  intros H. unfold gram_det. cbv zeta.
  rewrite (sum_over_ext pts p_cos (fun p => r * 1))
    by (intros p Hp; rewrite (H p Hp); ring).
  rewrite (sum_over_ext pts (fun p => p_cos p * p_cos p) (fun p => (r * r) * 1))
    by (intros p Hp; rewrite (H p Hp); ring).
  rewrite (sum_over_ext pts (fun p => p_sin p * p_cos p) (fun p => r * p_sin p))
    by (intros p Hp; rewrite (H p Hp); ring).
  rewrite !sum_over_scal. unfold det3. ring.
Qed.

Lemma feature_row_0 (d : datetime64) (r : R) :
  nth 0 (feature_row d) NaN = Fin r ->
  missing_date d = false /\ sin (2 * PI * decimal_year d) = r.
Proof.
  unfold feature_row. destruct (missing_date d); cbn; [discriminate|].
  intros H. injection H as <-. split; reflexivity.
Qed.

Lemma feature_row_1 (d : datetime64) (r : R) :
  nth 1 (feature_row d) NaN = Fin r ->
  missing_date d = false /\ cos (2 * PI * decimal_year d) = r.
Proof.
  unfold feature_row. destruct (missing_date d); cbn; [discriminate|].
  intros H. injection H as <-. split; reflexivity.
Qed.

(** When the rows that the regression keeps have a design of full rank,
    neither feature is constant over the dates, so [sm.add_constant] adds
    the column of ones. *)
Lemma design_full_rank (Date : list datetime64) (temp : list float) :
  gram_det (kept_points Date temp) <> 0 ->
  design Date = Ok (map design_row Date).
Proof.
  intros Hdet.
  assert (Hne : Date <> []).
  { intros ->. apply Hdet. unfold gram_det, det3, sum_over; cbn. ring. }
  apply design_with_ones; [exact Hne|].
  destruct (has_constant (map feature_row Date)) eqn:Hc; [|reflexivity].
  exfalso. apply Hdet. unfold has_constant in Hc.
  destruct Date as [|d0 Date0] eqn:ED; [contradiction|]. rewrite <- ED in *.
  assert (Hl : length (hd [] (map feature_row Date)) = 2%nat).
  { rewrite ED. cbn [map hd]. unfold feature_row.
    destruct (missing_date d0); reflexivity. }
  rewrite Hl in Hc. cbn [seq existsb] in Hc. rewrite orb_false_r in Hc.
  apply orb_prop in Hc. destruct Hc as [Hc|Hc];
    apply nonzero_constant_all in Hc; destruct Hc as [r Hr];
    unfold column in Hr; rewrite Forall_map, Forall_map in Hr;
    rewrite Forall_forall in Hr.
  - apply (gram_det_constant_sin _ r). intros p Hp.
    destruct (kept_points_In _ _ _ Hp) as [d [Hd [_ [-> _]]]].
    apply (feature_row_0 d r), Hr, Hd.
  - apply (gram_det_constant_cos _ r). intros p Hp.
    destruct (kept_points_In _ _ _ Hp) as [d [Hd [_ [_ ->]]]].
    apply (feature_row_1 d r), Hr, Hd.
Qed.

(** What [amp_phi] returns when the regression succeeds. *)
Lemma amp_phi_of_coefficients
      (OLS_fit : list float -> list (list float) -> Exc OLSResults)
      (Date : list datetime64) (temp : list float) (w : bool)
      (X : list (list float)) (res : OLSResults) (p0 a b : float) :
  design Date = Ok X ->
  OLS_fit (ols_input temp w) X = Ok res ->
  params res = [p0; a; b] ->
  three_intervals res ->
  exists f,
    amp_phi OLS_fit Date temp w = Ok f
    /\ amp f = F.sqrt (F.square a + F.square b)%float
    /\ phi f = phase_of a b.
Proof.
  intros HX HO Hp [l0 [h0 [l1 [h1 [l2 [h2 Hci]]]]]].
  rewrite (amp_phi_design _ _ _ _ _ HX). unfold amp_phi_try. rewrite HO.
  cbn [bind].
  rewrite Hp, Hci. cbn [index nth_error bind].
  rewrite math_sqrt_sum_squares. cbn [bind].
  cbn [np_min np_max map fold_left bind].
  rewrite !math_sqrt_sum_squares. cbn [bind].
  cbn [comp bind index nth_error concat app np_min np_max fold_left try_except].
  eexists. split; [reflexivity|]. split; reflexivity.
Qed.

Lemma kept_points_sinusoid (c a b : R) (w : bool) (Date : list datetime64) :
  forall p,
    In p (kept_points Date (ols_input (sinusoid c a b Date) w)) ->
    p_temp p = c + a * p_sin p + b * p_cos p.
Proof.
  assert (G : forall (Date0 : list datetime64) (f : float -> float),
             (forall v, f (Fin v) = Fin v \/ f (Fin v) = NaN) ->
             forall p,
               In p (kept_points Date0 (map f (sinusoid c a b Date0))) ->
               p_temp p = c + a * p_sin p + b * p_cos p).
  { intros Date0 f Hf. induction Date0 as [|d Date0 IH]; intros p Hp;
      [contradiction|].
    cbn [sinusoid map kept_points] in Hp.
    destruct (Hf (c + a * sin (2 * PI * decimal_year d)
                  + b * cos (2 * PI * decimal_year d))) as [E|E];
      rewrite E in Hp.
    - destruct (missing_date d); [apply IH, Hp|].
      destruct Hp as [<-|Hp]; [reflexivity | apply IH, Hp].
    - apply IH, Hp. }
  intros p. unfold ols_input. destruct w.
  - apply G. intros v. unfold water_band.
    destruct (_ && _)%bool; auto.
  - rewrite <- (map_id (sinusoid c a b Date)). apply G. auto.
Qed.

(** C4.  (1) When the regression that [amp_phi] runs (on the matrix [X]
    that it builds from the dates) returns the coefficients [(c, a, b)],
    [amp_phi] returns the amplitude [sqrt(a^2 + b^2)] and, for [a <> 0],
    the phase [3 pi / 2 - atan(b / a)].  (2) On a series that is exactly
    [5 + 3 sin(2 pi t) + 4 cos(2 pi t)], when the regression returns a
    least-squares solution of the rows it kept and these rows have a
    design of full rank, [amp_phi] returns the amplitude 5 and the phase
    [3 pi / 2 - atan(4 / 3)].  (3) Whenever the rows that are kept have a
    design of full rank, [X] is the matrix of ones, sines and cosines of
    the dates. *)
Theorem C4_amplitude_and_phase_of_fit
        (OLS_fit : list float -> list (list float) -> Exc OLSResults)
        (Date : list datetime64) (w : bool) :
  (forall temp X res c a b,
      design Date = Ok X ->
      OLS_fit (ols_input temp w) X = Ok res ->
      params res = [Fin c; Fin a; Fin b] ->
      three_intervals res ->
      exists f,
        amp_phi OLS_fit Date temp w = Ok f
        /\ amp f = Fin (sqrt (a * a + b * b))
        /\ (a <> 0 -> phi f = Fin (3 * PI / 2 - atan (b / a))))
  /\ (forall res,
         let temp := sinusoid 5 3 4 Date in
         OLS_fit (ols_input temp w) (map design_row Date) = Ok res ->
         least_squares_fit Date (ols_input temp w) res ->
         gram_det (kept_points Date (ols_input temp w)) <> 0 ->
         exists f,
           amp_phi OLS_fit Date temp w = Ok f
           /\ amp f = Fin 5
           /\ phi f = Fin (3 * PI / 2 - atan (4 / 3)))
  /\ (forall temp,
         gram_det (kept_points Date temp) <> 0 ->
         design Date = Ok (map design_row Date)).
Proof.
  split; [|split; [|intros temp; apply design_full_rank]].
  - intros temp X res c a b HX HO Hp Hci.
    destruct (amp_phi_of_coefficients _ _ _ _ _ _ _ _ _ HX HO Hp Hci)
      as [f [Hf [Ha Hphi]]].
    exists f. split; [exact Hf|]. split.
    + rewrite Ha. apply sqrt_squares_fin.
    + intros Hne. rewrite Hphi. apply phase_of_fin, Hne.
  - intros res temp HO [Hci [c [a [b [Hp Hne]]]]] Hdet.
    destruct (normal_equations_unique _ 5 3 4 c a b
                (kept_points_sinusoid 5 3 4 w Date) Hdet Hne) as [-> [-> ->]].
    destruct (amp_phi_of_coefficients _ _ _ _ _ _ _ _ _
                (design_full_rank _ _ Hdet) HO Hp Hci) as [f [Hf [Ha Hphi]]].
    exists f. split; [exact Hf|]. split.
    + rewrite Ha. apply sqrt_3_4.
    + rewrite Hphi. apply phase_of_3_4.
Qed.

Lemma int64_small (z : Z) :
  (- 2 ^ 63 <= z < 2 ^ 63)%Z -> int64 z = z.
Proof. intros H. unfold int64. rewrite Z.mod_small by lia. lia. Qed.

Lemma quarter_dates_not_missing :
  Forall (fun d => missing_date d = false) quarter_dates.
Proof. repeat constructor. Qed.

Lemma decimal_year_0 : decimal_year ref_date = 0.
Proof.
  unfold decimal_year. rewrite Z.sub_diag.
  replace (int64 0) with 0%Z by reflexivity. unfold one_day. lra.
Qed.

Lemma decimal_year_1 : decimal_year (ref_date + quarter_year)%Z = 1 / 4.
Proof.
  unfold decimal_year.
  replace (ref_date + quarter_year - ref_date)%Z with quarter_year by lia.
  replace (int64 quarter_year) with quarter_year by reflexivity.
  unfold quarter_year, one_day. lra.
Qed.

Lemma decimal_year_2 : decimal_year (ref_date + 2 * quarter_year)%Z = 1 / 2.
Proof.
  unfold decimal_year.
  replace (ref_date + 2 * quarter_year - ref_date)%Z with (2 * quarter_year)%Z by lia.
  replace (int64 (2 * quarter_year)) with (2 * quarter_year)%Z by reflexivity.
  unfold quarter_year, one_day. cbn. lra.
Qed.

Lemma quarter_points (c a b : R) :
  kept_points quarter_dates (sinusoid c a b quarter_dates)
  = [(0, 1, c + a * 0 + b * 1); (1, 0, c + a * 1 + b * 0);
     (0, -1, c + a * 0 + b * -1)].
Proof.
  unfold quarter_dates, sinusoid. cbn [map kept_points].
  rewrite decimal_year_0, decimal_year_1, decimal_year_2.
  replace (2 * PI * 0) with 0 by lra.
  replace (2 * PI * (1 / 4)) with (PI / 2) by lra.
  replace (2 * PI * (1 / 2)) with PI by lra.
  rewrite sin_0, cos_0, sin_PI2, cos_PI2, sin_PI, cos_PI. reflexivity.
Qed.

Lemma quarter_gram_det (c a b : R) :
  gram_det (kept_points quarter_dates (sinusoid c a b quarter_dates)) = 4.
Proof.
  rewrite quarter_points. unfold gram_det, det3, sum_over, p_sin, p_cos; cbn. lra.
Qed.

Lemma normal_equations_exact (pts : list point) (c a b : R) :
  (forall p, In p pts -> p_temp p = c + a * p_sin p + b * p_cos p) ->
  normal_equations pts c a b.
Proof.
  intros Hon.
  assert (Z : forall w : point -> R,
             sum_over pts (fun p => w p * residual c a b p) = 0).
  { intros w. rewrite (sum_over_ext pts _ (fun p => 0 * w p)).
    - rewrite sum_over_scal. ring.
    - intros p Hp. unfold residual. rewrite (Hon p Hp). ring. }
  repeat split; [|apply Z|apply Z].
  rewrite <- (Z (fun _ => 1)). apply sum_over_ext. intros; ring.
Qed.

Lemma ols_5_3_4_least_squares (w : bool) (Date : list datetime64) :
  least_squares_fit Date (ols_input (sinusoid 5 3 4 Date) w) fit_5_3_4.
Proof.
  split.
  - unfold three_intervals, fit_5_3_4; cbn. repeat eexists.
  - exists 5, 3, 4. split; [reflexivity|].
    apply normal_equations_exact, kept_points_sinusoid.
Qed.

Lemma C4_amplitude_and_phase_of_fit_witness :
  (exists f,
      amp_phi ols_5_3_4 quarter_dates (sinusoid 5 3 4 quarter_dates) false = Ok f
      /\ amp f = Fin (sqrt (3 * 3 + 4 * 4))
      /\ (3 <> 0 -> phi f = Fin (3 * PI / 2 - atan (4 / 3))))
  /\ (exists f,
         amp_phi ols_5_3_4 quarter_dates (sinusoid 5 3 4 quarter_dates) false = Ok f
         /\ amp f = Fin 5
         /\ phi f = Fin (3 * PI / 2 - atan (4 / 3))).
Proof.
  split.
  - apply (proj1 (C4_amplitude_and_phase_of_fit ols_5_3_4 quarter_dates false)
                 (sinusoid 5 3 4 quarter_dates) (map design_row quarter_dates)
                 fit_5_3_4 5 3 4).
    + apply (design_full_rank quarter_dates (sinusoid 5 3 4 quarter_dates)).
      rewrite quarter_gram_det. lra.
    + reflexivity.
    + reflexivity.
    + apply (ols_5_3_4_least_squares false quarter_dates).
  - apply (proj1 (proj2 (C4_amplitude_and_phase_of_fit ols_5_3_4 quarter_dates
                                                       false))
                 fit_5_3_4).
    + reflexivity.
    + apply (ols_5_3_4_least_squares false quarter_dates).
    + unfold ols_input. rewrite quarter_gram_det. lra.
Defined.

(* ================================================================== *)
(** * The batched regression *)
(* ================================================================== *)

Lemma rsum_ext (n : nat) (f g : nat -> R) :
  (forall i, (i < n)%nat -> f i = g i) -> rsum n f = rsum n g.
Proof.
  induction n as [|n IH]; intros H; simpl; [reflexivity|].
  rewrite IH by (intros; apply H; lia). rewrite H by lia. reflexivity.
Qed.

Lemma rsum_plus (n : nat) (f g : nat -> R) :
  rsum n (fun i => f i + g i) = rsum n f + rsum n g.
Proof. induction n as [|n IH]; simpl; [lra | rewrite IH; lra]. Qed.

Lemma rsum_scal (n : nat) (k : R) (f : nat -> R) :
  rsum n (fun i => k * f i) = k * rsum n f.
Proof. induction n as [|n IH]; simpl; [lra | rewrite IH; lra]. Qed.

Lemma rsum_scal_r (n : nat) (k : R) (f : nat -> R) :
  rsum n (fun i => f i * k) = rsum n f * k.
Proof. induction n as [|n IH]; simpl; [lra | rewrite IH; lra]. Qed.

Lemma rsum_zero (n : nat) : rsum n (fun _ => 0) = 0.
Proof. induction n as [|n IH]; simpl; [lra | rewrite IH; lra]. Qed.

Lemma rsum_swap (n m : nat) (f : nat -> nat -> R) :
  rsum n (fun i => rsum m (fun j => f i j))
  = rsum m (fun j => rsum n (fun i => f i j)).
Proof.
  induction n as [|n IH]; simpl.
  - symmetry. apply rsum_zero.
  - rewrite IH. rewrite <- rsum_plus. reflexivity.
Qed.

Section Core.

Variable n : nat.
Variables s c : nat -> R.
Variable P : nat -> nat -> R.

Local Abbreviation col := (reg_col s c) (only parsing).
Local Abbreviation Kr := (reg_K s c) (only parsing).
Local Abbreviation rowP := (reg_rowP n s c P) (only parsing).
Local Abbreviation Nr := (reg_N n s c P) (only parsing).
Local Abbreviation coeff := (reg_coeff n s c P) (only parsing).

Lemma KP_expand (i m : nat) :
  rsum n (fun l => Kr i l * P l m)
  = rowP 0 m + s i * rowP 1 m + c i * rowP 2 m.
Proof.
  unfold reg_rowP. rewrite <- !rsum_scal, <- !rsum_plus.
  apply rsum_ext. intros l _. unfold reg_K, reg_col. cbn [rsum]. ring.
Qed.

Lemma KPK_expand (i k : nat) :
  rsum n (fun m => rsum n (fun l => Kr i l * P l m) * Kr m k)
  = (Nr 0 0 + s k * Nr 0 1 + c k * Nr 0 2)
    + s i * (Nr 1 0 + s k * Nr 1 1 + c k * Nr 1 2)
    + c i * (Nr 2 0 + s k * Nr 2 1 + c k * Nr 2 2).
Proof.
  unfold reg_N. rewrite <- !rsum_scal, <- !rsum_plus.
  rewrite <- !rsum_scal, <- !rsum_plus.
  apply rsum_ext. intros m _. rewrite KP_expand. unfold reg_K, reg_col. cbn [rsum]. ring.
Qed.

Hypothesis Hgi :
  forall i k, (i < n)%nat -> (k < n)%nat ->
    rsum n (fun m => rsum n (fun l => Kr i l * P l m) * Kr m k) = Kr i k.

Hypothesis Hinj :
  forall x0 x1 x2,
    (forall i, (i < n)%nat -> x0 + x1 * s i + x2 * c i = 0) ->
    x0 = 0 /\ x1 = 0 /\ x2 = 0.

Lemma Nr_identity :
  (Nr 0 0 = 1 /\ Nr 0 1 = 0 /\ Nr 0 2 = 0)
  /\ (Nr 1 0 = 0 /\ Nr 1 1 = 1 /\ Nr 1 2 = 0)
  /\ (Nr 2 0 = 0 /\ Nr 2 1 = 0 /\ Nr 2 2 = 1).
Proof.
  assert (Hk : forall k, (k < n)%nat ->
             (Nr 0 0 - 1) + s k * Nr 0 1 + c k * Nr 0 2 = 0
             /\ Nr 1 0 + s k * (Nr 1 1 - 1) + c k * Nr 1 2 = 0
             /\ Nr 2 0 + s k * Nr 2 1 + c k * (Nr 2 2 - 1) = 0).
  { intros k Hk'.
    apply (Hinj ((Nr 0 0 - 1) + s k * Nr 0 1 + c k * Nr 0 2)
                (Nr 1 0 + s k * (Nr 1 1 - 1) + c k * Nr 1 2)
                (Nr 2 0 + s k * Nr 2 1 + c k * (Nr 2 2 - 1))).
    intros i Hi. pose proof (Hgi i k Hi Hk') as H.
    rewrite KPK_expand in H. unfold reg_K, reg_col in H. cbn [rsum] in H. lra. }
  destruct (Hinj (Nr 0 0 - 1) (Nr 0 1) (Nr 0 2)) as [A0 [A1 A2]].
  { intros k Hk'. destruct (Hk k Hk') as [H _].
    rewrite <- H. ring. }
  destruct (Hinj (Nr 1 0) (Nr 1 1 - 1) (Nr 1 2)) as [B0 [B1 B2]].
  { intros k Hk'. destruct (Hk k Hk') as [_ [H _]].
    rewrite <- H. ring. }
  destruct (Hinj (Nr 2 0) (Nr 2 1) (Nr 2 2 - 1)) as [C0 [C1 C2]].
  { intros k Hk'. destruct (Hk k Hk') as [_ [_ H]].
    rewrite <- H. ring. }
  repeat split; lra.
Qed.

Lemma coeff_expand (t0 t1 t2 : R) (j : nat) :
  coeff (fun i => t0 + t1 * s i + t2 * c i) j
  = t0 * Nr 0 j + t1 * Nr 1 j + t2 * Nr 2 j.
Proof.
  unfold reg_coeff, reg_N, reg_rowP.
  assert (E : forall u,
             rsum n (fun m => rsum n (fun l => col u l * P l m) * col j m)
             = rsum n (fun i => rsum n (fun l => P i l * col j l) * col u i)).
  { intros u.
    transitivity (rsum n (fun m => rsum n (fun l => col u l * P l m * col j m))).
    { apply rsum_ext. intros m _. rewrite <- rsum_scal_r. reflexivity. }
    rewrite rsum_swap. apply rsum_ext. intros i _.
    rewrite <- rsum_scal_r. apply rsum_ext. intros; ring. }
  rewrite !E. rewrite <- !rsum_scal, <- !rsum_plus.
  apply rsum_ext. intros i _. unfold reg_col. ring.
Qed.

Lemma coeff_exact (t0 t1 t2 : R) :
  coeff (fun i => t0 + t1 * s i + t2 * c i) 1 = t1
  /\ coeff (fun i => t0 + t1 * s i + t2 * c i) 2 = t2.
Proof.
  rewrite !coeff_expand.
  destruct Nr_identity as [[A0 [A1 A2]] [[B0 [B1 B2]] [C0 [C1 C2]]]].
  rewrite A1, A2, B1, B2, C1, C2. split; ring.
Qed.

End Core.

Lemma fsum_fin (n : nat) (f : nat -> float) (g : nat -> R) :
  (forall i, (i < n)%nat -> f i = Fin (g i)) ->
  fsum n f = Fin (rsum n g).
Proof.
  induction n as [|n IH]; intros H; cbn [fsum rsum]; [reflexivity|].
  rewrite IH by (intros; apply H; lia). rewrite H by lia. reflexivity.
Qed.

Lemma isfinite_real_part (x : float) :
  F.isfinite x = true -> x = Fin (real_part x).
Proof. destruct x; cbn; intros H; try discriminate; reflexivity. Qed.

Section Bridge.

Variable Date : list datetime64.


Lemma nth_sin_wt (i : nat) :
  (i < length Date)%nat -> nth i (sin_wt_of Date) NaN = Fin ((sR Date) i).
Proof.
  intros Hi. unfold sin_wt_of, sR.
  rewrite (nth_indep _ NaN (Fin (sin (2 * PI * decimal_year 0%Z))))
    by (rewrite length_map; exact Hi).
  apply (map_nth (fun d => Fin (sin (2 * PI * decimal_year d)))).
Qed.

Lemma nth_cos_wt (i : nat) :
  (i < length Date)%nat -> nth i (cos_wt_of Date) NaN = Fin ((cR Date) i).
Proof.
  intros Hi. unfold cos_wt_of, cR.
  rewrite (nth_indep _ NaN (Fin (cos (2 * PI * decimal_year 0%Z))))
    by (rewrite length_map; exact Hi).
  apply (map_nth (fun d => Fin (cos (2 * PI * decimal_year d)))).
Qed.

Lemma design_matrix_entry (u i : nat) :
  (u < 3)%nat -> (i < length Date)%nat ->
  entry (design_matrix (sin_wt_of Date) (cos_wt_of Date)) u i
  = Fin (reg_col (sR Date) (cR Date) u i).
Proof.
  intros Hu Hi. unfold design_matrix, of_rows. cbn [entry].
  destruct u as [|[|[|u]]]; [| | |lia]; cbn [nth reg_col].
  - unfold sin_wt_of. rewrite length_map. rewrite nth_repeat_lt by exact Hi.
    reflexivity.
  - apply nth_sin_wt, Hi.
  - apply nth_cos_wt, Hi.
Qed.

Lemma design_matrix_shape :
  nrows (design_matrix (sin_wt_of Date) (cos_wt_of Date)) = 3%nat
  /\ ncols (design_matrix (sin_wt_of Date) (cos_wt_of Date)) = length Date.
Proof.
  unfold design_matrix, of_rows, sin_wt_of. cbn. rewrite length_map. auto.
Qed.

Lemma normal_matrix_shape :
  nrows (normal_matrix Date) = length Date
  /\ ncols (normal_matrix Date) = length Date.
Proof.
  unfold normal_matrix, einsum_ij_jk, transpose. cbn [nrows ncols].
  destruct design_matrix_shape as [_ ->]. auto.
Qed.

Lemma normal_matrix_entry (i k : nat) :
  (i < length Date)%nat -> (k < length Date)%nat ->
  entry (normal_matrix Date) i k = Fin (reg_K (sR Date) (cR Date) i k).
Proof.
  intros Hi Hk. unfold normal_matrix, einsum_ij_jk, transpose.
  cbn [entry nrows ncols].
  destruct design_matrix_shape as [-> _].
  unfold reg_K. apply fsum_fin. intros u Hu.
  rewrite !design_matrix_entry by assumption. reflexivity.
Qed.

Variable P : matrix.
Hypothesis HP : generalized_inverse (normal_matrix Date) P.


Lemma P_entry (i l : nat) :
  (i < length Date)%nat -> (l < length Date)%nat ->
  entry P i l = Fin ((Pr P) i l).
Proof.
  intros Hi Hl. destruct HP as [_ [_ [Hfin _]]].
  destruct normal_matrix_shape as [Hr Hc].
  apply isfinite_real_part, Hfin; lia.
Qed.

Lemma P_generalized_inverse (i k : nat) :
  (i < length Date)%nat -> (k < length Date)%nat ->
  rsum (length Date)
       (fun m => rsum (length Date) (fun l => reg_K (sR Date) (cR Date) i l * (Pr P) l m)
                 * reg_K (sR Date) (cR Date) m k)
  = reg_K (sR Date) (cR Date) i k.
Proof.
  intros Hi Hk. destruct HP as [HPr [HPc [_ Hgi]]].
  destruct normal_matrix_shape as [Hr Hc].
  specialize (Hgi i k ltac:(lia) ltac:(lia)).
  rewrite normal_matrix_entry in Hgi by assumption.
  unfold einsum_ij_jk in Hgi. cbn [entry ncols] in Hgi.
  rewrite HPc, Hc in Hgi.
  rewrite (fsum_fin _ _
             (fun m => rsum (length Date) (fun l => reg_K (sR Date) (cR Date) i l * (Pr P) l m)
                       * reg_K (sR Date) (cR Date) m k)) in Hgi.
  - injection Hgi as Hgi. exact Hgi.
  - intros m Hm.
    rewrite normal_matrix_entry by assumption.
    rewrite (fsum_fin _ _ (fun l => reg_K (sR Date) (cR Date) i l * (Pr P) l m)).
    + reflexivity.
    + intros l Hl.
      rewrite normal_matrix_entry, P_entry by assumption. reflexivity.
Qed.

End Bridge.

(** The columns [1], [sin], [cos] are linearly independent on points with
    a Gram matrix of non-zero determinant. *)
Lemma design_injective (pts : list point) (x0 x1 x2 : R) :
  gram_det pts <> 0 ->
  (forall p, In p pts -> x0 + x1 * p_sin p + x2 * p_cos p = 0) ->
  x0 = 0 /\ x1 = 0 /\ x2 = 0.
Proof.
  intros Hdet Hz.
  assert (Z : forall w : point -> R,
             x0 * sum_over pts (fun p => w p * 1)
             + x1 * sum_over pts (fun p => w p * p_sin p)
             + x2 * sum_over pts (fun p => w p * p_cos p) = 0).
  { intros w. rewrite <- !sum_over_scal, <- !sum_over_plus.
    rewrite (sum_over_ext pts _ (fun p => 0 * w p)).
    - rewrite sum_over_scal. ring.
    - intros p Hp. pose proof (Hz p Hp). nra. }
  unfold gram_det in Hdet. cbv zeta in Hdet.
  apply (lin3_kernel _ _ _ _ _ _ _ _ _ x0 x1 x2 Hdet).
  - rewrite <- (Z (fun _ => 1)).
    rewrite (sum_over_ext pts (fun _ => 1) (fun p => 1 * 1)) by (intros; ring).
    rewrite (sum_over_ext pts p_sin (fun p => 1 * p_sin p)) by (intros; ring).
    rewrite (sum_over_ext pts p_cos (fun p => 1 * p_cos p)) by (intros; ring).
    ring.
  - rewrite <- (Z p_sin).
    rewrite (sum_over_ext pts p_sin (fun p => p_sin p * 1)) by (intros; ring).
    ring.
  - rewrite <- (Z p_cos).
    rewrite (sum_over_ext pts p_cos (fun p => p_cos p * 1)) by (intros; ring).
    rewrite (sum_over_ext pts (fun p => p_sin p * p_cos p)
                          (fun p => p_cos p * p_sin p)) by (intros; ring).
    ring.
Qed.

Lemma kept_points_sinusoid_all (c a b : R) (Date : list datetime64) :
  kept_points Date (sinusoid c a b Date)
  = map (fun d => (sin (2 * PI * decimal_year d), cos (2 * PI * decimal_year d),
                   c + a * sin (2 * PI * decimal_year d)
                   + b * cos (2 * PI * decimal_year d)))
        (filter (fun d => negb (missing_date d)) Date).
Proof.
  induction Date as [|d Date IH]; [reflexivity|].
  cbn [sinusoid map kept_points filter].
  destruct (missing_date d); cbn [negb map]; [exact IH|]. f_equal. exact IH.
Qed.

Lemma design_injective_dates (c a b : R) (Date : list datetime64) (x0 x1 x2 : R) :
  gram_det (kept_points Date (sinusoid c a b Date)) <> 0 ->
  (forall i, (i < length Date)%nat -> x0 + x1 * sR Date i + x2 * cR Date i = 0) ->
  x0 = 0 /\ x1 = 0 /\ x2 = 0.
Proof.
  intros Hdet Hz. apply (design_injective _ _ _ _ Hdet).
  intros p Hp. rewrite kept_points_sinusoid_all in Hp.
  apply in_map_iff in Hp. destruct Hp as [d [<- Hd]].
  apply filter_In in Hd. destruct Hd as [Hd _].
  destruct (In_nth _ _ 0%Z Hd) as [i [Hi Hn]].
  specialize (Hz i Hi). unfold sR, cR in Hz. subst d.
  unfold p_sin, p_cos; cbn [fst snd]. exact Hz.
Qed.

Lemma gram_det_nonempty (pts : list point) : gram_det pts <> 0 -> pts <> [].
Proof.
  intros H ->. apply H. unfold gram_det, det3, sum_over; cbn. ring.
Qed.

Lemma comp_index_0 {A : Type} (f g : A -> float) (l : list A) :
  comp (fun step => index step 0) (map (fun d => [f d; g d]) l) = Ok (map f l).
Proof.
  induction l as [|d l IH]; [reflexivity|].
  cbn [map comp index nth_error bind]. rewrite IH. reflexivity.
Qed.

Lemma comp_index_1 {A : Type} (f g : A -> float) (l : list A) :
  comp (fun step => index step 1) (map (fun d => [f d; g d]) l) = Ok (map g l).
Proof.
  induction l as [|d l IH]; [reflexivity|].
  cbn [map comp index nth_error bind]. rewrite IH. reflexivity.
Qed.

Lemma last2_app {A : Type} (g : list A) (x y : A) : last2 (g ++ [x; y]) = [x; y].
Proof.
  unfold last2. rewrite length_app. cbn [length].
  replace (length g + 2 - 2)%nat with (length g) by lia.
  rewrite skipn_app, skipn_all, Nat.sub_diag. reflexivity.
Qed.

Lemma gw_rows_features (Date : list datetime64) (seg_data : list (list float)) :
  Forall2 gw_row Date seg_data ->
  map last2 (map from2_to_m2 seg_data)
  = map (fun d => [Fin (sin (2 * PI * decimal_year d));
                   Fin (cos (2 * PI * decimal_year d))]) Date.
Proof.
  induction 1 as [|d row Date seg_data [g [_ Hrow]] _ IH]; [reflexivity|].
  cbn [map]. rewrite Hrow, last2_app, IH. reflexivity.
Qed.

Lemma gw_rows_first (Date : list datetime64) (seg_data : list (list float)) :
  Forall2 gw_row Date seg_data ->
  Date <> [] ->
  exists first,
    index (map from2_to_m2 seg_data) 0 = Ok first
    /\ exists g0 g1 g2 g3,
        index first 0 = Ok g0 /\ index first 1 = Ok g1
        /\ index first 2 = Ok g2 /\ index first 3 = Ok g3.
Proof.
  intros H Hne. destruct H as [|d row Date seg_data [g [Hg Hrow]] _];
    [contradiction|].
  exists (from2_to_m2 row). split; [reflexivity|].
  rewrite Hrow.
  destruct g as [|g0 [|g1 [|g2 [|g3 g]]]]; cbn [length] in Hg; try lia.
  exists g0, g1, g2, g3. repeat split; reflexivity.
Qed.

Lemma predicted_rows (ti : nat) (tm ts : float) (c a b : R)
      (Date : list datetime64) (seg_pred : list (list float)) :
  Forall2 (predicts ti tm ts c a b) Date seg_pred ->
  map (map (fun v => (v * ts + tm)%float)) (map (one_at ti) seg_pred)
  = map (fun d => [Fin (c + a * sin (2 * PI * decimal_year d)
                          + b * cos (2 * PI * decimal_year d))]) Date.
Proof.
  induction 1 as [|d row Date seg_pred [v [Hv Hval]] _ IH]; [reflexivity|].
  cbn [map]. rewrite Hv, IH. cbn [map]. rewrite Hval. reflexivity.
Qed.

Lemma mindex_in (M : matrix) (i j : nat) :
  (i < nrows M)%nat -> (j < ncols M)%nat -> mindex M i j = Ok (entry M i j).
Proof.
  intros Hi Hj. unfold mindex.
  replace (i <? nrows M)%nat with true by (symmetry; apply Nat.ltb_lt; exact Hi).
  replace (j <? ncols M)%nat with true by (symmetry; apply Nat.ltb_lt; exact Hj).
  reflexivity.
Qed.

Section BatchedValue.

Variable pinv : matrix -> matrix.
Variable Date : list datetime64.
Variables c0 a0 b0 : R.

Hypothesis Hpinv :
  generalized_inverse (normal_matrix Date) (pinv (normal_matrix Date)).
Hypothesis Hdet : gram_det (kept_points Date (sinusoid c0 a0 b0 Date)) <> 0.

Lemma Date_nonempty : Date <> [].
Proof.
  intros E. apply gram_det_nonempty in Hdet. apply Hdet.
  rewrite E. reflexivity.
Qed.

Lemma predicted_entry (i : nat) :
  (i < length Date)%nat ->
  nth 0 (nth i (map (fun d => [Fin (c0 + a0 * sin (2 * PI * decimal_year d)
                                   + b0 * cos (2 * PI * decimal_year d))]) Date)
                [])
      NaN
  = Fin (c0 + a0 * sR Date i + b0 * cR Date i).
Proof.
  intros Hi.
  rewrite (nth_indep _ [] ((fun d => [Fin (c0 + a0 * sin (2 * PI * decimal_year d)
                                  + b0 * cos (2 * PI * decimal_year d))]) 0%Z))
    by (rewrite length_map; exact Hi).
  rewrite (map_nth (fun d => [Fin (c0 + a0 * sin (2 * PI * decimal_year d)
                                  + b0 * cos (2 * PI * decimal_year d))])).
  reflexivity.
Qed.

(** The coefficients of the batched regression on predictions that are
    exactly [c0 + a0 sin + b0 cos]. *)
Lemma regression_coeffs_exact (y_true y_pred_temp : list (list float)) :
  map last2 y_true
  = map (fun d => [Fin (sin (2 * PI * decimal_year d));
                   Fin (cos (2 * PI * decimal_year d))]) Date ->
  y_pred_temp
  = map (fun d => [Fin (c0 + a0 * sin (2 * PI * decimal_year d)
                          + b0 * cos (2 * PI * decimal_year d))]) Date ->
  exists a_b,
    regression_coeffs pinv y_true y_pred_temp = Ok a_b
    /\ mindex a_b 1 0 = Ok (Fin a0)
    /\ mindex a_b 2 0 = Ok (Fin b0).
Proof.
  intros Hx Hy. unfold regression_coeffs. rewrite Hx.
  rewrite comp_index_0, comp_index_1. cbn [bind].
  fold (sin_wt_of Date). fold (cos_wt_of Date). fold (normal_matrix Date).
  eexists. split; [reflexivity|].
  set (P := pinv (normal_matrix Date)) in *.
  destruct Hpinv as [HPr [HPc _]].
  destruct (normal_matrix_shape Date) as [Hr Hc].
  destruct (design_matrix_shape Date) as [Hdr Hdc].
  pose proof Date_nonempty as Hne.
  assert (Hcols : length (hd [] y_pred_temp) = 1%nat).
  { rewrite Hy. destruct Date; [contradiction | reflexivity]. }
  assert (Hentry : forall j, (j < 3)%nat ->
            entry (einsum_ij_ik
                     (einsum_ij_jk P (transpose (design_matrix (sin_wt_of Date)
                                                               (cos_wt_of Date))))
                     (of_rows y_pred_temp (length (hd [] y_pred_temp)))) j 0
            = Fin (reg_coeff (length Date) (sR Date) (cR Date) (Pr P)
                             (fun i => c0 + a0 * sR Date i + b0 * cR Date i) j)).
  { intros j Hj. unfold einsum_ij_ik, einsum_ij_jk, transpose, of_rows.
    cbn [entry nrows ncols]. rewrite HPr, HPc, Hr, Hc.
    unfold reg_coeff. apply fsum_fin. intros i Hi.
    rewrite Hy, predicted_entry by exact Hi.
    rewrite (fsum_fin _ _ (fun l => Pr P i l * reg_col (sR Date) (cR Date) j l)).
    - reflexivity.
    - intros l Hl. rewrite (P_entry Date P Hpinv) by assumption.
      rewrite design_matrix_entry by assumption. reflexivity. }
  destruct (coeff_exact (length Date) (sR Date) (cR Date) (Pr P)
              (P_generalized_inverse Date P Hpinv)
              (fun x0 x1 x2 H => design_injective_dates c0 a0 b0 Date x0 x1 x2 Hdet H)
              c0 a0 b0) as [E1 E2].
  assert (Hshape : forall j, (j < 3)%nat ->
            mindex (einsum_ij_ik
                     (einsum_ij_jk P (transpose (design_matrix (sin_wt_of Date)
                                                               (cos_wt_of Date))))
                     (of_rows y_pred_temp (length (hd [] y_pred_temp)))) j 0
            = Ok (entry (einsum_ij_ik
                     (einsum_ij_jk P (transpose (design_matrix (sin_wt_of Date)
                                                               (cos_wt_of Date))))
                     (of_rows y_pred_temp (length (hd [] y_pred_temp)))) j 0)).
  { intros j Hj. apply mindex_in.
    - cbn [nrows ncols einsum_ij_ik einsum_ij_jk transpose]. rewrite Hdr. exact Hj.
    - cbn [ncols einsum_ij_ik of_rows]. rewrite Hcols. lia. }
  rewrite !Hshape by lia. rewrite !Hentry by lia. rewrite E1, E2.
  split; reflexivity.
Qed.

End BatchedValue.

(** [GW_loss_prep] on a segment whose predictions are exactly
    [c0 + a0 sin + b0 cos]. *)
Lemma GW_loss_prep_segment_exact
      (pinv : matrix -> matrix) (temp_index : nat) (temp_mean temp_sd : float)
      (Date : list datetime64) (c0 a0 b0 : R)
      (seg_data seg_pred : list (list float)) :
  Forall2 gw_row Date seg_data ->
  Forall2 (predicts temp_index temp_mean temp_sd c0 a0 b0) Date seg_pred ->
  generalized_inverse (normal_matrix Date) (pinv (normal_matrix Date)) ->
  gram_det (kept_points Date (sinusoid c0 a0 b0 Date)) <> 0 ->
  exists g,
    GW_loss_prep_segment pinv temp_index temp_mean temp_sd seg_data seg_pred = Ok g
    /\ g_Aw g = F.sqrt (F.square (Fin a0) + F.square (Fin b0))%float
    /\ g_Phiw g = phase_of (Fin a0) (Fin b0).
Proof.
  intros Hrows Hpred Hpinv Hdet. unfold GW_loss_prep_segment.
  destruct (regression_coeffs_exact pinv Date c0 a0 b0 Hpinv Hdet
              (map from2_to_m2 seg_data)
              (map (map (fun v => (v * temp_sd + temp_mean)%float))
                   (map (one_at temp_index) seg_pred))
              (gw_rows_features _ _ Hrows)
              (predicted_rows _ _ _ _ _ _ _ _ Hpred)) as [a_b [Hab [H1 H2]]].
  rewrite Hab. cbn [bind]. rewrite H1. cbn [bind]. rewrite H2. cbn [bind].
  destruct (gw_rows_first _ _ Hrows (Date_nonempty Date c0 a0 b0 Hdet))
    as [first [Hf [g0 [g1 [g2 [g3 [E0 [E1 [E2 E3]]]]]]]]].
  rewrite Hf. cbn [bind]. rewrite E2. cbn [bind]. rewrite E3. cbn [bind].
  rewrite E0. cbn [bind]. rewrite E1. cbn [bind].
  eexists. split; [reflexivity|]. split; reflexivity.
Qed.

(** C3.  One segment whose rows carry sin(wt), cos(wt) of its dates and
    whose unscaled predicted temperature is exactly
    [c0 + a0 sin(wt) + b0 cos(wt)]; [tf.linalg.pinv] returns a generalized
    inverse of [X_mat_T_dot]; the regression of statsmodels returns a
    least-squares solution of the rows it kept; both designs have full
    rank.  Then the amplitude [Aw] and the phase [Phiw] of [GW_loss_prep]
    are the amplitude and the phase that [amp_phi] returns for the same
    series on the same dates. *)
Theorem C3_batched_regression_matches_estimator
        (pinv : matrix -> matrix)
        (OLS_fit : list float -> list (list float) -> Exc OLSResults)
        (temp_index : nat) (temp_mean temp_sd : float)
        (Date : list datetime64) (isWater : bool) (c0 a0 b0 : R)
        (seg_data seg_pred : list (list float)) (res : OLSResults) :
  Forall2 gw_row Date seg_data ->
  Forall2 (predicts temp_index temp_mean temp_sd c0 a0 b0) Date seg_pred ->
  generalized_inverse (normal_matrix Date) (pinv (normal_matrix Date)) ->
  gram_det (kept_points Date (sinusoid c0 a0 b0 Date)) <> 0 ->
  OLS_fit (ols_input (sinusoid c0 a0 b0 Date) isWater) (map design_row Date)
  = Ok res ->
  least_squares_fit Date (ols_input (sinusoid c0 a0 b0 Date) isWater) res ->
  gram_det (kept_points Date (ols_input (sinusoid c0 a0 b0 Date) isWater)) <> 0 ->
  exists g f,
    GW_loss_prep_segment pinv temp_index temp_mean temp_sd seg_data seg_pred = Ok g
    /\ amp_phi OLS_fit Date (sinusoid c0 a0 b0 Date) isWater = Ok f
    /\ g_Aw g = amp f
    /\ g_Phiw g = phi f.
Proof.
  intros Hrows Hpred Hpinv Hdet HO [Hci [c [a [b [Hp Hne]]]]] Hdet'.
  destruct (GW_loss_prep_segment_exact pinv temp_index temp_mean temp_sd Date
              c0 a0 b0 seg_data seg_pred Hrows Hpred Hpinv Hdet)
    as [g [Hg [HA HP]]].
  destruct (normal_equations_unique _ c0 a0 b0 c a b
              (kept_points_sinusoid c0 a0 b0 isWater Date) Hdet' Hne)
    as [-> [-> ->]].
  destruct (amp_phi_of_coefficients _ _ _ _ _ _ _ _ _
              (design_full_rank _ _ Hdet') HO Hp Hci) as [f [Hf [Ha Hphi]]].
  exists g, f. split; [exact Hg|]. split; [exact Hf|].
  split; congruence.
Qed.

Lemma quarter_sR :
  sR quarter_dates 0 = 0 /\ sR quarter_dates 1 = 1 /\ sR quarter_dates 2 = 0.
Proof.
  unfold sR, quarter_dates. cbn [nth].
  rewrite decimal_year_0, decimal_year_1, decimal_year_2.
  replace (2 * PI * 0) with 0 by lra.
  replace (2 * PI * (1 / 4)) with (PI / 2) by lra.
  replace (2 * PI * (1 / 2)) with PI by lra.
  rewrite sin_0, sin_PI2, sin_PI. auto.
Qed.

Lemma quarter_cR :
  cR quarter_dates 0 = 1 /\ cR quarter_dates 1 = 0 /\ cR quarter_dates 2 = -1.
Proof.
  unfold cR, quarter_dates. cbn [nth].
  rewrite decimal_year_0, decimal_year_1, decimal_year_2.
  replace (2 * PI * 0) with 0 by lra.
  replace (2 * PI * (1 / 4)) with (PI / 2) by lra.
  replace (2 * PI * (1 / 2)) with PI by lra.
  rewrite cos_0, cos_PI2, cos_PI. auto.
Qed.

Lemma pinv_quarter_generalized_inverse :
  generalized_inverse (normal_matrix quarter_dates)
                      (pinv_quarter (normal_matrix quarter_dates)).
Proof.
  destruct (normal_matrix_shape quarter_dates) as [Hr Hc].
  change (length quarter_dates) with 3%nat in Hr, Hc.
  unfold generalized_inverse. rewrite Hr, Hc.
  split; [reflexivity|]. split; [reflexivity|]. split.
  - intros i j Hi Hj.
    destruct i as [|[|[|i]]]; [| | |lia];
      destruct j as [|[|[|j]]]; try lia; reflexivity.
  - intros i k Hi Hk.
    rewrite normal_matrix_entry by exact Hi || exact Hk.
    unfold einsum_ij_jk. cbn [entry ncols]. rewrite Hc.
    change (ncols (pinv_quarter (normal_matrix quarter_dates))) with 3%nat.
    rewrite (fsum_fin _ _
               (fun m => rsum 3 (fun l => reg_K (sR quarter_dates) (cR quarter_dates) i l
                                          * Pr (pinv_quarter (normal_matrix quarter_dates)) l m)
                         * reg_K (sR quarter_dates) (cR quarter_dates) m k)).
    + f_equal. destruct quarter_sR as [S0 [S1 S2]].
      destruct quarter_cR as [C0 [C1 C2]].
      unfold reg_K, reg_col, Pr, pinv_quarter, of_rows.
      cbn [rsum entry nth real_part].
      destruct i as [|[|[|i]]]; [| | |lia];
        destruct k as [|[|[|k]]]; try lia;
        rewrite ?S0, ?S1, ?S2, ?C0, ?C1, ?C2; lra.
    + intros m Hm.
      rewrite normal_matrix_entry by exact Hm || exact Hk.
      rewrite (fsum_fin _ _
                 (fun l => reg_K (sR quarter_dates) (cR quarter_dates) i l
                           * Pr (pinv_quarter (normal_matrix quarter_dates)) l m)).
      * reflexivity.
      * intros l Hl. rewrite normal_matrix_entry by exact Hi || exact Hl.
        destruct l as [|[|[|l]]]; [| | |lia];
          destruct m as [|[|[|m]]]; try lia; reflexivity.
Qed.

Lemma quarter_rows : Forall2 gw_row quarter_dates (map quarter_data_row quarter_dates).
Proof.
  unfold quarter_dates. cbn [map].
  repeat constructor;
    (eexists [Fin 0.5; Fin 10; Fin 4; Fin 10]; split; [cbn; lia | reflexivity]).
Qed.

Lemma quarter_predictions :
  Forall2 (predicts 0 (Fin 10) (Fin 2) 5 3 4) quarter_dates
          (map quarter_pred_row quarter_dates).
Proof.
  unfold quarter_dates. cbn [map].
  repeat constructor;
    (eexists; split; [reflexivity | cbn; f_equal; field]).
Qed.

Lemma C3_batched_regression_matches_estimator_witness :
  exists g f,
    GW_loss_prep_segment pinv_quarter 0 (Fin 10) (Fin 2)
                         (map quarter_data_row quarter_dates)
                         (map quarter_pred_row quarter_dates) = Ok g
    /\ amp_phi ols_5_3_4 quarter_dates (sinusoid 5 3 4 quarter_dates) false = Ok f
    /\ g_Aw g = amp f
    /\ g_Phiw g = phi f.
Proof.
  apply (C3_batched_regression_matches_estimator
           pinv_quarter ols_5_3_4 0 (Fin 10) (Fin 2) quarter_dates false 5 3 4
           (map quarter_data_row quarter_dates)
           (map quarter_pred_row quarter_dates) fit_5_3_4).
  - apply quarter_rows.
  - apply quarter_predictions.
  - apply pinv_quarter_generalized_inverse.
  - rewrite quarter_gram_det. lra.
  - reflexivity.
  - apply (ols_5_3_4_least_squares false quarter_dates).
  - unfold ols_input. rewrite quarter_gram_det. lra.
Defined.

(* ================================================================== *)
(** * The composite loss *)
(* ================================================================== *)

Lemma index_from2_to_m2 {A : Type} (row : list A) (k : nat) (x : A) :
  index (from2_to_m2 row) k = Ok x -> index row (2 + k) = Ok x.
Proof.
  unfold index, from2_to_m2. rewrite nth_error_skipn.
  destruct (nth_error (firstn (length row - 2) row) (2 + k)) as [y|] eqn:E;
    [|discriminate].
  intros H. injection H as <-.
  destruct (Nat.lt_ge_cases (2 + k) (length row - 2)) as [Hlt|Hge].
  - rewrite nth_error_firstn in E.
    replace (2 + k <? length row - 2)%nat with true in E
      by (symmetry; apply Nat.ltb_lt; exact Hlt).
    rewrite E. reflexivity.
  - assert (Hn : nth_error (firstn (length row - 2) row) (2 + k) = None).
    { apply nth_error_None. rewrite length_firstn. lia. }
    congruence.
Qed.

Lemma index_map {A B : Type} (f : A -> B) (l : list A) (i : nat) (y : B) :
  index (map f l) i = Ok y -> exists x, index l i = Ok x /\ y = f x.
Proof.
  unfold index. rewrite nth_error_map.
  destruct (nth_error l i) as [x|]; cbn; [|discriminate].
  intros H. injection H as <-. eauto.
Qed.

Section LossFacts.

Variable pinv : matrix -> matrix.
Variable temp_index : nat.
Variables temp_mean temp_sd : float.

Lemma GW_loss_prep_segment_terms (seg_data seg_pred : list (list float))
      (g : GWSegment) :
  GW_loss_prep_segment pinv temp_index temp_mean temp_sd seg_data seg_pred = Ok g ->
  gw_terms seg_data g.
Proof.
  unfold GW_loss_prep_segment. intros H.
  destruct (regression_coeffs _ _ _) as [a_b|]; cbn [bind] in H; [|discriminate].
  destruct (mindex a_b 1 0) as [a|]; cbn [bind] in H; [|discriminate].
  destruct (mindex a_b 2 0) as [b|]; cbn [bind] in H; [|discriminate].
  destruct (index (map from2_to_m2 seg_data) 0) as [first|] eqn:Ef;
    cbn [bind] in H; [|discriminate].
  destruct (index first 2) as [air_phi|] eqn:E2; cbn [bind] in H; [|discriminate].
  destruct (index first 3) as [air_amp|] eqn:E3; cbn [bind] in H; [|discriminate].
  destruct (index first 0) as [Ar_obs|] eqn:E0; cbn [bind] in H; [|discriminate].
  destruct (index first 1) as [delPhi_obs|] eqn:E1; cbn [bind] in H; [|discriminate].
  injection H as <-.
  apply index_map in Ef. destruct Ef as [row [Hrow ->]].
  apply index_from2_to_m2 in E0, E1, E2, E3.
  unfold gw_terms, index2. rewrite Hrow. cbn [bind g_Ar_obs g_delPhi_obs
    g_Ar_pred g_delPhi_pred g_Aw g_Phiw].
  split; [exact E0|]. split; [exact E1|].
  exists air_phi, air_amp. repeat split; assumption.
Qed.

End LossFacts.

Lemma comp2_Forall2 {A B C : Type} (f : A -> B -> Exc C) (R : A -> C -> Prop) :
  (forall x y z, f x y = Ok z -> R x z) ->
  forall xs ys zs, comp2 f xs ys = Ok zs -> Forall2 R xs zs.
Proof.
  intros Hf. induction xs as [|x xs IH]; intros ys zs H; cbn in H.
  - injection H as <-. constructor.
  - destruct ys as [|y ys]; [discriminate|].
    destruct (f x y) as [z|] eqn:Ez; cbn [bind] in H; [|discriminate].
    destruct (comp2 f xs ys) as [zs'|] eqn:E; cbn [bind] in H; [|discriminate].
    injection H as <-. constructor; [eapply Hf; eassumption | eapply IH; eassumption].
Qed.

Lemma comp2_Forall2_pairs {A B C : Type} (f : A -> B -> Exc C)
      (R : A * B -> C -> Prop) :
  (forall x y z, f x y = Ok z -> R (x, y) z) ->
  forall xs ys zs, comp2 f xs ys = Ok zs -> Forall2 R (combine xs ys) zs.
Proof.
  intros Hf. induction xs as [|x xs IH]; intros ys zs H; cbn in H.
  - injection H as <-. constructor.
  - destruct ys as [|y ys]; [discriminate|].
    destruct (f x y) as [z|] eqn:Ez; cbn [bind] in H; [|discriminate].
    destruct (comp2 f xs ys) as [zs'|] eqn:E; cbn [bind] in H; [|discriminate].
    injection H as <-. cbn [combine].
    constructor; [eapply Hf; eassumption | eapply IH; eassumption].
Qed.

(** A channel that can be read is the list of its entries. *)
Lemma comp_index_nth (i : nat) (seg : list (list float)) :
  forall row,
    comp (fun step => index step i) seg = Ok row ->
    row = map (fun step => nth i step NaN) seg.
Proof.
  induction seg as [|step seg IH]; intros row H; cbn [comp] in H.
  - injection H as <-. reflexivity.
  - unfold index in H at 1.
    destruct (nth_error step i) as [v|] eqn:E; cbn [bind] in H; [|discriminate].
    destruct (comp _ seg) as [row'|]; cbn [bind] in H; [|discriminate].
    injection H as <-. cbn [map]. rewrite (IH row' eq_refl).
    f_equal. symmetry. apply nth_error_nth. exact E.
Qed.

Lemma channel_closed (t : tensor3) (i : nat) (l : tensor) :
  channel t i = Ok l -> l = plain_channel i t.
Proof.
  unfold channel, plain_channel.
  destruct (comp _ t) as [rows|] eqn:E; cbn [bind]; [|discriminate].
  intros H. injection H as <-. f_equal.
  revert rows E. induction t as [|seg t IH]; intros rows E; cbn [comp] in E.
  - injection E as <-. reflexivity.
  - destruct (comp (fun step => index step i) seg) as [row|] eqn:Er;
      cbn [bind] in E; [|discriminate].
    destruct (comp _ t) as [rows'|]; cbn [bind] in E; [|discriminate].
    injection E as <-. cbn [map]. rewrite (IH rows' eq_refl).
    f_equal. apply comp_index_nth. exact Er.
Qed.

Lemma combine_maps {A B C : Type} (f : A -> B) (g : A -> C) (l : list A) :
  combine (map f l) (map g l) = map (fun x => (f x, g x)) l.
Proof.
  induction l as [|x l IH]; [reflexivity|]. cbn [map combine]. rewrite IH.
  reflexivity.
Qed.

Lemma nth_where_mask (w y : list float) :
  length w = length y ->
  forall i,
    nth i (tf_where (map (fun u => F.eqb u (Fin 0)) w)
                    (map (fun _ => NaN) y) y) NaN
    = if F.eqb (nth i w NaN) (Fin 0) then NaN else nth i y NaN.
Proof.
  revert y. induction w as [|u w IH]; intros [|v y] Hlen i; cbn in Hlen;
    try discriminate.
  - destruct i; reflexivity.
  - cbn [map tf_where]. destruct i as [|i]; cbn [nth].
    + destruct (F.eqb u (Fin 0)); reflexivity.
    + apply IH. lia.
Qed.

Lemma last2_first2_length {A : Type} (step : list A) :
  length (last2 step) = length (first2 step).
Proof.
  unfold last2, first2. rewrite length_skipn, length_firstn. lia.
Qed.

(** What [y_data_components] returns: the masked targets, the
    predictions and the weights of the variable. *)
Lemma y_data_components_closed (data y_pred : tensor3) (i : nat)
      (c : tensor * tensor * tensor) :
  y_data_components data y_pred i = Ok c ->
  fst (fst c) = masked_channel i data
  /\ snd (fst c) = plain_channel i y_pred
  /\ snd c = plain_channel i (map (map last2) data).
Proof.
  unfold y_data_components. cbv zeta. intros H.
  destruct (channel (map (map last2) data) i) as [w|] eqn:Ew; cbn [bind] in H;
    [|discriminate].
  destruct (channel _ i) as [yt|] eqn:Et in H; cbn [bind] in H; [|discriminate].
  destruct (channel y_pred i) as [yp|] eqn:Ep; cbn [bind] in H; [|discriminate].
  injection H as <-. cbn [fst snd].
  apply channel_closed in Ew, Et, Ep. subst w yt yp.
  split; [|split; reflexivity].
  unfold plain_channel, masked_channel. f_equal.
  rewrite combine_maps, !map_map. apply map_ext. intros seg. cbn [fst snd].
  rewrite combine_maps, !map_map. apply map_ext. intros step. cbn [fst snd].
  unfold masked_target. apply nth_where_mask, last2_first2_length.
Qed.

Section LossClosedForm.

Variable pinv : matrix -> matrix.
Variable temp_index : nat.
Variables temp_mean temp_sd : float.

Lemma regression_coeffs_closed (y_true y_pred_temp : list (list float))
      (a_b : matrix) :
  regression_coeffs pinv y_true y_pred_temp = Ok a_b ->
  a_b = batched_coefficients pinv (column 0 (map last2 y_true))
                             (column 1 (map last2 y_true)) y_pred_temp.
Proof.
  unfold regression_coeffs. cbv zeta. intros H.
  destruct (comp (fun step => index step 0) (map last2 y_true)) as [s|] eqn:Es;
    cbn [bind] in H; [|discriminate].
  destruct (comp (fun step => index step 1) (map last2 y_true)) as [c|] eqn:Ec;
    cbn [bind] in H; [|discriminate].
  injection H as <-.
  apply comp_index_nth in Es, Ec. subst s c. reflexivity.
Qed.

Lemma GW_loss_prep_segment_fit (seg_data seg_pred : list (list float))
      (g : GWSegment) :
  GW_loss_prep_segment pinv temp_index temp_mean temp_sd seg_data seg_pred = Ok g ->
  gw_fit pinv temp_index temp_mean temp_sd (seg_data, seg_pred) g.
Proof.
  unfold GW_loss_prep_segment. cbv zeta. intros H.
  destruct (regression_coeffs _ _ _) as [a_b|] eqn:Eab; cbn [bind] in H;
    [|discriminate].
  destruct (mindex a_b 1 0) as [a|] eqn:Ea; cbn [bind] in H; [|discriminate].
  destruct (mindex a_b 2 0) as [b|] eqn:Eb; cbn [bind] in H; [|discriminate].
  repeat match type of H with
         | bind ?m _ = Ok _ => destruct m; cbn [bind] in H; [|discriminate]
         end.
  injection H as <-.
  apply regression_coeffs_closed in Eab. subst a_b.
  unfold gw_fit. cbv zeta. cbn [fst snd g_Aw g_Phiw].
  exists a, b. repeat split; assumption.
Qed.

End LossClosedForm.

(** C5.  When the composite loss evaluates, it is
    [rmse(main) + lamb * rmse(aux) + lamb2 * rmse(Ar) + lamb3 * rmse(delPhi)]:
    the first term compares channel 0 of the targets, set to NaN where
    its weight (channel -2) is zero, with channel 0 of the prediction; the
    second does the same for channel 1 and its weight (channel -1); the
    last two compare, per segment, the stored [Ar_obs] and [delPhi_obs]
    with [Aw / air_amp] and [(Phiw - air_phi) * 365 / (2 pi)], where [Aw]
    and [Phiw] are the amplitude and the phase of rows 1 and 2 of the
    coefficients [(pinv(X^T X) X^T) y] of the batched regression. *)
Theorem C5_composite_loss_terms
        (pinv : matrix -> matrix) (temp_index : nat) (temp_mean temp_sd : float)
        (lamb lamb2 lamb3 : float) (data y_pred : tensor3) (loss : float) :
  rmse_masked_combined_gw pinv temp_index temp_mean temp_sd lamb lamb2 lamb3
                          data y_pred = Ok loss ->
  exists main aux segs,
    y_data_components data y_pred 0 = Ok main
    /\ y_data_components data y_pred 1 = Ok aux
    /\ comp2 (GW_loss_prep_segment pinv temp_index temp_mean temp_sd) data y_pred
       = Ok segs
    /\ Forall2 gw_terms data segs
    /\ loss = (rmse (fst (fst main)) (snd (fst main))
               + lamb * rmse (fst (fst aux)) (snd (fst aux))
               + lamb2 * rmse (map g_Ar_obs segs) (map g_Ar_pred segs)
               + lamb3 * rmse (map g_delPhi_obs segs) (map g_delPhi_pred segs))%float
    /\ fst (fst main) = masked_channel 0 data
    /\ snd (fst main) = plain_channel 0 y_pred
    /\ fst (fst aux) = masked_channel 1 data
    /\ snd (fst aux) = plain_channel 1 y_pred
    /\ Forall2 (gw_fit pinv temp_index temp_mean temp_sd) (combine data y_pred) segs
    /\ loss = (rmse (masked_channel 0 data) (plain_channel 0 y_pred)
               + lamb * rmse (masked_channel 1 data) (plain_channel 1 y_pred)
               + lamb2 * rmse (map g_Ar_obs segs) (map g_Ar_pred segs)
               + lamb3 * rmse (map g_delPhi_obs segs) (map g_delPhi_pred segs))%float.
Proof.
  unfold rmse_masked_combined_gw, rmse_masked_one_var, GW_loss_prep. intros H.
  destruct (y_data_components data y_pred 0) as [main|] eqn:Em; cbn [bind] in H;
    [|discriminate].
  destruct (y_data_components data y_pred 1) as [aux|] eqn:Ea; cbn [bind] in H;
    [|discriminate].
  destruct (comp2 _ data y_pred) as [segs|] eqn:Es; cbn [bind] in H;
    [|discriminate].
  injection H as <-.
  destruct (y_data_components_closed _ _ _ _ Em) as [Hm1 [Hm2 _]].
  destruct (y_data_components_closed _ _ _ _ Ea) as [Ha1 [Ha2 _]].
  exists main, aux, segs.
  split; [reflexivity|]. split; [reflexivity|]. split; [reflexivity|].
  split.
  { eapply comp2_Forall2; [|exact Es].
    intros x y z Hz. eapply GW_loss_prep_segment_terms; exact Hz. }
  split; [reflexivity|].
  split; [exact Hm1|]. split; [exact Hm2|]. split; [exact Ha1|].
  split; [exact Ha2|]. split.
  { eapply comp2_Forall2_pairs; [|exact Es].
    intros x y z Hz. apply GW_loss_prep_segment_fit. exact Hz. }
  rewrite Hm1, Hm2, Ha1, Ha2. reflexivity.
Qed.

Lemma quarter_loss_runs (lamb lamb2 lamb3 : float) :
  exists loss,
    rmse_masked_combined_gw pinv_quarter 0 (Fin 10) (Fin 2) lamb lamb2 lamb3
                            [map quarter_data_row quarter_dates]
                            [map quarter_pred_row quarter_dates] = Ok loss.
Proof.
  unfold rmse_masked_combined_gw, GW_loss_prep. cbn [comp2].
  destruct (GW_loss_prep_segment_exact pinv_quarter 0 (Fin 10) (Fin 2)
              quarter_dates 5 3 4
              (map quarter_data_row quarter_dates)
              (map quarter_pred_row quarter_dates)
              quarter_rows quarter_predictions
              pinv_quarter_generalized_inverse)
    as [g [Hg _]].
  { rewrite quarter_gram_det. lra. }
  rewrite Hg. cbn [bind map].
  assert (H0 : exists m, rmse_masked_one_var [map quarter_data_row quarter_dates]
                           [map quarter_pred_row quarter_dates] 0 = Ok m).
  { eexists. reflexivity. }
  assert (H1 : exists m, rmse_masked_one_var [map quarter_data_row quarter_dates]
                           [map quarter_pred_row quarter_dates] 1 = Ok m).
  { eexists. reflexivity. }
  destruct H0 as [m0 ->]. destruct H1 as [m1 ->]. cbn [bind].
  eexists. reflexivity.
Qed.

Lemma C5_composite_loss_terms_witness :
  exists loss main aux segs,
    y_data_components [map quarter_data_row quarter_dates]
                      [map quarter_pred_row quarter_dates] 0 = Ok main
    /\ y_data_components [map quarter_data_row quarter_dates]
                         [map quarter_pred_row quarter_dates] 1 = Ok aux
    /\ comp2 (GW_loss_prep_segment pinv_quarter 0 (Fin 10) (Fin 2))
             [map quarter_data_row quarter_dates]
             [map quarter_pred_row quarter_dates] = Ok segs
    /\ Forall2 gw_terms [map quarter_data_row quarter_dates] segs
    /\ loss = (rmse (fst (fst main)) (snd (fst main))
               + Fin 0.5 * rmse (fst (fst aux)) (snd (fst aux))
               + Fin 1 * rmse (map g_Ar_obs segs) (map g_Ar_pred segs)
               + Fin 1 * rmse (map g_delPhi_obs segs) (map g_delPhi_pred segs))%float
    /\ fst (fst main) = masked_channel 0 [map quarter_data_row quarter_dates]
    /\ snd (fst main) = plain_channel 0 [map quarter_pred_row quarter_dates]
    /\ fst (fst aux) = masked_channel 1 [map quarter_data_row quarter_dates]
    /\ snd (fst aux) = plain_channel 1 [map quarter_pred_row quarter_dates]
    /\ Forall2 (gw_fit pinv_quarter 0 (Fin 10) (Fin 2))
               (combine [map quarter_data_row quarter_dates]
                        [map quarter_pred_row quarter_dates]) segs
    /\ loss = (rmse (masked_channel 0 [map quarter_data_row quarter_dates])
                    (plain_channel 0 [map quarter_pred_row quarter_dates])
               + Fin 0.5 * rmse (masked_channel 1 [map quarter_data_row quarter_dates])
                                (plain_channel 1 [map quarter_pred_row quarter_dates])
               + Fin 1 * rmse (map g_Ar_obs segs) (map g_Ar_pred segs)
               + Fin 1 * rmse (map g_delPhi_obs segs) (map g_delPhi_pred segs))%float.
Proof.
  destruct (quarter_loss_runs (Fin 0.5) (Fin 1) (Fin 1)) as [loss H].
  exists loss.
  apply (C5_composite_loss_terms pinv_quarter 0 (Fin 10) (Fin 2)
           (Fin 0.5) (Fin 1) (Fin 1)
           [map quarter_data_row quarter_dates]
           [map quarter_pred_row quarter_dates] loss H).
Defined.

(* ================================================================== *)
(** * Further properties of the signal table builder *)
(* ================================================================== *)

Section MoreFilter.

Local Open Scope float_scope.

Lemma filter_segment_thresholds (p : float * float) :
  filter_segment p = thresholds p.
Proof.
  destruct p as [a d].
  unfold filter_segment, thresholds, rule_iii, rule_ii, rule_i, keep_if_Ar_le,
    keep_if_delPhi_ge, reset_delPhi; cbn [fst snd].
  destruct a as [| | |a]; destruct d as [| | |d]; fnorm; cbn;
    repeat match goal with
      | |- context [Rleb ?x ?y] => destruct (Rleb x y); cbn
      | |- context [Rltb ?x ?y] => destruct (Rltb x y); cbn
      end; reflexivity.
Qed.

(** X1.  The threshold block has a closed form per segment: a pair with
    [Ar_obs <= 1.1] and [delPhi_obs >= -10] keeps its [Ar_obs] and gets
    [delPhi_obs] if that is positive and 0 otherwise; every other pair
    (NaN included) becomes (NaN, NaN). *)
Theorem X_threshold_block_closed_form (Ar_obs delPhi_obs : list float) :
  length Ar_obs = length delPhi_obs ->
  plausibility_filter Ar_obs delPhi_obs
  = Ok (unzip (map thresholds (combine Ar_obs delPhi_obs))).
Proof.
  intros Hlen. rewrite plausibility_filter_pointwise by exact Hlen.
  f_equal. f_equal. apply map_ext. exact filter_segment_thresholds.
Qed.

Lemma thresholds_idempotent (p : float * float) :
  thresholds (thresholds p) = thresholds p.
Proof.
  destruct p as [a d]. unfold thresholds; cbn [fst snd].
  destruct a as [| | |a]; destruct d as [| | |d]; fnorm;
    repeat (cbn; Rcmp;
            match goal with
            | H : ?c = _ |- context [?c] => rewrite H
            | |- context [Rleb ?x ?y] => destruct (Rleb x y) eqn:?
            | |- context [Rltb ?x ?y] => destruct (Rltb x y) eqn:?
            end);
    cbn; Rcmp; reflexivity.
Qed.

(** X2.  Running the threshold block on its own output changes nothing. *)
Theorem X_threshold_block_idempotent (Ar_obs delPhi_obs Ar1 delPhi1 : list float) :
  plausibility_filter Ar_obs delPhi_obs = Ok (Ar1, delPhi1) ->
  plausibility_filter Ar1 delPhi1 = Ok (Ar1, delPhi1).
Proof.
  intros H. pose proof (plausibility_filter_lengths _ _ _ _ H) as Hlen.
  rewrite plausibility_filter_pointwise in H by exact Hlen.
  injection H as <- <-.
  rewrite plausibility_filter_pointwise by (rewrite !length_map; reflexivity).
  rewrite map_fst_combine_map, map_map.
  unfold unzip. rewrite !map_map. f_equal. f_equal.
  - apply map_ext. intros p. rewrite <- surjective_pairing.
    rewrite !filter_segment_thresholds, thresholds_idempotent. reflexivity.
  - apply map_ext. intros p. rewrite <- surjective_pairing.
    rewrite !filter_segment_thresholds, thresholds_idempotent. reflexivity.
Qed.

End MoreFilter.

Lemma X_threshold_block_closed_form_witness :
  plausibility_filter [Fin 0.5; NaN] [Fin 20; Fin 3]
  = Ok (unzip (map thresholds (combine [Fin 0.5; NaN] [Fin 20; Fin 3]))).
Proof.
  apply (X_threshold_block_closed_form [Fin 0.5; NaN] [Fin 20; Fin 3]).
  reflexivity.
Defined.

Lemma filter_example :
  plausibility_filter [Fin 0.5; NaN] [Fin (-3); Fin 3] = Ok ([Fin 0.5; NaN], [Fin 0; NaN]).
Proof.
  rewrite plausibility_filter_pointwise by reflexivity.
  cbn [combine map]. rewrite !filter_segment_thresholds.
  unfold thresholds; cbn [fst snd]. fnorm. cbn.
  rewrite (Rleb_true 0.5 1.1), (Rleb_true (-10) (-3)), (Rltb_false 0 (-3)) by lra.
  reflexivity.
Qed.

Lemma X_threshold_block_idempotent_witness :
  plausibility_filter [Fin 0.5; NaN] [Fin 0; NaN] = Ok ([Fin 0.5; NaN], [Fin 0; NaN]).
Proof.
  apply (X_threshold_block_idempotent [Fin 0.5; NaN] [Fin (-3); Fin 3]).
  apply filter_example.
Defined.

Lemma comp2_py_div_cases {A : Type} (g h : A -> float) (l : list A) :
  comp2 py_div (map g l) (map h l)
  = if existsb (fun x => is_zero (h x)) l
    then Raise ZeroDivisionError
    else Ok (map (fun x => (g x / h x)%float) l).
Proof.
  induction l as [|x l IH]; [reflexivity|].
  cbn [map comp2 existsb]. rewrite IH.
  unfold py_div, is_zero. destruct (h x) as [| | |r]; cbn [orb bind].
  - destruct (existsb _ l); reflexivity.
  - destruct (existsb _ l); reflexivity.
  - destruct (existsb _ l); reflexivity.
  - destruct (Reqb r 0); cbn [orb bind]; [reflexivity|].
    destruct (existsb _ l); reflexivity.
Qed.

Lemma existsb_orb {A : Type} (f g : A -> bool) (l : list A) :
  existsb (fun x => f x || g x) l = existsb f l || existsb g l.
Proof.
  induction l as [|x l IH]; [reflexivity|]. cbn [existsb]. rewrite IH.
  destruct (f x), (g x), (existsb f l), (existsb g l); reflexivity.
Qed.

Section MoreBuilder.

Variable OLS_fit : list float -> list (list float) -> Exc OLSResults.

(** What [annual_temp_stats] returns once the fits of the segments are
    there: [ZeroDivisionError] when an air amplitude or one of its bounds
    is zero, the table otherwise. *)
Lemma annual_temp_stats_cases (thisData : Dataset)
      (fits : list (HarmonicFit * HarmonicFit * HarmonicFit)) :
  comp (segment_fits OLS_fit thisData) (seq 0 (length (seg_id_nat thisData)))
  = Ok fits ->
  annual_temp_stats OLS_fit thisData
  = if existsb zero_divisor fits
    then Raise ZeroDivisionError
    else Ok (table_of_fits (seg_id_nat thisData) fits).
Proof.
  intros Hf. unfold annual_temp_stats. rewrite Hf. cbn [bind].
  rewrite !map_map.
  change (fun x : HarmonicFit * HarmonicFit * HarmonicFit => amp (snd x))
    with (fun x => amp (obs_fit x)).
  change (fun x : HarmonicFit * HarmonicFit * HarmonicFit => amp (fst (fst x)))
    with (fun x => amp (air_fit x)).
  change (fun x : HarmonicFit * HarmonicFit * HarmonicFit => amp_high (fst (fst x)))
    with (fun x => amp_high (air_fit x)).
  change (fun x : HarmonicFit * HarmonicFit * HarmonicFit => amp_low (fst (fst x)))
    with (fun x => amp_low (air_fit x)).
  unfold zero_divisor. rewrite !existsb_orb.
  rewrite (comp2_py_div_cases (fun x => amp (obs_fit x)) (fun x => amp (air_fit x))).
  destruct (existsb (fun x => is_zero (amp (air_fit x))) fits) eqn:E1;
    cbn [orb bind]; [reflexivity|].
  rewrite (comp2_pure_maps phase_shift_days). cbn [bind].
  rewrite (comp2_py_div_cases (fun x => amp_low (snd x))
                              (fun x => amp_high (air_fit x))).
  destruct (existsb (fun x => is_zero (amp_high (air_fit x))) fits) eqn:E2;
    cbn [orb bind]; [reflexivity|].
  rewrite (comp2_py_div_cases (fun x => amp_high (snd x))
                              (fun x => amp_low (air_fit x))).
  destruct (existsb (fun x => is_zero (amp_low (air_fit x))) fits) eqn:E3;
    cbn [orb bind]; [reflexivity|].
  rewrite !(comp2_pure_maps phase_shift_days). cbn [bind].
  rewrite plausibility_filter_maps. cbn [bind fst snd].
  rewrite (comp2_py_div_cases (fun x => amp (snd (fst x)))
                              (fun x => amp (air_fit x))).
  rewrite E1. cbn [bind]. reflexivity.
Qed.

Lemma annual_temp_stats_inv (thisData : Dataset) (T : SignalTable) :
  annual_temp_stats OLS_fit thisData = Ok T ->
  exists fits,
    length fits = length (seg_id_nat thisData)
    /\ T = table_of_fits (seg_id_nat thisData) fits.
Proof.
  intros H.
  destruct (comp (segment_fits OLS_fit thisData)
                 (seq 0 (length (seg_id_nat thisData)))) as [fits|e] eqn:Ef.
  - rewrite (annual_temp_stats_cases _ _ Ef) in H.
    destruct (existsb zero_divisor fits); [discriminate|].
    injection H as <-. exists fits. split; [|reflexivity].
    apply comp_length in Ef. rewrite length_seq in Ef. exact Ef.
  - unfold annual_temp_stats in H. rewrite Ef in H. discriminate.
Qed.

End MoreBuilder.

(** X3.  On a well-formed dataset with at least one date, the fits of all
    segments succeed and [annual_temp_stats] raises exactly when the air
    fit of some segment has a zero amplitude, a zero upper or a zero lower
    amplitude bound, and what it raises is [ZeroDivisionError]; otherwise
    it returns the table of the fits.  On a well-formed dataset with a
    segment but without a date it raises [ValueError]. *)
Theorem X_builder_raises_on_zero_air_amplitude
        (OLS_fit : list float -> list (list float) -> Exc OLSResults)
        (thisData : Dataset) :
  well_formed thisData ->
  (date thisData <> [] ->
   exists fits,
     comp (segment_fits OLS_fit thisData) (seq 0 (length (seg_id_nat thisData)))
     = Ok fits
     /\ annual_temp_stats OLS_fit thisData
        = if existsb zero_divisor fits
          then Raise ZeroDivisionError
          else Ok (table_of_fits (seg_id_nat thisData) fits))
  /\ (date thisData = [] -> seg_id_nat thisData <> [] ->
      annual_temp_stats OLS_fit thisData = Raise ValueError).
Proof.
  intros Hwf. split.
  - intros Hd.
    destruct (comp_total (segment_fits OLS_fit thisData)
                         (seq 0 (length (seg_id_nat thisData)))) as [fits Hf].
    { intros i Hi. apply in_seq in Hi.
      apply segment_fits_total; [assumption | assumption | lia]. }
    exists fits. split; [exact Hf|]. apply annual_temp_stats_cases, Hf.
  - intros Hd Hs. destruct Hwf as [Ha _].
    unfold annual_temp_stats.
    destruct (seg_id_nat thisData) as [|s ids]; [contradiction|].
    cbn [length seq comp]. unfold segment_fits at 1.
    destruct (index_total (seg_tave_air thisData) 0) as [a [-> _]];
      [rewrite Ha; cbn; lia|].
    cbn [bind]. rewrite Hd, amp_phi_empty. reflexivity.
Qed.

Lemma X_builder_raises_on_zero_air_amplitude_witness :
  (exists fits,
      comp (segment_fits ols_zero_or_fail (one_segment 366 (Fin 0) NaN NaN))
           (seq 0 1) = Ok fits
      /\ annual_temp_stats ols_zero_or_fail (one_segment 366 (Fin 0) NaN NaN)
         = if existsb zero_divisor fits
           then Raise ZeroDivisionError
           else Ok (table_of_fits [1%Z] fits))
  /\ annual_temp_stats ols_zero_or_fail (one_segment 0 (Fin 0) NaN NaN)
     = Raise ValueError.
Proof.
  split.
  - apply (proj1 (X_builder_raises_on_zero_air_amplitude
                    ols_zero_or_fail (one_segment 366 (Fin 0) NaN NaN)
                    (one_segment_well_formed 366 (Fin 0) NaN NaN))).
    apply daily_dates_nonempty. lia.
  - apply (proj2 (X_builder_raises_on_zero_air_amplitude
                    ols_zero_or_fail (one_segment 0 (Fin 0) NaN NaN)
                    (one_segment_well_formed 0 (Fin 0) NaN NaN))).
    + reflexivity.
    + discriminate.
Defined.

(** X4.  A table that [annual_temp_stats] returns has one entry per segment
    in every column. *)
Theorem X_table_has_one_row_per_segment
        (OLS_fit : list float -> list (list float) -> Exc OLSResults)
        (thisData : Dataset) (T : SignalTable) :
  annual_temp_stats OLS_fit thisData = Ok T ->
  table_height T (length (seg_id_nat thisData)).
Proof.
  intros H. destruct (annual_temp_stats_inv _ _ _ H) as [fits [Hlen ->]].
  unfold table_height, table_of_fits; cbn.
  rewrite !length_map. repeat split; try exact Hlen.
Qed.

Lemma X_table_has_one_row_per_segment_witness :
  table_height exact_table 1.
Proof.
  apply (X_table_has_one_row_per_segment
           ols_exact (one_segment 366 (Fin 12) (Fin 10) (Fin 10)) exact_table).
  apply annual_temp_stats_exact.
Defined.

(** X5.  In a table that [annual_temp_stats] returns, every row is consistent
    with its own amplitude and phase columns: [Ar_pbm] and [delPhi_pbm]
    are the plain quotient and shift (no threshold is applied to the
    process-based model), and [Ar_obs], [delPhi_obs] are the quotient and
    shift of the observations passed through the thresholds. *)
Theorem X_table_rows_consistent
        (OLS_fit : list float -> list (list float) -> Exc OLSResults)
        (thisData : Dataset) (T : SignalTable) (i : nat) :
  annual_temp_stats OLS_fit thisData = Ok T ->
  (i < length (seg_id_nat thisData))%nat ->
  row_consistent T i.
Proof.
  intros H Hi. destruct (annual_temp_stats_inv _ _ _ H) as [fits [Hlen ->]].
  destruct (nth_error fits i) as [f|] eqn:Ef;
    [|apply nth_error_None in Ef; lia].
  unfold row_consistent, table_of_fits; cbn.
  rewrite !nth_error_map, Ef. cbn [option_map].
  do 8 eexists. repeat split.
  rewrite <- filter_segment_thresholds. unfold raw_Ar_obs, raw_delPhi_obs.
  apply surjective_pairing.
Qed.

Lemma X_table_rows_consistent_witness : row_consistent exact_table 0.
Proof.
  apply (X_table_rows_consistent
           ols_exact (one_segment 366 (Fin 12) (Fin 10) (Fin 10)) exact_table 0).
  - apply annual_temp_stats_exact.
  - cbn. lia.
Defined.

Lemma comp_ext {A B : Type} (f g : A -> Exc B) (l : list A) :
  (forall x, f x = g x) -> comp f l = comp g l.
Proof.
  intros H. induction l as [|x l IH]; [reflexivity|].
  cbn [comp]. rewrite H, IH. reflexivity.
Qed.




Lemma min_max_inv_step (a b x : float) :
  min_max_inv a b -> min_max_inv (F.min a x) (F.max b x).
Proof.
  unfold min_max_inv, F.min, F.max.
  intros [->|[->|[->|[->|[a' [b' [-> [-> Hab]]]]]]]].
  - left. reflexivity.
  - destruct x; cbn; auto.
  - right; right; left. reflexivity.
  - destruct x; cbn; auto 6.
  - destruct x as [| | |v]; cbn; auto 6.
    destruct (Rleb a' v) eqn:E1; destruct (Rleb b' v) eqn:E2;
      do 4 right; do 2 eexists; (split; [reflexivity|split; [reflexivity|]]).
    + apply Rleb_spec in E1. exact E1.
    + exact Hab.
    + lra.
    + unfold Rleb in E1, E2. destruct (Rle_dec a' v), (Rle_dec b' v);
        try discriminate. lra.
Qed.

Lemma fold_min_max_inv (xs : list float) :
  forall a b, min_max_inv a b ->
              min_max_inv (fold_left F.min xs a) (fold_left F.max xs b).
Proof.
  induction xs as [|x xs IH]; intros a b H; cbn [fold_left]; [exact H|].
  apply IH, min_max_inv_step, H.
Qed.

(** On one array, a finite [np.min] is at most a finite [np.max]. *)
Lemma np_min_le_np_max (xs : list float) (m M : R) :
  np_min xs = Ok (Fin m) -> np_max xs = Ok (Fin M) -> m <= M.
Proof.
  destruct xs as [|x xs]; [discriminate|]. cbn [np_min np_max].
  intros Hm HM. injection Hm as Hm. injection HM as HM.
  assert (H0 : min_max_inv x x).
  { unfold min_max_inv. destruct x; auto 6.
    do 4 right. do 2 eexists. split; [reflexivity|split; [reflexivity|lra]]. }
  pose proof (fold_min_max_inv xs x x H0) as H. rewrite Hm, HM in H.
  destruct H as [H|[H|[H|[H|[a' [b' [Ha [Hb Hab]]]]]]]]; try discriminate.
  injection Ha as <-. injection Hb as <-. exact Hab.
Qed.

Lemma abs_nonneg (x : float) : nonneg_or_special (F.abs x).
Proof.
  unfold nonneg_or_special. destruct x; cbn; auto.
  right; right. eexists; split; [reflexivity | apply Rabs_pos].
Qed.

Lemma min_nonneg (a x : float) :
  nonneg_or_special a -> nonneg_or_special x -> nonneg_or_special (F.min a x).
Proof.
  unfold nonneg_or_special, F.min.
  intros [->|[->|[r [-> Hr]]]] [->|[->|[v [-> Hv]]]]; cbn; auto.
  - right; right; eauto.
  - right; right; eauto.
  - destruct (Rleb r v); right; right; eauto.
Qed.

Lemma fold_min_nonneg (xs : list float) :
  forall a, nonneg_or_special a -> Forall nonneg_or_special xs ->
            nonneg_or_special (fold_left F.min xs a).
Proof.
  induction xs as [|x xs IH]; intros a Ha Hxs; cbn [fold_left]; [exact Ha|].
  inversion Hxs; subst. apply IH; [apply min_nonneg|]; assumption.
Qed.

Lemma np_min_abs_nonneg (xs : list float) (m : R) :
  np_min (map F.abs xs) = Ok (Fin m) -> 0 <= m.
Proof.
  destruct xs as [|x xs]; [discriminate|]. cbn [map np_min].
  intros H. injection H as H.
  assert (N : nonneg_or_special (fold_left F.min (map F.abs xs) (F.abs x))).
  { apply fold_min_nonneg; [apply abs_nonneg|].
    apply Forall_forall. intros y Hy. apply in_map_iff in Hy.
    destruct Hy as [z [<- _]]. apply abs_nonneg. }
  rewrite H in N. destruct N as [N|[N|[r [N Hr]]]]; try discriminate.
  injection N as ->. exact Hr.
Qed.

Lemma sqrt_sum_squares_fin (p q : float) (r : R) :
  F.sqrt (F.square p + F.square q)%float = Fin r ->
  exists a b, p = Fin a /\ q = Fin b /\ r = sqrt (a * a + b * b).
Proof.
  destruct p as [| | |a]; destruct q as [| | |b]; cbn; try discriminate.
  rewrite Rltb_false by nra. intros H. injection H as <-. eauto.
Qed.

(** X8.  The bounds that [amp_phi] reports are in order: a finite [amp_low] is
    at most a finite [amp_high], and a finite [phi_low] at most a finite
    [phi_high]. *)
Theorem X_low_bounds_do_not_exceed_high_bounds
        (OLS_fit : list float -> list (list float) -> Exc OLSResults)
        (Date : list datetime64) (temp : list float) (w : bool)
        (f : HarmonicFit) :
  amp_phi OLS_fit Date temp w = Ok f ->
  (forall lo hi, amp_low f = Fin lo -> amp_high f = Fin hi -> lo <= hi)
  /\ (forall lo hi, phi_low f = Fin lo -> phi_high f = Fin hi -> lo <= hi).
Proof.
  intros H. destruct (amp_phi_inv _ _ _ _ _ H) as [X [_ ->]]. clear H.
  destruct (amp_phi_try OLS_fit (ols_input temp w) X)
    as [f|e] eqn:E; cbn [try_except];
    [|split; intros lo hi H; discriminate].
  unfold amp_phi_try in E.
  destruct (OLS_fit _ _) as [res|]; cbn [bind] in E; [|discriminate].
  destruct (index (params res) 1) as [p1|]; cbn [bind] in E; [|discriminate].
  destruct (index (params res) 2) as [p2|]; cbn [bind] in E; [|discriminate].
  rewrite math_sqrt_sum_squares in E. cbn [bind] in E.
  destruct (index (conf_int res) 1) as [ci1|]; cbn [bind] in E; [|discriminate].
  destruct (index (conf_int res) 2) as [ci2|]; cbn [bind] in E; [|discriminate].
  destruct (np_min (map F.abs ci1)) as [lo1|] eqn:L1; cbn [bind] in E; [|discriminate].
  destruct (np_min (map F.abs ci2)) as [lo2|] eqn:L2; cbn [bind] in E; [|discriminate].
  rewrite math_sqrt_sum_squares in E. cbn [bind] in E.
  destruct (np_max (map F.abs ci1)) as [hi1|] eqn:M1; cbn [bind] in E; [|discriminate].
  destruct (np_max (map F.abs ci2)) as [hi2|] eqn:M2; cbn [bind] in E; [|discriminate].
  rewrite math_sqrt_sum_squares in E. cbn [bind] in E.
  destruct (comp _ [0%nat; 1%nat]) as [phiRange|]; cbn [bind] in E; [|discriminate].
  destruct (np_min (concat phiRange)) as [pl|] eqn:PL; cbn [bind] in E; [|discriminate].
  destruct (np_max (concat phiRange)) as [ph|] eqn:PH; cbn [bind] in E; [|discriminate].
  injection E as <-. cbn [amp_low amp_high phi_low phi_high]. split.
  - intros lo hi Hlo Hhi.
    apply sqrt_sum_squares_fin in Hlo, Hhi.
    destruct Hlo as [a1 [a2 [-> [-> ->]]]]. destruct Hhi as [b1 [b2 [-> [-> ->]]]].
    pose proof (np_min_le_np_max _ _ _ L1 M1).
    pose proof (np_min_le_np_max _ _ _ L2 M2).
    pose proof (np_min_abs_nonneg _ _ L1).
    pose proof (np_min_abs_nonneg _ _ L2).
    apply sqrt_le_1_alt. nra.
  - intros lo hi -> ->. eapply np_min_le_np_max; eassumption.
Qed.

Lemma X_low_bounds_do_not_exceed_high_bounds_witness :
  (forall lo hi, amp_low exact_harmonic = Fin lo ->
                 amp_high exact_harmonic = Fin hi -> lo <= hi)
  /\ (forall lo hi, phi_low exact_harmonic = Fin lo ->
                    phi_high exact_harmonic = Fin hi -> lo <= hi).
Proof.
  apply (X_low_bounds_do_not_exceed_high_bounds
           ols_exact (daily_dates 3) [Fin 9; Fin 8; Fin 1] false exact_harmonic).
  apply amp_phi_exact. discriminate.
Defined.

Lemma map_fst_combine_eq {A B : Type} (l : list A) :
  forall l' : list B, length l = length l' -> map fst (combine l l') = l.
Proof.
  induction l as [|x l IH]; intros [|y l'] H; cbn in *; try discriminate;
    [reflexivity|]. f_equal. apply IH. lia.
Qed.

Lemma map_snd_combine_eq {A B : Type} (l : list A) :
  forall l' : list B, length l = length l' -> map snd (combine l l') = l'.
Proof.
  induction l as [|x l IH]; intros [|y l'] H; cbn in *; try discriminate;
    [reflexivity|]. f_equal. apply IH. lia.
Qed.

Lemma design_value (Date : list datetime64) :
  Date <> [] ->
  design Date
  = Ok (if has_constant (map feature_row Date)
        then map feature_row Date else map design_row Date).
Proof.
  intros Hne. destruct (design_total Date Hne) as [X HX].
  destruct (design_cases Date X HX) as [[-> ->]|[-> ->]]; exact HX.
Qed.

(** X9.  The data requirement counts values up to 60 degrees, the regression
    keeps values up to 45 degrees: on more than 365 observations that all
    lie above 45 and at most at 60 degrees, with no NaT among their dates,
    the fit is attempted, and the regression gets a series without a
    single value (next to the design matrix of the dates: their feature
    rows behind a column of ones, or the feature rows alone when a feature
    column is a constant other than zero). *)
Theorem X_requirement_counts_values_the_regression_drops
        (OLS_fit : list float -> list (list float) -> Exc OLSResults)
        (date : list datetime64) (tw : list float) :
  dates_known date = true ->
  length date = length tw ->
  (365 < length tw)%nat ->
  Forall (fun x => exists v, x = Fin v /\ 45 < v <= 60) tw ->
  water_obs_fit OLS_fit date tw
  = Ok (try_except
          (amp_phi_try OLS_fit (repeat NaN (length tw))
                       (if has_constant (map feature_row date)
                        then map feature_row date else map design_row date))
          all_nan).
Proof.
  intros Hk Hlen Hn Hall.
  assert (Hne : date <> []).
  { intros ->. cbn in Hlen. lia. }
  assert (Hfin : count_finite tw = length tw).
  { unfold count_finite. clear Hlen Hn. induction Hall as [|x l [v [-> _]] _ IH];
      [reflexivity|]. cbn. f_equal. exact IH. }
  assert (Hrows : waterDF_rows date tw = combine date tw).
  { unfold waterDF_rows, dates_known in *. clear Hn Hfin Hne.
    revert date Hk Hlen.
    induction Hall as [|x l [v [-> Hv]] _ IH]; intros [|d date] Hk Hlen;
      cbn [length] in Hlen; try discriminate; try reflexivity.
    cbn [forallb] in Hk. apply andb_prop in Hk. destruct Hk as [Hd Hk].
    cbn [combine filter]. cbn [fst snd]. fnorm.
    rewrite (Rltb_false v 1), (Rltb_false 60 v) by lra. rewrite Hd.
    cbn [orb negb andb]. apply (f_equal (cons (d, Fin v))).
    apply IH; [exact Hk | lia]. }
  assert (Hband : map water_band tw = repeat NaN (length tw)).
  { clear Hlen Hn Hfin Hrows. induction Hall as [|x l [v [-> Hv]] _ IH];
      [reflexivity|]. cbn [map length repeat]. rewrite IH. f_equal.
    unfold water_band. fnorm. rewrite (Rleb_false v 45) by lra.
    rewrite andb_false_r. reflexivity. }
  rewrite (water_obs_fit_rows _ _ _ Hlen).
  rewrite Hrows, Hfin, length_combine.
  rewrite Hlen, Nat.min_id.
  replace (365 <? length tw)%nat with true by (symmetry; apply Nat.ltb_lt; lia).
  replace (365 <=? length tw)%nat with true by (symmetry; apply Nat.leb_le; lia).
  cbn [andb].
  rewrite map_fst_combine_eq, map_snd_combine_eq by exact Hlen.
  rewrite amp_phi_unfold, (design_value _ Hne). unfold ols_input.
  rewrite Hband. reflexivity.
Qed.

Lemma X_requirement_counts_values_the_regression_drops_witness :
  water_obs_fit ols_zero_or_fail (daily_dates 366) (repeat (Fin 50) 366)
  = Ok (try_except
          (amp_phi_try ols_zero_or_fail
                       (repeat NaN (length (repeat (Fin 50) 366)))
                       (if has_constant (map feature_row (daily_dates 366))
                        then map feature_row (daily_dates 366)
                        else map design_row (daily_dates 366)))
          all_nan).
Proof.
  apply (X_requirement_counts_values_the_regression_drops
           ols_zero_or_fail (daily_dates 366) (repeat (Fin 50) 366)).
  - apply daily_dates_known. lia.
  - rewrite daily_dates_length, repeat_length. reflexivity.
  - rewrite repeat_length. lia.
  - apply Forall_forall. intros x Hx. apply repeat_spec in Hx. subst.
    exists 50. split; [reflexivity | lra].
Defined.

(* ================================================================== *)
(** * Ranges of the losses *)
(* ================================================================== *)

Lemma square_nonneg (x : float) : nonneg_or_special (F.square x).
Proof.
  unfold nonneg_or_special. destruct x; cbn; auto.
  right; right. eexists; split; [reflexivity | nra].
Qed.

Lemma add_nonneg (x y : float) :
  nonneg_or_special x -> nonneg_or_special y -> nonneg_or_special (x + y)%float.
Proof.
  unfold nonneg_or_special.
  intros [->|[->|[a [-> Ha]]]] [->|[->|[b [-> Hb]]]]; cbn; auto.
  right; right. eexists; split; [reflexivity | lra].
Qed.

Lemma sum_squares_nonneg (l : tensor) :
  nonneg_or_special (tf_reduce_sum (tf_square l)).
Proof.
  unfold tf_reduce_sum, tf_square.
  induction l as [|x l IH]; cbn [map fold_right].
  - right; right. exists 0. split; [reflexivity | lra].
  - apply add_nonneg; [apply square_nonneg | exact IH].
Qed.

Lemma div_nonneg (x y : float) :
  nonneg_or_special x -> nonneg_or_special y -> nonneg_or_special (x / y)%float.
Proof.
  unfold nonneg_or_special.
  intros [->|[->|[a [-> Ha]]]] [->|[->|[b [-> Hb]]]]; cbn; auto.
  - rewrite Rltb_false by lra. auto.
  - right; right. exists 0. split; [reflexivity | lra].
  - destruct (Reqb b 0) eqn:E.
    + destruct (Rltb 0 a); auto. rewrite Rltb_false by lra. auto.
    + right; right. eexists; split; [reflexivity|].
      unfold Reqb in E. destruct (Req_dec_T b 0); [discriminate|].
      apply Rmult_le_pos; [lra|]. left. apply Rinv_0_lt_compat. lra.
Qed.

Lemma sqrt_nonneg (x : float) :
  nonneg_or_special x -> nonneg_or_special (F.sqrt x).
Proof.
  unfold nonneg_or_special. intros [->|[->|[a [-> Ha]]]]; cbn; auto.
  rewrite Rltb_false by lra. right; right.
  eexists; split; [reflexivity | apply sqrt_pos].
Qed.

Lemma one_minus_nonneg (x : float) :
  nonneg_or_special x -> at_most_one_or_special (Fin 1 - x)%float.
Proof.
  unfold nonneg_or_special, at_most_one_or_special.
  intros [->|[->|[a [-> Ha]]]]; cbn; auto.
  right; right. eexists; split; [reflexivity | lra].
Qed.

(** [1 - 1 / (2 - x)] of a score [x] that is at most 1. *)
Lemma normalised_loss_unit (x : float) :
  at_most_one_or_special x ->
  unit_or_nan (Fin 1 / (Fin 2 - x))%float
  /\ unit_or_nan (Fin 1 - Fin 1 / (Fin 2 - x))%float.
Proof.
  unfold at_most_one_or_special, unit_or_nan.
  intros [->|[->|[a [-> Ha]]]]; cbn; auto.
  - split; right; eexists; (split; [reflexivity | lra]).
  - rewrite Reqb_false by lra.
    assert (H : 0 < / (2 + - a) <= 1).
    { split; [apply Rinv_0_lt_compat; lra|].
      assert (H1 : / (2 + - a) <= / 1) by (apply Rinv_le_contravar; lra).
      rewrite Rinv_1 in H1. exact H1. }
    split; right; eexists; (split; [reflexivity | lra]).
Qed.

(** X10.  [rmse] is never negative: its value is NaN, +inf or a number that is
    at least 0. *)
Theorem X_rmse_is_never_negative (y_true y_pred : tensor) :
  length y_true = length y_pred ->
  nonneg_or_special (rmse y_true y_pred).
Proof.
  intros _. unfold rmse.
  set (n := tf_count_nonzero (map negb (tf_is_nan y_true))).
  unfold tf_cast. fnorm. destruct (Rltb 0 (INR n)) eqn:E.
  - apply sqrt_nonneg, div_nonneg; [apply sum_squares_nonneg|].
    right; right. eexists; split; [reflexivity | apply pos_INR].
  - right; right. exists 0. split; [reflexivity | lra].
Qed.

Lemma X_rmse_is_never_negative_witness :
  nonneg_or_special (rmse [Fin 1; NaN; Fin 3] [Fin 2; Fin 5; PInf]).
Proof.
  apply (X_rmse_is_never_negative [Fin 1; NaN; Fin 3] [Fin 2; Fin 5; PInf]).
  reflexivity.
Defined.

Lemma nse_at_most_one (y_true y_pred : tensor) :
  at_most_one_or_special (nse y_true y_pred).
Proof.
  unfold nse. apply one_minus_nonneg, div_nonneg; apply sum_squares_nonneg.
Qed.

(** X11.  [nse] is never above 1 (NaN, -inf or a number that is at most 1), and
    [nnse] and [nnse_loss] are NaN or lie between 0 and 1. *)
Theorem X_nnse_loss_lies_between_0_and_1 (y_true y_pred : tensor) :
  length y_true = length y_pred ->
  at_most_one_or_special (nse y_true y_pred)
  /\ unit_or_nan (nnse y_true y_pred)
  /\ unit_or_nan (nnse_loss y_true y_pred).
Proof.
  intros _. split; [apply nse_at_most_one|].
  unfold nnse_loss, nnse. apply normalised_loss_unit, nse_at_most_one.
Qed.

Lemma X_nnse_loss_lies_between_0_and_1_witness :
  at_most_one_or_special (nse [Fin 1; NaN; Fin 3] [Fin 2; Fin 5; Fin 7])
  /\ unit_or_nan (nnse [Fin 1; NaN; Fin 3] [Fin 2; Fin 5; Fin 7])
  /\ unit_or_nan (nnse_loss [Fin 1; NaN; Fin 3] [Fin 2; Fin 5; Fin 7]).
Proof.
  apply (X_nnse_loss_lies_between_0_and_1
           [Fin 1; NaN; Fin 3] [Fin 2; Fin 5; Fin 7]).
  reflexivity.
Defined.

Lemma kge_at_most_one (y_true y_pred : tensor) :
  at_most_one_or_special (kge y_true y_pred).
Proof.
  unfold kge. apply one_minus_nonneg, sqrt_nonneg.
  repeat apply add_nonneg; apply square_nonneg.
Qed.

(** X12.  [kge] is never above 1, [norm_kge] and [kge_norm_loss] are NaN or lie
    between 0 and 1, and a finite [kge_loss] is at least -1. *)
Theorem X_kge_norm_loss_lies_between_0_and_1 (y_true y_pred : tensor) :
  length y_true = length y_pred ->
  at_most_one_or_special (kge y_true y_pred)
  /\ unit_or_nan (norm_kge y_true y_pred)
  /\ unit_or_nan (kge_norm_loss y_true y_pred)
  /\ (forall r, kge_loss y_true y_pred = Fin r -> -1 <= r).
Proof.
  intros _. split; [apply kge_at_most_one|].
  unfold kge_norm_loss, norm_kge.
  destruct (normalised_loss_unit _ (kge_at_most_one y_true y_pred)) as [H1 H2].
  split; [exact H1|]. split; [exact H2|].
  unfold kge_loss. intros r.
  destruct (kge_at_most_one y_true y_pred) as [->|[->|[a [-> Ha]]]]; cbn.
  - discriminate.
  - unfold F.inf_times. rewrite Rltb_false by lra. rewrite Rltb_true by lra.
    discriminate.
  - intros H. injection H as <-. lra.
Qed.

Lemma X_kge_norm_loss_lies_between_0_and_1_witness :
  at_most_one_or_special (kge [Fin 1; NaN; Fin 3] [Fin 2; Fin 5; Fin 7])
  /\ unit_or_nan (norm_kge [Fin 1; NaN; Fin 3] [Fin 2; Fin 5; Fin 7])
  /\ unit_or_nan (kge_norm_loss [Fin 1; NaN; Fin 3] [Fin 2; Fin 5; Fin 7])
  /\ (forall r, kge_loss [Fin 1; NaN; Fin 3] [Fin 2; Fin 5; Fin 7] = Fin r
                -> -1 <= r).
Proof.
  apply (X_kge_norm_loss_lies_between_0_and_1
           [Fin 1; NaN; Fin 3] [Fin 2; Fin 5; Fin 7]).
  reflexivity.
Defined.

(* ================================================================== *)
(** * Predictions at missing positions *)
(* ================================================================== *)

Lemma zero_or_error_same (y_true p q : tensor) :
  same_where_observed y_true p q ->
  tf_where (tf_is_nan y_true) (tf_zeros_like y_true) (tf_sub p y_true)
  = tf_where (tf_is_nan y_true) (tf_zeros_like y_true) (tf_sub q y_true).
Proof.
  revert p q. induction y_true as [|t y IH]; intros [|a p] [|b q] H;
    cbn in H; try contradiction; [reflexivity|].
  destruct H as [H1 H2]. unfold tf_is_nan, tf_zeros_like in *.
  cbn [map tf_sub tf_where]. rewrite (IH p q H2).
  destruct H1 as [->| ->]; reflexivity.
Qed.

(** X13.  [rmse], [nse] and [nnse_loss] do not depend on the predictions at the
    positions where the true value is NaN. *)
Theorem X_masked_predictions_do_not_matter (y_true p q : tensor) :
  same_where_observed y_true p q ->
  rmse y_true p = rmse y_true q
  /\ nse y_true p = nse y_true q
  /\ nnse_loss y_true p = nnse_loss y_true q.
Proof.
  intros H. unfold nnse_loss, nnse, nse, rmse.
  rewrite (zero_or_error_same _ _ _ H). repeat split.
Qed.

Lemma X_masked_predictions_do_not_matter_witness :
  rmse [Fin 1; NaN; Fin 4] [Fin 2; Fin 3; Fin 4]
  = rmse [Fin 1; NaN; Fin 4] [Fin 2; NaN; Fin 4]
  /\ nse [Fin 1; NaN; Fin 4] [Fin 2; Fin 3; Fin 4]
     = nse [Fin 1; NaN; Fin 4] [Fin 2; NaN; Fin 4]
  /\ nnse_loss [Fin 1; NaN; Fin 4] [Fin 2; Fin 3; Fin 4]
     = nnse_loss [Fin 1; NaN; Fin 4] [Fin 2; NaN; Fin 4].
Proof.
  apply (X_masked_predictions_do_not_matter
           [Fin 1; NaN; Fin 4] [Fin 2; Fin 3; Fin 4] [Fin 2; NaN; Fin 4]).
  cbn. auto.
Defined.

(* ================================================================== *)
(** * A loss of zero *)
(* ================================================================== *)

Lemma sum_squared_errors_zero (y_true y_pred : tensor) :
  numbers_where_observed y_true y_pred ->
  exists S,
    tf_reduce_sum
      (tf_square (tf_where (tf_is_nan y_true) (tf_zeros_like y_true)
                           (tf_sub y_pred y_true))) = Fin S
    /\ 0 <= S
    /\ (S = 0 <-> exact_where_observed y_true y_pred).
Proof.
  unfold numbers_where_observed, exact_where_observed.
  induction 1 as [|t p y_true y_pred Htp _ [S [HS [Hpos Hiff]]]].
  - exists 0. split; [reflexivity|]. split; [lra|]. split; auto.
  - unfold tf_reduce_sum, tf_square, tf_is_nan, tf_zeros_like in *.
    cbn [map tf_sub tf_where fold_right].
    destruct Htp as [->|[a [b [-> ->]]]]; cbn [F.isnan].
    + exists S. rewrite HS. split; [cbn; f_equal; ring|]. split; [exact Hpos|].
      rewrite Hiff. split; intros H.
      * constructor; [left; reflexivity | exact H].
      * inversion H; assumption.
    + exists ((b + - a) * (b + - a) + S). rewrite HS. split; [reflexivity|].
      assert (Hsq : 0 <= (b + - a) * (b + - a)) by apply Rle_0_sqr.
      split; [lra|]. split; intros H.
      * assert (Hz : (b + - a) * (b + - a) = 0) by lra.
        apply Rmult_integral in Hz. assert (b + - a = 0) by lra.
        assert (S = 0) by lra.
        constructor; [right; f_equal; lra | apply Hiff; assumption].
      * inversion H as [|? ? ? ? [E|E] H']; subst; [discriminate|].
        injection E as ->. apply Hiff in H'. subst. ring.
Qed.

Lemma fits_float32_numbers (y : tensor) : fits_float32 y -> numbers_or_nan y.
Proof.
  unfold fits_float32, numbers_or_nan. apply Forall_impl.
  intros x [->|[r [-> _]]]; [left; reflexivity | right; eauto].
Qed.

(** The squared errors of an exact prediction add up to 0, or to NaN when a
    true value is infinite. *)
Lemma exact_errors (y_true y_pred : tensor) :
  exact_where_observed y_true y_pred ->
  (tf_reduce_sum
     (tf_square (tf_where (tf_is_nan y_true) (tf_zeros_like y_true)
                          (tf_sub y_pred y_true))) = Fin 0
   \/ tf_reduce_sum
        (tf_square (tf_where (tf_is_nan y_true) (tf_zeros_like y_true)
                             (tf_sub y_pred y_true))) = NaN)
  /\ (numbers_or_nan y_true ->
      tf_reduce_sum
        (tf_square (tf_where (tf_is_nan y_true) (tf_zeros_like y_true)
                             (tf_sub y_pred y_true))) = Fin 0).
Proof.
  unfold exact_where_observed, numbers_or_nan.
  induction 1 as [|t p y_true y_pred Htp _ [IH1 IH2]].
  - split; [left; reflexivity | reflexivity].
  - unfold tf_reduce_sum, tf_square, tf_is_nan, tf_zeros_like in *.
    cbn [map tf_sub tf_where fold_right].
    assert (Hz : forall a : R, Fin ((a + - a) * (a + - a) + 0) = Fin 0)
      by (intros a; f_equal; ring).
    assert (H0 : Fin (0 * 0 + 0) = Fin 0) by (f_equal; ring).
    split.
    + destruct Htp as [->| ->]; [|destruct t as [| | |a]]; cbn [F.isnan];
        destruct IH1 as [-> | ->]; cbn; auto.
    + intros Hy. inversion Hy as [|? ? Ht Hy']; subst.
      rewrite (IH2 Hy').
      destruct Htp as [->| ->]; [cbn; exact H0|].
      destruct Ht as [->|[a ->]]; cbn; [exact H0 | apply Hz].
Qed.

(** X14.  A prediction that equals the true value wherever that is not NaN
    has an [rmse] of 0 or NaN, and of 0 when the true values that are not
    NaN are numbers within the range of float32 (beyond it the cast of
    [rmse] makes them infinite, and the error NaN). *)
Theorem X_rmse_of_an_exact_prediction (y_true y_pred : tensor) :
  exact_where_observed y_true y_pred ->
  (rmse y_true y_pred = Fin 0 \/ rmse y_true y_pred = NaN)
  /\ (fits_float32 y_true -> rmse y_true y_pred = Fin 0).
Proof.
  intros H. destruct (exact_errors _ _ H) as [H1 H2].
  unfold rmse. rewrite count_non_nan. unfold tf_cast. fnorm.
  destruct (Rltb 0 (INR (length (non_missing y_true)))) eqn:E.
  - apply Rltb_spec in E.
    assert (Hq : (Fin 0 / Fin (INR (length (non_missing y_true))))%float
                 = Fin (0 / INR (length (non_missing y_true)))).
    { cbn. rewrite Reqb_false by lra. reflexivity. }
    assert (Hs : F.sqrt (Fin (0 / INR (length (non_missing y_true)))) = Fin 0).
    { unfold Rdiv. rewrite Rmult_0_l. cbn [F.sqrt].
      rewrite Rltb_false by lra. rewrite sqrt_0. reflexivity. }
    split.
    + destruct H1 as [-> | ->]; [left; rewrite Hq; exact Hs | right; reflexivity].
    + intros Hf. rewrite (H2 (fits_float32_numbers _ Hf)), Hq. exact Hs.
  - split; [left; reflexivity | reflexivity].
Qed.

Lemma X_rmse_of_an_exact_prediction_witness :
  (rmse [Fin 1; NaN; Fin 4] [Fin 1; Fin 3; Fin 4] = Fin 0
   \/ rmse [Fin 1; NaN; Fin 4] [Fin 1; Fin 3; Fin 4] = NaN)
  /\ rmse [Fin 1; NaN; Fin 4] [Fin 1; Fin 3; Fin 4] = Fin 0.
Proof.
  assert (H : exact_where_observed [Fin 1; NaN; Fin 4] [Fin 1; Fin 3; Fin 4]).
  { unfold exact_where_observed.
    repeat (constructor; [first [left; reflexivity | right; reflexivity]|]).
    constructor. }
  split.
  - apply (proj1 (X_rmse_of_an_exact_prediction _ _ H)).
  - apply (proj2 (X_rmse_of_an_exact_prediction _ _ H)).
    unfold fits_float32, float32_max.
    repeat (constructor;
            [first [left; reflexivity
                   | right; eexists; split;
                     [reflexivity | rewrite Rabs_pos_eq by lra; lra]]|]).
    constructor.
Defined.

(* ================================================================== *)
(** * Masked statistics over the reals *)
(* ================================================================== *)

Lemma sum_pointwise (h : float -> float) (g : R -> R) (y : tensor) :
  numbers_or_nan y ->
  (forall r, h (Fin r) = Fin (g r)) ->
  (exists z, h NaN = Fin z /\ z = 0) ->
  tf_reduce_sum (map h y) = Fin (Rsum (map g (observed y))).
Proof.
  intros Hy Hfin [z [Hnan ->]]. unfold tf_reduce_sum, observed, Rsum.
  induction Hy as [|x y [->|[r ->]] _ IH]; [reflexivity| |];
    cbn [map fold_right flat_map app]; rewrite IH.
  - rewrite Hnan. cbn. f_equal. ring.
  - rewrite Hfin. reflexivity.
Qed.

Lemma where_nan_zero_pointwise (f : float -> float) (y : tensor) :
  tf_where (tf_is_nan y) (tf_zeros_like y) (map f y)
  = map (fun x => if F.isnan x then Fin 0 else f x) y.
Proof.
  unfold tf_is_nan, tf_zeros_like.
  induction y as [|x y IH]; [reflexivity|]. cbn [map tf_where].
  rewrite IH. reflexivity.
Qed.

Lemma count_observed (y : tensor) :
  numbers_or_nan y ->
  tf_count_nonzero (map negb (tf_is_nan y)) = length (observed y).
Proof.
  unfold tf_count_nonzero, tf_is_nan, observed.
  induction 1 as [|x y [->|[r ->]] _ IH]; [reflexivity| |];
    cbn [map filter flat_map F.isnan negb length app]; rewrite IH; reflexivity.
Qed.

Lemma masked_sum_observed (y : tensor) :
  numbers_or_nan y ->
  tf_reduce_sum (tf_where (tf_is_nan y) (tf_zeros_like y) y)
  = Fin (Rsum (observed y)).
Proof.
  intros Hy. rewrite <- (map_id y) at 3. rewrite where_nan_zero_pointwise.
  rewrite (sum_pointwise _ (fun r => r) y Hy).
  - rewrite map_id. reflexivity.
  - intros r. reflexivity.
  - exists 0. split; reflexivity.
Qed.

(** The masked mean of numbers and NaN: the mean of the numbers, NaN when
    there is none. *)
Lemma mean_masked_observed (y : tensor) :
  numbers_or_nan y ->
  mean_masked y
  = if Nat.eqb (length (observed y)) 0 then NaN else Fin (Rmean (observed y)).
Proof.
  intros Hy. unfold mean_masked.
  rewrite (masked_sum_observed y Hy), (count_observed y Hy). unfold tf_cast.
  destruct (observed y) as [|r l]; cbn [length Nat.eqb].
  - cbn. rewrite Reqb_true by reflexivity. rewrite !Rltb_false by lra.
    reflexivity.
  - cbn [F.div]. pose proof (pos_INR (length l)).
    rewrite Reqb_false by (rewrite S_INR; lra). reflexivity.
Qed.

Lemma all_nan_of_none_observed (y : tensor) :
  numbers_or_nan y -> observed y = [] -> Forall (fun x => x = NaN) y.
Proof.
  unfold observed. induction 1 as [|x y [->|[r ->]] _ IH]; intros H;
    cbn [flat_map app] in H; [constructor| |discriminate].
  constructor; [reflexivity | apply IH, H].
Qed.

(** The masked deviations of numbers and NaN. *)
Lemma dev_masked_observed (y : tensor) :
  numbers_or_nan y ->
  dev_masked y = map (deviation_from (Rmean (observed y))) y.
Proof.
  intros Hy. unfold dev_masked, tf_sub_scalar.
  rewrite where_nan_zero_pointwise, (mean_masked_observed y Hy).
  destruct (Nat.eqb (length (observed y)) 0) eqn:E.
  - apply Nat.eqb_eq, length_zero_iff_nil in E.
    pose proof (all_nan_of_none_observed y Hy E) as Hall.
    apply map_ext_in. intros x Hx.
    rewrite Forall_forall in Hall. rewrite (Hall x Hx). reflexivity.
  - apply map_ext_in. intros x Hx.
    destruct (proj1 (Forall_forall _ _) Hy x Hx) as [->|[r ->]]; reflexivity.
Qed.

Lemma Rsum_minus (m : R) (l : list R) :
  Rsum (map (fun r => r - m) l) = Rsum l - INR (length l) * m.
Proof.
  unfold Rsum. induction l as [|x l IH]; [cbn; ring|].
  cbn [map fold_right length]. rewrite IH, S_INR. ring.
Qed.

Lemma Rsum_centred (l : list R) :
  Rsum (map (fun r => r - Rmean l) l) = 0.
Proof.
  rewrite Rsum_minus. unfold Rmean. destruct l as [|x l]; [cbn; ring|].
  pose proof (pos_INR (length l)). cbn [length]. rewrite S_INR in *.
  field. lra.
Qed.

Lemma Rsum_nonneg (g : R -> R) (l : list R) :
  (forall r, 0 <= g r) -> 0 <= Rsum (map g l).
Proof.
  intros Hg. unfold Rsum. induction l as [|x l IH]; cbn; [lra|].
  specialize (Hg x). lra.
Qed.

Lemma Rsum_term (g : R -> R) (l : list R) (a : R) :
  (forall r, 0 <= g r) -> In a l -> g a <= Rsum (map g l).
Proof.
  intros Hg. unfold Rsum. induction l as [|x l IH]; intros Ha; [contradiction|].
  cbn [map fold_right]. destruct Ha as [->|Ha].
  - pose proof (Rsum_nonneg g l Hg). unfold Rsum in *. lra.
  - specialize (IH Ha). specialize (Hg x). lra.
Qed.

Lemma in_observed (y : tensor) (a : R) : In (Fin a) y <-> In a (observed y).
Proof.
  unfold observed. rewrite in_flat_map. split.
  - intros H. exists (Fin a). split; [exact H | left; reflexivity].
  - intros [x [Hx Ha]]. destruct x; cbn in Ha; try contradiction.
    destruct Ha as [->|[]]. exact Hx.
Qed.

(** The sum of the squared masked deviations. *)
Lemma sum_squared_deviations (y : tensor) :
  numbers_or_nan y ->
  tf_reduce_sum (tf_square (dev_masked y))
  = Fin (Rsum (map (fun r => (r - Rmean (observed y)) * (r - Rmean (observed y)))
                   (observed y))).
Proof.
  intros Hy. rewrite (dev_masked_observed y Hy). unfold tf_square.
  rewrite map_map. apply sum_pointwise; [exact Hy| |].
  - intros r. reflexivity.
  - exists (0 * 0). split; [reflexivity | ring].
Qed.

Lemma varies_positive (y : tensor) :
  varies y ->
  0 < Rsum (map (fun r => (r - Rmean (observed y)) * (r - Rmean (observed y)))
                (observed y)).
Proof.
  intros [a [b [Ha [Hb Hab]]]]. apply in_observed in Ha, Hb.
  set (m := Rmean (observed y)).
  assert (Hg : forall r, 0 <= (r - m) * (r - m)) by (intros r; apply Rle_0_sqr).
  pose proof (Rsum_term (fun r => (r - m) * (r - m)) _ a Hg Ha) as H1.
  pose proof (Rsum_term (fun r => (r - m) * (r - m)) _ b Hg Hb) as H2.
  cbv beta in H1, H2.
  destruct (Req_dec_T a m) as [E|E].
  - assert (0 < (b - m) * (b - m)) by (apply Rsqr_pos_lt; lra). lra.
  - assert (0 < (a - m) * (a - m)) by (apply Rsqr_pos_lt; lra). lra.
Qed.

Lemma varies_two (y : tensor) : varies y -> (2 <= length (observed y))%nat.
Proof.
  intros [a [b [Ha [Hb Hab]]]]. apply in_observed in Ha, Hb.
  destruct (observed y) as [|x [|x' l]]; cbn [length]; [destruct Ha| |lia].
  destruct Ha as [<-|[]]. destruct Hb as [<-|[]]. contradiction.
Qed.

Lemma Rsum_constant (c : R) (l : list R) :
  (forall r, In r l -> r = c) -> Rsum l = INR (length l) * c.
Proof.
  unfold Rsum. induction l as [|x l IH]; intros H; [cbn; ring|].
  cbn [fold_right length]. rewrite S_INR, (H x) by (left; reflexivity).
  rewrite IH by (intros r Hr; apply H; right; exact Hr). ring.
Qed.

Lemma constant_zero (y : tensor) :
  constant y ->
  Rsum (map (fun r => (r - Rmean (observed y)) * (r - Rmean (observed y)))
            (observed y)) = 0.
Proof.
  intros Hc. destruct (observed y) as [|c l] eqn:E; [reflexivity|].
  assert (Hall : forall r, In r (c :: l) -> r = c).
  { intros r Hr. apply Hc; apply in_observed; rewrite E; [exact Hr | left; reflexivity]. }
  assert (Hm : Rmean (c :: l) = c).
  { unfold Rmean. rewrite (Rsum_constant c _ Hall).
    pose proof (pos_INR (length l)). cbn [length]. rewrite S_INR in *.
    field. lra. }
  rewrite Hm. rewrite (Rsum_constant 0).
  - ring.
  - intros r Hr. apply in_map_iff in Hr. destruct Hr as [x [<- Hx]].
    rewrite (Hall x Hx). ring.
Qed.

(* ================================================================== *)
(** * Deviations sum to zero *)
(* ================================================================== *)

(** X15.  On a tensor of numbers and NaN, [dev_masked] keeps the shape, puts 0
    where the entry is NaN, and its entries add up to exactly 0. *)
Theorem X_masked_deviations_sum_to_zero (y : tensor) :
  numbers_or_nan y ->
  length (dev_masked y) = length y
  /\ (forall i, nth_error y i = Some NaN -> nth_error (dev_masked y) i = Some (Fin 0))
  /\ tf_reduce_sum (dev_masked y) = Fin 0.
Proof.
  intros Hy. rewrite (dev_masked_observed y Hy). split; [apply length_map|].
  split.
  - intros i Hi. rewrite nth_error_map, Hi. reflexivity.
  - rewrite (sum_pointwise _ (fun r => r - Rmean (observed y)) y Hy).
    + rewrite Rsum_centred. reflexivity.
    + intros r. reflexivity.
    + exists 0. split; reflexivity.
Qed.

Lemma X_masked_deviations_sum_to_zero_witness :
  length (dev_masked [Fin 1; NaN; Fin 4]) = length [Fin 1; NaN; Fin 4]
  /\ (forall i, nth_error [Fin 1; NaN; Fin 4] i = Some NaN ->
                nth_error (dev_masked [Fin 1; NaN; Fin 4]) i = Some (Fin 0))
  /\ tf_reduce_sum (dev_masked [Fin 1; NaN; Fin 4]) = Fin 0.
Proof.
  apply (X_masked_deviations_sum_to_zero [Fin 1; NaN; Fin 4]).
  unfold numbers_or_nan.
  repeat (constructor; [first [left; reflexivity | right; eexists; reflexivity]|]).
  constructor.
Defined.

(* ================================================================== *)
(** * The score of an exact prediction *)
(* ================================================================== *)

Lemma at_most_one_constant (y : tensor) :
  (length (observed y) <= 1)%nat -> constant y.
Proof.
  intros H a b Ha Hb. apply in_observed in Ha, Hb.
  destruct (observed y) as [|c [|c' l]]; cbn in *; [contradiction | | lia].
  destruct Ha as [<-|[]], Hb as [<-|[]]. reflexivity.
Qed.

(** X16.  A prediction that equals the true value wherever that is not NaN:
    either [nse] and [nnse] are 1 and [nnse_loss] is 0, or all three are
    NaN.  They are NaN when the true values are numbers or NaN with at
    most one number among them. *)
Theorem X_nse_of_an_exact_prediction (y_true y_pred : tensor) :
  exact_where_observed y_true y_pred ->
  ((nse y_true y_pred = Fin 1 /\ nnse y_true y_pred = Fin 1
    /\ nnse_loss y_true y_pred = Fin 0)
   \/ (nse y_true y_pred = NaN /\ nnse y_true y_pred = NaN
       /\ nnse_loss y_true y_pred = NaN))
  /\ (numbers_or_nan y_true -> (length (observed y_true) <= 1)%nat ->
      nse y_true y_pred = NaN /\ nnse y_true y_pred = NaN
      /\ nnse_loss y_true y_pred = NaN).
Proof.
  intros Hex. destruct (exact_errors _ _ Hex) as [H1 H2].
  assert (Hnan : nse y_true y_pred = NaN ->
                 nse y_true y_pred = NaN /\ nnse y_true y_pred = NaN
                 /\ nnse_loss y_true y_pred = NaN).
  { intros E. unfold nnse_loss, nnse. rewrite E. repeat split. }
  assert (Hone : nse y_true y_pred = Fin 1 ->
                 nse y_true y_pred = Fin 1 /\ nnse y_true y_pred = Fin 1
                 /\ nnse_loss y_true y_pred = Fin 0).
  { intros E. unfold nnse_loss, nnse. rewrite E. split; [reflexivity|].
    assert (E1 : (Fin 1 / (Fin 2 - Fin 1))%float = Fin 1).
    { cbn. rewrite Reqb_false by lra. f_equal. field. }
    rewrite E1. split; [reflexivity|]. cbn. f_equal. ring. }
  split.
  - assert (Hn : nse y_true y_pred = Fin 1 \/ nse y_true y_pred = NaN).
    { unfold nse. destruct H1 as [-> | ->]; [|right; reflexivity].
      destruct (tf_reduce_sum (tf_square (dev_masked y_true))) as [| | |d];
        cbn; try (right; reflexivity); try (left; f_equal; ring).
      unfold Reqb. destruct (Req_dec_T d 0) as [_|Hd].
      - rewrite !Rltb_false by lra. right; reflexivity.
      - left. cbn. f_equal. field. exact Hd. }
    destruct Hn as [E|E]; [left; apply Hone, E | right; apply Hnan, E].
  - intros Hy Hl. apply Hnan. unfold nse.
    rewrite (H2 Hy), (sum_squared_deviations y_true Hy).
    rewrite (constant_zero y_true (at_most_one_constant _ Hl)). cbn.
    rewrite Reqb_true by reflexivity. rewrite !Rltb_false by lra. reflexivity.
Qed.

Lemma X_nse_of_an_exact_prediction_witness :
  ((nse [Fin 1; NaN; Fin 4] [Fin 1; Fin 7; Fin 4] = Fin 1
    /\ nnse [Fin 1; NaN; Fin 4] [Fin 1; Fin 7; Fin 4] = Fin 1
    /\ nnse_loss [Fin 1; NaN; Fin 4] [Fin 1; Fin 7; Fin 4] = Fin 0)
   \/ (nse [Fin 1; NaN; Fin 4] [Fin 1; Fin 7; Fin 4] = NaN
       /\ nnse [Fin 1; NaN; Fin 4] [Fin 1; Fin 7; Fin 4] = NaN
       /\ nnse_loss [Fin 1; NaN; Fin 4] [Fin 1; Fin 7; Fin 4] = NaN))
  /\ (nse [NaN; Fin 4] [Fin 7; Fin 4] = NaN
      /\ nnse [NaN; Fin 4] [Fin 7; Fin 4] = NaN
      /\ nnse_loss [NaN; Fin 4] [Fin 7; Fin 4] = NaN).
Proof.
  split.
  - apply (X_nse_of_an_exact_prediction [Fin 1; NaN; Fin 4] [Fin 1; Fin 7; Fin 4]).
    unfold exact_where_observed.
    repeat (constructor; [first [left; reflexivity | right; reflexivity]|]).
    constructor.
  - apply (X_nse_of_an_exact_prediction [NaN; Fin 4] [Fin 7; Fin 4]).
    + unfold exact_where_observed.
      repeat (constructor; [first [left; reflexivity | right; reflexivity]|]).
      constructor.
    + unfold numbers_or_nan.
      repeat (constructor; [first [left; reflexivity | right; eexists; reflexivity]|]).
      constructor.
    + cbn. lia.
Defined.

(* ================================================================== *)
(** * The correlation coefficient *)
(* ================================================================== *)

Lemma add_fin (x y : float) (r : R) :
  (x + y)%float = Fin r -> exists a b, x = Fin a /\ y = Fin b /\ r = a + b.
Proof.
  destruct x, y; cbn; try discriminate. intros H. injection H as <-. eauto.
Qed.

Lemma mul_fin (x y : float) (r : R) :
  (x * y)%float = Fin r -> exists a b, x = Fin a /\ y = Fin b /\ r = a * b.
Proof.
  destruct x, y; cbn; unfold F.inf_times; try discriminate.
  - destruct (Rltb 0 r0); [discriminate|]. destruct (Rltb r0 0); discriminate.
  - destruct (Rltb 0 r0); [discriminate|]. destruct (Rltb r0 0); discriminate.
  - destruct (Rltb 0 r0); [discriminate|]. destruct (Rltb r0 0); discriminate.
  - destruct (Rltb 0 r0); [discriminate|]. destruct (Rltb r0 0); discriminate.
  - intros H. injection H as <-. eauto.
Qed.

(** A finite sum of squares is a sum of squares of numbers. *)
Lemma sum_squares_fin (l : tensor) (a : R) :
  tf_reduce_sum (tf_square l) = Fin a ->
  exists rs, l = map Fin rs /\ a = Rsum (map (fun r => r * r) rs).
Proof.
  unfold tf_reduce_sum, tf_square, Rsum. revert a.
  induction l as [|x l IH]; intros a H; cbn [map fold_right] in H.
  - injection H as <-. exists []. split; reflexivity.
  - apply add_fin in H. destruct H as [u [v [Hx [Hl ->]]]].
    unfold F.square in Hx. apply mul_fin in Hx.
    destruct Hx as [p [q [Hp [Hq ->]]]]. rewrite Hp in Hq. injection Hq as <-.
    destruct (IH v Hl) as [rs [-> ->]]. exists (p :: rs). subst x.
    split; reflexivity.
Qed.

(** The inequality of Cauchy and Schwarz, one step. *)
Lemma cauchy_schwarz_step (x y s A B : R) :
  0 <= A -> 0 <= B -> s * s <= A * B ->
  (x * y + s) * (x * y + s) <= (x * x + A) * (y * y + B).
Proof.
  intros HA HB Hs.
  assert (E : 0 <= x * x * B + y * y * A - 2 * (x * y * s)).
  { destruct (Req_dec_T A 0) as [HA0|HA0].
    - subst A. assert (s * s = 0) by (pose proof (Rle_0_sqr s); unfold Rsqr in *; lra).
      assert (s = 0) by (apply Rmult_integral in H; lra). subst s.
      pose proof (Rle_0_sqr x) as Hx. unfold Rsqr in Hx.
      pose proof (Rmult_le_pos _ _ Hx HB). lra.
    - assert (HApos : 0 < A) by lra.
      assert (H1 : 0 <= (x * s - y * A) * (x * s - y * A)) by apply Rle_0_sqr.
      assert (H2 : 0 <= x * x * (A * B - s * s)).
      { apply Rmult_le_pos; [apply Rle_0_sqr | lra]. }
      assert (H3 : 0 <= A * (x * x * B + y * y * A - 2 * (x * y * s))).
      { replace (A * (x * x * B + y * y * A - 2 * (x * y * s)))
          with ((x * s - y * A) * (x * s - y * A) + x * x * (A * B - s * s))
          by ring. lra. }
      destruct (Rle_dec 0 (x * x * B + y * y * A - 2 * (x * y * s))) as [H|H];
        [exact H|].
      exfalso. apply Rnot_le_lt in H.
      assert (A * (x * x * B + y * y * A - 2 * (x * y * s)) < 0).
      { rewrite <- (Rmult_0_r A). apply Rmult_lt_compat_l; assumption. }
      lra. }
  replace ((x * y + s) * (x * y + s))
    with (x * x * (y * y) + 2 * (x * y * s) + s * s) by ring.
  replace ((x * x + A) * (y * y + B))
    with (x * x * (y * y) + (x * x * B + y * y * A) + A * B) by ring.
  lra.
Qed.

Lemma sum_products_bound (xs : list R) :
  forall ys, exists s,
    tf_reduce_sum (tf_mul (map Fin xs) (map Fin ys)) = Fin s
    /\ s * s <= Rsum (map (fun r => r * r) xs) * Rsum (map (fun r => r * r) ys).
Proof.
  assert (Hsq : forall l, 0 <= Rsum (map (fun r => r * r) l)).
  { intros l. apply Rsum_nonneg. intros r. apply Rle_0_sqr. }
  induction xs as [|x xs IH]; intros ys.
  - exists 0. split; [reflexivity|]. cbn. pose proof (Hsq ys). lra.
  - destruct ys as [|y ys].
    + exists 0. split; [reflexivity|]. pose proof (Hsq (x :: xs)). cbn in *. lra.
    + destruct (IH ys) as [s [Hs Hb]]. exists (x * y + s). split.
      * unfold tf_reduce_sum in *. cbn [map tf_mul fold_right]. rewrite Hs.
        reflexivity.
      * unfold Rsum in *. cbn [map fold_right].
        apply cauchy_schwarz_step; [apply (Hsq xs) | apply (Hsq ys) | exact Hb].
Qed.

(** X17.  In exact arithmetic, on tensors of one shape, a finite [pearsons_r]
    lies between -1 and 1 (the inequality of Cauchy and Schwarz); the
    rounding of float32 can leave this range by a rounding error. *)
Theorem X_pearsons_r_lies_between_minus_1_and_1 (y_true y_pred : tensor) (r : R) :
  length y_true = length y_pred ->
  pearsons_r y_true y_pred = Fin r ->
  -1 <= r <= 1.
Proof.
  intros _. unfold pearsons_r.
  set (dt := dev_masked y_true). set (dp := dev_masked y_pred).
  destruct (tf_reduce_sum (tf_mul dt dp)) as [| | |s] eqn:ES;
    try (destruct (F.sqrt _) as [| | |d]; cbn; try discriminate;
         destruct (Rltb d 0); discriminate).
  destruct (tf_reduce_sum (tf_square dt) * tf_reduce_sum (tf_square dp))%float
    as [| | |ab] eqn:EAB; cbn [F.sqrt F.div]; try discriminate.
  - intros H. injection H as <-. lra.
  - destruct (Rltb ab 0) eqn:Eneg; [discriminate|].
    destruct (Reqb (sqrt ab) 0) eqn:Ez.
    + destruct (Rltb 0 s); [discriminate|]. destruct (Rltb s 0); discriminate.
    + intros H. injection H as <-.
      apply mul_fin in EAB. destruct EAB as [a [b [HA [HB ->]]]].
      apply sum_squares_fin in HA, HB.
      destruct HA as [xs [Ext ->]]. destruct HB as [ys [Eyp ->]].
      destruct (sum_products_bound xs ys) as [s' [Hs' Hb]].
      rewrite Ext, Eyp, Hs' in ES. injection ES as ->.
      set (P := Rsum _ * Rsum _) in *.
      assert (HP : 0 <= P).
      { pose proof (Rle_0_sqr s) as H. unfold Rsqr in H. lra. }
      assert (Hd : 0 < sqrt P).
      { pose proof (sqrt_pos P). unfold Reqb in Ez.
        destruct (Req_dec_T (sqrt P) 0); [discriminate | lra]. }
      assert (Habs : Rabs s <= sqrt P).
      { rewrite <- sqrt_Rsqr_abs. apply sqrt_le_1_alt. exact Hb. }
      pose proof (Rle_abs s) as Hhi. pose proof (Rle_abs (- s)) as Hlo.
      rewrite Rabs_Ropp in Hlo.
      pose proof (Rinv_0_lt_compat _ Hd) as Hinv. unfold Rdiv. split.
      * apply Rmult_le_reg_r with (sqrt P); [exact Hd|].
        rewrite Rmult_assoc, Rinv_l by lra. lra.
      * apply Rmult_le_reg_r with (sqrt P); [exact Hd|].
        rewrite Rmult_assoc, Rinv_l by lra. lra.
Qed.

Lemma pearsons_r_example : pearsons_r [Fin 1; Fin 3] [Fin 2; Fin 6] = Fin 1.
Proof.
  assert (Ht : numbers_or_nan [Fin 1; Fin 3]).
  { repeat (constructor; [right; eexists; reflexivity|]). constructor. }
  assert (Hp : numbers_or_nan [Fin 2; Fin 6]).
  { repeat (constructor; [right; eexists; reflexivity|]). constructor. }
  unfold pearsons_r.
  rewrite (dev_masked_observed _ Ht), (dev_masked_observed _ Hp).
  cbn. unfold Rmean, Rsum. cbn.
  match goal with
  | |- context [Rltb ?e 0] => replace e with 16 by field
  end.
  rewrite Rltb_false by lra.
  replace (sqrt 16) with 4 by (symmetry; apply sqrt_lem_1; lra).
  rewrite Reqb_false by lra. f_equal. field.
Qed.

Lemma X_pearsons_r_lies_between_minus_1_and_1_witness :
  pearsons_r [Fin 1; Fin 3] [Fin 2; Fin 6] = Fin 1 /\ -1 <= 1 <= 1.
Proof.
  split; [apply pearsons_r_example|].
  apply (X_pearsons_r_lies_between_minus_1_and_1
           [Fin 1; Fin 3] [Fin 2; Fin 6] 1).
  - reflexivity.
  - apply pearsons_r_example.
Defined.

(* ================================================================== *)
(** * The efficiency of a tensor against itself *)
(* ================================================================== *)







(* ================================================================== *)
(** * The groundwater terms with weight zero *)
(* ================================================================== *)

Lemma rmse_fin (y_true y_pred : tensor) :
  numbers_where_observed y_true y_pred -> exists r, rmse y_true y_pred = Fin r.
Proof.
  intros H. destruct (sum_squared_errors_zero _ _ H) as [S [HS [Hpos _]]].
  unfold rmse. rewrite HS. unfold tf_cast. fnorm.
  set (n := tf_count_nonzero _).
  destruct (Rltb 0 (INR n)) eqn:E; [|eauto].
  apply Rltb_spec in E. cbn. rewrite Reqb_false by lra.
  assert (Hq : 0 <= S / INR n).
  { apply Rmult_le_pos; [exact Hpos|]. left. apply Rinv_0_lt_compat, E. }
  cbn [F.sqrt]. rewrite Rltb_false by lra. eauto.
Qed.

Lemma numbers_where_observed_fin (rs ps : list R) :
  length rs = length ps -> numbers_where_observed (map Fin rs) (map Fin ps).
Proof.
  unfold numbers_where_observed. revert ps.
  induction rs as [|r rs IH]; intros [|p ps] H; cbn in *; try discriminate;
    constructor; [right; eauto | apply IH; lia].
Qed.

Lemma quarter_main_term :
  exists r,
    rmse_masked_one_var [map quarter_data_row quarter_dates]
                        [map quarter_pred_row quarter_dates] 0 = Ok (Fin r).
Proof.
  unfold rmse_masked_one_var, y_data_components, quarter_dates. cbn.
  rewrite !Reqb_false by lra.
  match goal with
  | |- exists r, Ok (rmse ?t [Fin ?a; Fin ?b; Fin ?c]) = _ =>
      destruct (rmse_fin t [Fin a; Fin b; Fin c]) as [r ->];
      [apply (numbers_where_observed_fin [9; 9; 9] [a; b; c]); reflexivity|]
  end.
  eauto.
Qed.

Lemma quarter_aux_term :
  rmse_masked_one_var [map quarter_data_row quarter_dates]
                      [map quarter_pred_row quarter_dates] 1 = Ok (Fin 0).
Proof.
  unfold rmse_masked_one_var, y_data_components, quarter_dates. cbn.
  rewrite !Reqb_true by reflexivity. unfold rmse. cbn. fnorm.
  rewrite Rltb_false by lra. reflexivity.
Qed.

Lemma quarter_gw_terms :
  exists ra rd,
    GW_loss_prep pinv_quarter 0 (Fin 10) (Fin 2)
                 [map quarter_data_row quarter_dates]
                 [map quarter_pred_row quarter_dates]
    = Ok ([Fin 0.5], [Fin ra], [Fin 10], [Fin rd]).
Proof.
  unfold GW_loss_prep. cbn [comp2].
  destruct (GW_loss_prep_segment_exact pinv_quarter 0 (Fin 10) (Fin 2)
              quarter_dates 5 3 4
              (map quarter_data_row quarter_dates)
              (map quarter_pred_row quarter_dates)
              quarter_rows quarter_predictions
              pinv_quarter_generalized_inverse)
    as [g [Hg [HAw HPhiw]]].
  { rewrite quarter_gram_det. lra. }
  rewrite Hg. cbn [bind map].
  destruct (GW_loss_prep_segment_terms _ _ _ _ _ _ _ Hg)
    as [H2 [H3 [air_phi [air_amp [H4 [H5 [HAr HdPhi]]]]]]].
  unfold quarter_dates in H2, H3, H4, H5. cbn in H2, H3, H4, H5.
  injection H2 as H2. injection H3 as H3. injection H4 as H4. injection H5 as H5.
  rewrite <- H2, <- H3, HAr, HdPhi, HAw, HPhiw, <- H4, <- H5.
  rewrite sqrt_3_4, phase_of_3_4. unfold two_pi. cbn [F.sub F.opp F.add F.mul].
  rewrite !div_fin by (try lra; pose proof PI2_neq0; pose proof PI_RGT_0; lra).
  eauto.
Qed.

(** X19.  With [lamb2 = lamb3 = 0] (the defaults of [weighted_masked_rmse_gw]):
    whenever the loss with the groundwater terms is a number, it is the
    loss of [weighted_masked_rmse] with the same [lamb]. *)
Theorem X_zero_weights_switch_the_groundwater_terms_off
        (pinv : matrix -> matrix) (temp_index : nat) (temp_mean temp_sd : float)
        (lamb : float) (data y_pred : tensor3) (v : R) :
  rmse_masked_combined_gw pinv temp_index temp_mean temp_sd lamb (Fin 0) (Fin 0)
                          data y_pred = Ok (Fin v) ->
  rmse_masked_combined lamb data y_pred = Ok (Fin v).
Proof.
  unfold rmse_masked_combined_gw, rmse_masked_combined. intros H.
  destruct (rmse_masked_one_var data y_pred 0) as [m0|]; cbn [bind] in *;
    [|discriminate].
  destruct (rmse_masked_one_var data y_pred 1) as [m1|]; cbn [bind] in *;
    [|discriminate].
  destruct (GW_loss_prep _ _ _ _ data y_pred) as [[[[ao ap] dobs] dp]|];
    cbn [bind] in H; [|discriminate].
  injection H as H.
  apply add_fin in H. destruct H as [a [b [H1 [H2 ->]]]].
  apply add_fin in H1. destruct H1 as [c [d [H3 [H4 ->]]]].
  apply (mul_fin (Fin 0)) in H2. destruct H2 as [z2 [r2 [Hz2 [_ ->]]]].
  apply (mul_fin (Fin 0)) in H4. destruct H4 as [z1 [r1 [Hz1 [_ ->]]]].
  injection Hz1 as <-. injection Hz2 as <-.
  rewrite H3. do 2 f_equal. ring.
Qed.

Lemma X_zero_weights_switch_the_groundwater_terms_off_witness :
  exists v,
    rmse_masked_combined_gw pinv_quarter 0 (Fin 10) (Fin 2)
                            (Fin 0.5) (Fin 0) (Fin 0)
                            [map quarter_data_row quarter_dates]
                            [map quarter_pred_row quarter_dates] = Ok (Fin v)
    /\ rmse_masked_combined (Fin 0.5)
                            [map quarter_data_row quarter_dates]
                            [map quarter_pred_row quarter_dates] = Ok (Fin v).
Proof.
  assert (H : exists v,
             rmse_masked_combined_gw pinv_quarter 0 (Fin 10) (Fin 2)
                                     (Fin 0.5) (Fin 0) (Fin 0)
                                     [map quarter_data_row quarter_dates]
                                     [map quarter_pred_row quarter_dates]
             = Ok (Fin v)).
  { unfold rmse_masked_combined_gw.
    destruct quarter_main_term as [r ->]. rewrite quarter_aux_term.
    destruct quarter_gw_terms as [ra [rd ->]]. cbn [bind].
    destruct (rmse_fin [Fin 0.5] [Fin ra]) as [x ->];
      [apply (numbers_where_observed_fin [0.5] [ra]); reflexivity|].
    destruct (rmse_fin [Fin 10] [Fin rd]) as [y ->];
      [apply (numbers_where_observed_fin [10] [rd]); reflexivity|].
    cbn. eauto. }
  destruct H as [v H]. exists v. split; [exact H|].
  apply (X_zero_weights_switch_the_groundwater_terms_off
           pinv_quarter 0 (Fin 10) (Fin 2) (Fin 0.5)
           [map quarter_data_row quarter_dates]
           [map quarter_pred_row quarter_dates] v H).
Defined.

(* ================================================================== *)
(** * The weights are a mask *)
(* ================================================================== *)

Lemma masked_targets_segment (seg seg' : list (list float)) :
  Forall2 same_targets_and_mask seg seg' ->
  map (fun step : list float * list float =>
         tf_where (map (fun w => F.eqb w (Fin 0)) (fst step))
                  (map (fun _ => NaN) (snd step)) (snd step))
      (combine (map last2 seg) (map first2 seg))
  = map (fun step : list float * list float =>
           tf_where (map (fun w => F.eqb w (Fin 0)) (fst step))
                    (map (fun _ => NaN) (snd step)) (snd step))
        (combine (map last2 seg') (map first2 seg')).
Proof.
  induction 1 as [|s s' seg seg' [H1 H2] _ IH]; [reflexivity|].
  cbn [map combine fst snd]. rewrite IH, H1, H2. reflexivity.
Qed.

Lemma masked_targets_batch (data data' : tensor3) :
  same_mask data data' ->
  map (fun seg : list (list float) * list (list float) =>
         map (fun step : list float * list float =>
                tf_where (map (fun w => F.eqb w (Fin 0)) (fst step))
                         (map (fun _ => NaN) (snd step)) (snd step))
             (combine (fst seg) (snd seg)))
      (combine (map (map last2) data) (map (map first2) data))
  = map (fun seg : list (list float) * list (list float) =>
           map (fun step : list float * list float =>
                  tf_where (map (fun w => F.eqb w (Fin 0)) (fst step))
                           (map (fun _ => NaN) (snd step)) (snd step))
               (combine (fst seg) (snd seg)))
        (combine (map (map last2) data') (map (map first2) data')).
Proof.
  induction 1 as [|seg seg' data data' Hseg _ IH]; [reflexivity|].
  cbn [map combine fst snd]. rewrite IH, (masked_targets_segment _ _ Hseg).
  reflexivity.
Qed.

Lemma index_same_outcome {A : Type} (l l' : list A) (i : nat) :
  length l = length l' -> same_outcome (index l i) (index l' i).
Proof.
  intros H. unfold index.
  destruct (nth_error l i) eqn:E; destruct (nth_error l' i) eqn:E'; cbn; auto.
  - apply nth_error_None in E'. assert (nth_error l i <> None) by congruence.
    apply nth_error_Some in H0. lia.
  - apply nth_error_None in E. assert (nth_error l' i <> None) by congruence.
    apply nth_error_Some in H0. lia.
Qed.

Lemma comp_same_outcome {A A' B B' : Type} (f : A -> Exc B) (g : A' -> Exc B')
      (xs : list A) (xs' : list A') :
  Forall2 (fun x x' => same_outcome (f x) (g x')) xs xs' ->
  same_outcome (comp f xs) (comp g xs').
Proof.
  induction 1 as [|x x' xs xs' Hx _ IH]; cbn [comp]; [exact I|].
  destruct (f x), (g x'); cbn in *; try contradiction; [|exact Hx].
  destruct (comp f xs), (comp g xs'); cbn in *; try contradiction; auto.
Qed.

Lemma Forall2_map {A A' B B' : Type} (R : B -> B' -> Prop)
      (h : A -> B) (h' : A' -> B') (l : list A) (l' : list A') :
  Forall2 (fun x x' => R (h x) (h' x')) l l' -> Forall2 R (map h l) (map h' l').
Proof. induction 1; cbn; constructor; assumption. Qed.

Lemma channel_weights_same_outcome (data data' : tensor3) (i : nat) :
  same_mask data data' ->
  same_outcome (channel (map (map last2) data) i)
               (channel (map (map last2) data') i).
Proof.
  intros H. unfold channel.
  assert (Hc : same_outcome
                 (comp (fun seg => comp (fun step => index step i) seg)
                       (map (map last2) data))
                 (comp (fun seg => comp (fun step => index step i) seg)
                       (map (map last2) data'))).
  { apply comp_same_outcome, Forall2_map.
    eapply Forall2_impl; [|exact H]. intros seg seg' Hseg. cbv beta.
    apply comp_same_outcome, Forall2_map.
    eapply Forall2_impl; [|exact Hseg]. intros s s' [_ Hs]. cbv beta.
    apply index_same_outcome.
    apply (f_equal (@length bool)) in Hs. rewrite !length_map in Hs. exact Hs. }
  destruct (comp _ (map (map last2) data)), (comp _ (map (map last2) data'));
    cbn in *; try contradiction; auto.
Qed.

(** X20.  The weights only mask: two batches with the same targets and with
    weights that are zero at the same places give the same [rmse], [nnse]
    and [kge] loss of a variable, whatever the non-zero weights are. *)
Theorem X_weights_act_only_as_a_mask
        (data data' y_pred : tensor3) (var_idx : nat) :
  same_mask data data' ->
  rmse_masked_one_var data y_pred var_idx
  = rmse_masked_one_var data' y_pred var_idx
  /\ nnse_masked_one_var data y_pred var_idx
     = nnse_masked_one_var data' y_pred var_idx
  /\ kge_loss_one_var data y_pred var_idx
     = kge_loss_one_var data' y_pred var_idx.
Proof.
  intros H.
  unfold rmse_masked_one_var, nnse_masked_one_var, kge_loss_one_var,
    y_data_components.
  cbv zeta. rewrite (masked_targets_batch _ _ H).
  pose proof (channel_weights_same_outcome data data' var_idx H) as Hw.
  destruct (channel (map (map last2) data) var_idx) as [w|e];
    destruct (channel (map (map last2) data') var_idx) as [w'|e'];
    cbn in Hw; try contradiction; cbn [bind].
  - destruct (channel _ var_idx) as [t|]; cbn [bind]; [|repeat split].
    destruct (channel y_pred var_idx) as [p|]; cbn [bind]; repeat split.
  - subst e'. repeat split.
Qed.

Lemma X_weights_act_only_as_a_mask_witness :
  rmse_masked_one_var [[[Fin 1; Fin 2; Fin 1; Fin 0]]] [[[Fin 3; Fin 4]]] 0
  = rmse_masked_one_var [[[Fin 1; Fin 2; Fin 7; Fin 0]]] [[[Fin 3; Fin 4]]] 0
  /\ nnse_masked_one_var [[[Fin 1; Fin 2; Fin 1; Fin 0]]] [[[Fin 3; Fin 4]]] 0
     = nnse_masked_one_var [[[Fin 1; Fin 2; Fin 7; Fin 0]]] [[[Fin 3; Fin 4]]] 0
  /\ kge_loss_one_var [[[Fin 1; Fin 2; Fin 1; Fin 0]]] [[[Fin 3; Fin 4]]] 0
     = kge_loss_one_var [[[Fin 1; Fin 2; Fin 7; Fin 0]]] [[[Fin 3; Fin 4]]] 0.
Proof.
  apply (X_weights_act_only_as_a_mask
           [[[Fin 1; Fin 2; Fin 1; Fin 0]]] [[[Fin 1; Fin 2; Fin 7; Fin 0]]]
           [[[Fin 3; Fin 4]]] 0).
  repeat constructor. cbn.
  rewrite (Reqb_false 1 0), (Reqb_false 7 0) by lra. reflexivity.
Defined.

(* ================================================================== *)
(** * The scaled columns *)
(* ================================================================== *)

Lemma np_nanmean_masked (x : list float) : np_nanmean x = mean_masked x.
Proof. rewrite mean_masked_is_mean. reflexivity. Qed.

Lemma np_nanstd_masked (x : list float) :
  np_nanstd x
  = F.sqrt (tf_reduce_sum (tf_square (dev_masked x))
            / Fin (INR (length (non_missing x))))%float.
Proof.
  unfold np_nanstd, dev_masked, tf_sub_scalar. cbv zeta.
  rewrite where_nan_zero_else_square, np_nanmean_masked. reflexivity.
Qed.

Lemma non_missing_observed (x : tensor) :
  numbers_or_nan x -> length (non_missing x) = length (observed x).
Proof. intros H. rewrite <- count_non_nan. apply count_observed, H. Qed.

Lemma Rsum_div (g : R -> R) (s : R) (l : list R) :
  Rsum (map (fun r => g r / s) l) = Rsum (map g l) / s.
Proof.
  unfold Rsum. induction l as [|x l IH]; cbn [map fold_right].
  - unfold Rdiv. ring.
  - rewrite IH. unfold Rdiv. ring.
Qed.

Lemma Rsum_ext (g h : R -> R) (l : list R) :
  (forall r, g r = h r) -> Rsum (map g l) = Rsum (map h l).
Proof. intros H. f_equal. apply map_ext, H. Qed.

(** Mean and deviation of a column of numbers and NaN in which two
    numbers differ. *)
Lemma nanmean_nanstd_varies (x : list float) :
  numbers_or_nan x -> varies x ->
  exists s,
    np_nanmean x = Fin (Rmean (observed x))
    /\ np_nanstd x = Fin s
    /\ 0 < s
    /\ s * s
       = Rsum (map (fun r => (r - Rmean (observed x)) * (r - Rmean (observed x)))
                   (observed x)) / INR (length (observed x)).
Proof.
  intros Hx Hv. pose proof (varies_two x Hv) as Hn.
  pose proof (varies_positive x Hv) as HD.
  rewrite np_nanmean_masked, np_nanstd_masked, (mean_masked_observed x Hx).
  rewrite (sum_squared_deviations x Hx), (non_missing_observed x Hx).
  set (D := Rsum _) in *. set (n := length (observed x)) in *.
  assert (Hn0 : 0 < INR n) by (apply lt_0_INR; lia).
  assert (Hq : 0 < D / INR n).
  { apply Rmult_lt_0_compat; [exact HD | apply Rinv_0_lt_compat, Hn0]. }
  destruct (Nat.eqb n 0) eqn:E; [apply Nat.eqb_eq in E; lia|].
  exists (sqrt (D / INR n)). split; [reflexivity|].
  cbn [F.div]. rewrite Reqb_false by lra. cbn [F.sqrt].
  rewrite Rltb_false by lra. split; [reflexivity|].
  split; [apply sqrt_lt_R0, Hq | apply sqrt_sqrt; lra].
Qed.

Lemma scaled_numbers (m s : R) (x : list float) :
  s <> 0 -> numbers_or_nan x ->
  numbers_or_nan (map (fun v => ((v - Fin m) / Fin s)%float) x)
  /\ observed (map (fun v => ((v - Fin m) / Fin s)%float) x)
     = map (fun r => (r - m) / s) (observed x).
Proof.
  intros Hs. unfold numbers_or_nan, observed.
  induction 1 as [|v x [->|[r ->]] _ [IH1 IH2]]; cbn [map flat_map].
  - split; [constructor | reflexivity].
  - split; [constructor; [left; reflexivity | exact IH1] | exact IH2].
  - cbn [F.sub F.opp F.add F.div]. rewrite Reqb_false by exact Hs.
    split; [constructor; [right; eexists; reflexivity | exact IH1]|].
    cbn [app]. rewrite IH2. reflexivity.
Qed.

(** X21.  A column of numbers and NaN in which two numbers differ, after the
    scaling: NaN stays where it was and nowhere else, and the entries that
    are not NaN have mean 0 and standard deviation 1. *)
Theorem X_scaled_column_has_mean_0_and_deviation_1 (col : list float) :
  numbers_or_nan col -> varies col ->
  length (scale_column col) = length col
  /\ (forall i, nth_error (scale_column col) i = Some NaN
                <-> nth_error col i = Some NaN)
  /\ np_nanmean (scale_column col) = Fin 0
  /\ np_nanstd (scale_column col) = Fin 1.
Proof.
  intros Hx Hv.
  destruct (nanmean_nanstd_varies col Hx Hv) as [s [Hm [Hs [Hpos Hss]]]].
  unfold scale_column. rewrite Hm, Hs.
  set (m := Rmean (observed col)) in *.
  destruct (scaled_numbers m s col ltac:(lra) Hx) as [Hz Hobs].
  set (z := map _ col) in *.
  pose proof (varies_two col Hv) as Hn.
  assert (Hlen : length (observed z) = length (observed col)).
  { rewrite Hobs. apply length_map. }
  assert (Hn0 : 0 < INR (length (observed col))) by (apply lt_0_INR; lia).
  assert (Hmz : Rmean (observed z) = 0).
  { unfold Rmean. rewrite Hobs at 1. rewrite (Rsum_div (fun r => r - m)).
    unfold m at 1. rewrite Rsum_centred. unfold Rdiv. ring. }
  split; [apply length_map|]. split.
  - intros i. unfold z. rewrite nth_error_map.
    destruct (nth_error col i) as [v|] eqn:E; cbn [option_map]; [|tauto].
    apply nth_error_In in E.
    destruct (proj1 (Forall_forall _ _) Hx v E) as [->|[r ->]]; [tauto|].
    cbn [F.sub F.opp F.add F.div]. rewrite Reqb_false by lra.
    split; intros H; discriminate.
  - rewrite np_nanmean_masked, np_nanstd_masked, (mean_masked_observed z Hz).
    rewrite (sum_squared_deviations z Hz), (non_missing_observed z Hz).
    rewrite Hmz, Hlen.
    destruct (Nat.eqb (length (observed col)) 0) eqn:E;
      [apply Nat.eqb_eq in E; lia|].
    split; [reflexivity|].
    rewrite Hobs, map_map.
    rewrite (Rsum_ext _ (fun r => (r - m) * (r - m) / (s * s)))
      by (intros r; field; lra).
    rewrite (Rsum_div (fun r => (r - m) * (r - m))), Hss.
    set (D := Rsum _) in *.
    assert (HD : 0 < D) by (apply (varies_positive col Hv)).
    cbn [F.div]. rewrite Reqb_false by lra.
    replace (D / (D / INR (length (observed col))) / INR (length (observed col)))
      with 1 by (field; lra).
    cbn [F.sqrt]. rewrite Rltb_false by lra. rewrite sqrt_1. reflexivity.
Qed.

Lemma X_scaled_column_has_mean_0_and_deviation_1_witness :
  length (scale_column [Fin 1; NaN; Fin 3]) = length [Fin 1; NaN; Fin 3]
  /\ (forall i, nth_error (scale_column [Fin 1; NaN; Fin 3]) i = Some NaN
                <-> nth_error [Fin 1; NaN; Fin 3] i = Some NaN)
  /\ np_nanmean (scale_column [Fin 1; NaN; Fin 3]) = Fin 0
  /\ np_nanstd (scale_column [Fin 1; NaN; Fin 3]) = Fin 1.
Proof.
  apply (X_scaled_column_has_mean_0_and_deviation_1 [Fin 1; NaN; Fin 3]).
  - unfold numbers_or_nan.
    repeat (constructor; [first [left; reflexivity | right; eexists; reflexivity]|]).
    constructor.
  - exists 1, 3. cbn. split; [auto|]. split; [auto | lra].
Defined.




(* ================================================================== *)
(** * One row per predicted segment *)
(* ================================================================== *)

Lemma insert_unique_In (z y : Z) (l : list Z) :
  In y (insert_unique z l) <-> y = z \/ In y l.
Proof.
  induction l as [|x l IH]; cbn [insert_unique].
  - cbn. intuition.
  - destruct (z <? x)%Z eqn:E1; [cbn; intuition|].
    destruct (z =? x)%Z eqn:E2.
    + apply Z.eqb_eq in E2. subst. cbn. intuition.
    + cbn [In]. rewrite IH. intuition.
Qed.

Lemma insert_unique_sorted (z : Z) (l : list Z) :
  StronglySorted Z.lt l -> StronglySorted Z.lt (insert_unique z l).
Proof.
  induction 1 as [|x l Hs IH Hx]; cbn [insert_unique].
  - constructor; constructor.
  - destruct (z <? x)%Z eqn:E1.
    + apply Z.ltb_lt in E1. constructor; [constructor; assumption|].
      constructor; [exact E1|].
      eapply Forall_impl; [|exact Hx]. intros y Hy. cbv beta in *. lia.
    + destruct (z =? x)%Z eqn:E2; [constructor; assumption|].
      apply Z.ltb_ge in E1. apply Z.eqb_neq in E2.
      constructor; [exact IH|]. apply Forall_forall. intros y Hy.
      apply insert_unique_In in Hy. destruct Hy as [->|Hy]; [lia|].
      exact (proj1 (Forall_forall _ _) Hx y Hy).
Qed.

Lemma np_unique_sorted (l : list Z) : StronglySorted Z.lt (np_unique l).
Proof.
  unfold np_unique. induction l as [|x l IH]; cbn [fold_right];
    [constructor | apply insert_unique_sorted, IH].
Qed.

Lemma np_unique_In (l : list Z) (y : Z) : In y (np_unique l) <-> In y l.
Proof.
  unfold np_unique. induction l as [|x l IH]; cbn [fold_right]; [tauto|].
  rewrite insert_unique_In, IH. cbn. intuition.
Qed.

(** X23.  [calc_amp_phi] never raises, whatever the regression does, and
    returns one row per segment that occurs in the data: the segment ids
    are exactly those of the data, each once, in strictly ascending order,
    and the two other columns have one entry per segment. *)
Theorem X_one_row_per_predicted_segment
        (OLS_fit : list float -> list (list float) -> Exc OLSResults)
        (thisData : list PredRow) :
  exists segs amps phis,
    calc_amp_phi OLS_fit thisData = Ok (segs, amps, phis)
    /\ StronglySorted Z.lt segs
    /\ (forall s, In s segs <-> In s (map p_seg_id_nat thisData))
    /\ length amps = length segs
    /\ length phis = length segs.
Proof.
  unfold calc_amp_phi. cbv zeta.
  set (f := fun thisSeg : Z => amp_phi OLS_fit _ _ true).
  destruct (comp_total f (np_unique (map p_seg_id_nat thisData))) as [fits Hf].
  { intros s Hs. apply amp_phi_total.
    apply np_unique_In, in_map_iff in Hs. destruct Hs as [r [Hr Hin]].
    intros E. apply map_eq_nil in E.
    assert (Hf : In r (filter (fun r => (p_seg_id_nat r =? s)%Z) thisData)).
    { apply filter_In. split; [exact Hin | apply Z.eqb_eq, Hr]. }
    rewrite E in Hf. exact Hf. }
  rewrite Hf. cbn [bind]. do 3 eexists. split; [reflexivity|].
  split; [apply np_unique_sorted|]. split; [intros s; apply np_unique_In|].
  rewrite !length_map. split; apply (comp_length _ _ _ Hf).
Qed.

Lemma water_band_idempotent (x : float) : water_band (water_band x) = water_band x.
Proof.
  unfold water_band.
  destruct ((x >=? Fin 1)%float && (x <=? Fin 45)%float) eqn:E;
    [rewrite E|]; reflexivity.
Qed.

Lemma filter_band_rows (s : Z) (rows : list PredRow) :
  filter (fun r => (p_seg_id_nat r =? s)%Z) (map band_row rows)
  = map band_row (filter (fun r => (p_seg_id_nat r =? s)%Z) rows).
Proof.
  induction rows as [|r rows IH]; [reflexivity|]. cbn [map filter].
  cbn [band_row p_seg_id_nat]. destruct (p_seg_id_nat r =? s)%Z; cbn [map];
    rewrite IH; reflexivity.
Qed.

(** X24.  Predicted temperatures below 1 or above 45 degrees play no part in
    [calc_amp_phi]: replacing them by NaN changes nothing. *)
Theorem X_predictions_outside_the_band_are_dropped
        (OLS_fit : list float -> list (list float) -> Exc OLSResults)
        (thisData : list PredRow) :
  calc_amp_phi OLS_fit (map band_row thisData) = calc_amp_phi OLS_fit thisData.
Proof.
  unfold calc_amp_phi. cbv zeta. rewrite map_map. cbn [band_row p_seg_id_nat].
  assert (H : forall segs,
             comp (fun thisSeg =>
                     amp_phi OLS_fit
                       (map p_date (filter (fun r => (p_seg_id_nat r =? thisSeg)%Z)
                                           (map band_row thisData)))
                       (map p_seg_tave_water
                            (filter (fun r => (p_seg_id_nat r =? thisSeg)%Z)
                                    (map band_row thisData))) true) segs
             = comp (fun thisSeg =>
                       amp_phi OLS_fit
                         (map p_date (filter (fun r => (p_seg_id_nat r =? thisSeg)%Z)
                                             thisData))
                         (map p_seg_tave_water
                              (filter (fun r => (p_seg_id_nat r =? thisSeg)%Z)
                                      thisData)) true) segs).
  { intros segs. apply comp_ext. intros s.
    rewrite filter_band_rows, !map_map. cbn [band_row p_date p_seg_tave_water].
    rewrite !amp_phi_unfold. unfold ols_input.
    rewrite <- (map_map p_seg_tave_water water_band), map_map.
    rewrite (map_ext _ _ water_band_idempotent), map_map. reflexivity. }
  rewrite H. reflexivity.
Qed.
